(** * SEC EDGAR Analyzer: storage schema, ingestion pipeline and page assembly

    A shallow embedding of the parts of the repository that its
    specification talks about:

    - [Schema]: the tables of sql/schema.sql and the row interfaces and
      vocabularies of src/lib/supabase.ts;
    - [Pipeline]: the extraction stages of scripts/ingest_filings.py
      (unit detector, metric extractor, keyword scanner);
    - [Storage]: the relational store with the constraints of
      sql/schema.sql, its upserts and the ingestion orchestrator;
    - [Js]: the numbers of the language, their texts and its sort, as the
      components use them;
    - [Frontend]: the page-assembly and card helpers of src/app/page.tsx,
      src/app/company/[ticker]/page.tsx, src/components/Dashboard.tsx and
      src/components/CompanyCard.tsx;
    - [Views]: the search, the view controller and the exports of
      src/components/Dashboard.tsx, with the click handlers of the cards;
    - [Charts]: src/components/ComparisonChart.tsx and
      src/components/RiskKeywords.tsx;
    - [Home]: what src/app/page.tsx hands to the dashboard;
    - [Seed] and [Sql]: the seed data of sql/schema.sql and the statements
      its tables take.

    Definitions come first, the theorems follow. *)

From Stdlib Require Import ZArith QArith Qabs Qround Lqa String Ascii List Lia Bool DecimalString.
From Stdlib Require Import SpecFloat Qpower.
From stdpp Require Import gmap strings list sorting.

Open Scope string_scope.
Open Scope list_scope.
Open Scope Z_scope.

(* ===================================================================== *)
(** * Schema: sql/schema.sql and src/lib/supabase.ts *)
(* ===================================================================== *)

Module Schema.

(** [UUID PRIMARY KEY DEFAULT gen_random_uuid()]: an identifier that no
    earlier row carries.  The store hands them out from a counter. *)
Definition uuid := nat.

(** [TIMESTAMPTZ]: a point on the clock. *)
Definition timestamptz := Z.

(** A column without [NOT NULL] holds [option]: [None] is SQL's NULL. *)

(** [CREATE TABLE companies]. *)
Record Company := {
  company_pk : uuid;
  ticker : string;
  company_name : string;
  cik : string;
  sector : option string;
  industry : option string;
  company_created_at : option timestamptz;
  company_updated_at : option timestamptz
}.

(** [CREATE TABLE filings]: [company_id], [fiscal_period] and
    [accession_number] are nullable, the other columns are NOT NULL. *)
Record Filing := {
  filing_pk : uuid;
  company_id : option uuid;
  filing_type : string;
  filing_date : string;
  fiscal_year : Z;
  fiscal_period : option string;
  accession_number : option string;
  source_url : string;
  filing_created_at : option timestamptz
}.

(** [CREATE TABLE financial_metrics]; [metric_value NUMERIC] is nullable. *)
Record FinancialMetric := {
  metric_pk : uuid;
  metric_filing_id : option uuid;
  metric_name : string;
  metric_value : option Z;
  unit : option string;
  metric_created_at : option timestamptz
}.

(** [CREATE TABLE risk_keywords]. *)
Record RiskKeyword := {
  keyword_pk : uuid;
  keyword_filing_id : option uuid;
  keyword : string;
  frequency : option Z;
  section : option string;
  context_snippet : option string;
  keyword_created_at : option timestamptz
}.

(** [export const TRACKED_METRICS] of src/lib/supabase.ts. *)
Definition TRACKED_METRICS : list string :=
  [ "revenue";
    "net_income";
    "total_assets";
    "total_liabilities";
    "cash_and_equivalents" ].

(** [export const TRACKED_KEYWORDS] of src/lib/supabase.ts. *)
Definition TRACKED_KEYWORDS : list string :=
  [ "supply chain";
    "inflation";
    "cybersecurity";
    "litigation";
    "regulation";
    "competition";
    "climate";
    "pandemic";
    "geopolitical";
    "interest rate" ].

(** Column defaults: [unit VARCHAR(20) DEFAULT 'USD'] and
    [section VARCHAR(50) DEFAULT 'risk_factors']. *)
Definition DEFAULT_UNIT : string := "USD".
Definition DEFAULT_SECTION : string := "risk_factors".

(** How a UNIQUE constraint compares one column of two rows.  SQL compares
    with [=], and [=] is never true when a side is NULL: two rows that are
    both NULL in a constrained column do not conflict. *)
Definition sql_eq {A} `{EqDecision A} (x y : option A) : bool :=
  match x, y with
  | Some a, Some b => bool_decide (a = b)
  | _, _ => false
  end.

(** [UNIQUE(company_id, filing_type, fiscal_year, fiscal_period)]. *)
Definition filing_conflict (a b : Filing) : bool :=
  sql_eq (company_id a) (company_id b)
  && bool_decide (filing_type a = filing_type b)
  && bool_decide (fiscal_year a = fiscal_year b)
  && sql_eq (fiscal_period a) (fiscal_period b).

(** [UNIQUE(filing_id, metric_name)]. *)
Definition metric_conflict (a b : FinancialMetric) : bool :=
  sql_eq (metric_filing_id a) (metric_filing_id b)
  && bool_decide (metric_name a = metric_name b).

(** [UNIQUE(filing_id, keyword, section)]. *)
Definition keyword_conflict (a b : RiskKeyword) : bool :=
  sql_eq (keyword_filing_id a) (keyword_filing_id b)
  && bool_decide (keyword a = keyword b)
  && sql_eq (section a) (section b).

(** The key tuples the specification names for the three tables. *)
Definition filing_key (f : Filing) : option uuid * string * Z * option string :=
  (company_id f, filing_type f, fiscal_year f, fiscal_period f).

Definition metric_key (m : FinancialMetric) : option uuid * string :=
  (metric_filing_id m, metric_name m).

Definition keyword_key (k : RiskKeyword) : option uuid * string * option string :=
  (keyword_filing_id k, keyword k, section k).

End Schema.

(* ===================================================================== *)
(** * Text: case folding and substring search *)
(* ===================================================================== *)

Module Text.

(** Case folding of a text of ASCII characters: the letters A to Z become
    a to z, every other character stays. *)
Definition lower_ascii (c : ascii) : ascii :=
  let n := nat_of_ascii c in
  if ((65 <=? n) && (n <=? 90))%nat then ascii_of_nat (n + 32) else c.

Fixpoint lower (s : string) : string :=
  match s with
  | EmptyString => EmptyString
  | String c s' => String (lower_ascii c) (lower s')
  end.

(** [occurs p s]: [p] starts at some position of [s]. *)
Fixpoint occurs (p s : string) : bool :=
  String.prefix p s
  || match s with
     | EmptyString => false
     | String _ s' => occurs p s'
     end.

(** Case-insensitive substring test. *)
Definition contains_ci (p s : string) : bool := occurs (lower p) (lower s).

(** [starts_any ps s]: one of the terms [ps] starts at the head of [s]. *)
Definition starts_any (ps : list string) (s : string) : bool :=
  existsb (fun p => String.prefix p s) ps.

(** [occurs_any ps s]: one of the terms occurs in [s]. *)
Definition occurs_any (ps : list string) (s : string) : bool :=
  existsb (fun p => occurs p s) ps.

(** Number of positions of [s] at which one of the terms starts. *)
Fixpoint count_positions (ps : list string) (s : string) : nat :=
  ((if starts_any ps s then 1 else 0)
   + match s with
     | EmptyString => 0
     | String _ s' => count_positions ps s'
     end)%nat.

(** The suffix of [s] from the first position at which a term starts. *)
Fixpoint from_first (ps : list string) (s : string) : option string :=
  if starts_any ps s then Some s
  else match s with
       | EmptyString => None
       | String _ s' => from_first ps s'
       end.

Fixpoint truncate (n : nat) (s : string) : string :=
  match n, s with
  | S n', String c s' => String c (truncate n' s')
  | _, _ => EmptyString
  end.

End Text.

(* ===================================================================== *)
(** * Pipeline: the extraction stages of scripts/ingest_filings.py *)
(* ===================================================================== *)

Module Pipeline.
Import Schema Text.

(** ** Documents *)

(** Modelled from the spec: the parsed form of a filing document that the
    stages of the missing scripts/ingest_filings.py work on (section 4):
    the header and table-caption text the unit detector reads, the table
    rows as a label with its adjacent numeric token, and the narrative
    text the keyword scanner reads. *)
Record Document := {
  doc_header : string;
  doc_rows : list (string * string);
  doc_narrative : string
}.

(** Modelled from the spec: what section 4 leaves open with "e.g." and the
    missing script fixes: the ordered label patterns of each metric and
    the terms (the keyword and its variants) counted for each keyword. *)
Record Config := {
  label_patterns : string -> list string;
  keyword_terms : string -> list string
}.

(** ** Unit detector (section 4.2) *)

(** Modelled from the spec: the reporting scales the Unit Detector of the
    missing scripts/ingest_filings.py tells apart. *)
Inductive ReportingUnit := Ones | Thousands | Millions.

(** Modelled from the spec: the multiplier of a scale, "1,234 in thousands
    is 1,234,000" (section 8). *)
Definition scale (u : ReportingUnit) : Z :=
  match u with
  | Ones => 1
  | Thousands => 1000
  | Millions => 1000000
  end.

(** Modelled from the spec: the phrases of section 4.2, in its order. *)
Definition UNIT_PHRASES : list (string * ReportingUnit) :=
  [ ("in millions", Millions);
    ("in thousands", Thousands);
    ("(000s)", Thousands);
    ("(in thousands, except", Thousands) ].

(** Modelled from the spec: the unit of the first phrase that starts the
    text, if one does. *)
Definition phrase_at (s : string) : option ReportingUnit :=
  snd <$> List.find (fun pu => String.prefix (fst pu) s) UNIT_PHRASES.

(** Modelled from the spec: "first confident match wins", reading the text
    from its start. *)
Fixpoint first_phrase (s : string) : option ReportingUnit :=
  match phrase_at s with
  | Some u => Some u
  | None => match s with
            | EmptyString => None
            | String _ s' => first_phrase s'
            end
  end.

(** Modelled from the spec: the Unit Detector of the missing
    scripts/ingest_filings.py; the flag is "unit-ambiguous". *)
Definition detect_unit (text : string) : ReportingUnit * bool :=
  match first_phrase (lower text) with
  | Some u => (u, false)
  | None => (Ones, true)
  end.

(** ** Metric extractor (section 4.3) *)

(** Modelled from the spec: the numeric tokens of section 4.3, read digit
    by digit. *)
Definition digit_of (c : ascii) : option Z :=
  let n := nat_of_ascii c in
  if ((48 <=? n) && (n <=? 57))%nat then Some (Z.of_nat (n - 48)) else None.

Fixpoint digits_value (acc : Z) (s : string) : option Z :=
  match s with
  | EmptyString => Some acc
  | String c s' =>
      match digit_of c with
      | Some d => digits_value (10 * acc + d) s'
      | None => None
      end
  end.

Definition natural (s : string) : option Z :=
  match s with
  | EmptyString => None
  | _ => digits_value 0 s
  end.

(** Modelled from the spec: thousands separators, currency symbols and
    blanks are dropped. *)
Fixpoint strip_marks (s : string) : string :=
  match s with
  | EmptyString => EmptyString
  | String c s' =>
      if (Ascii.eqb c "," || Ascii.eqb c "$" || Ascii.eqb c " ")%bool
      then strip_marks s'
      else String c (strip_marks s')
  end.

(** Modelled from the spec: the inside of a parenthesized negative, the text
    before the closing parenthesis that ends the token. *)
Fixpoint before_close (s : string) : option string :=
  match s with
  | EmptyString => None
  | String c EmptyString => if Ascii.eqb c ")" then Some EmptyString else None
  | String c s' => String c <$> before_close s'
  end.

(** Modelled from the spec: "parsing thousands separators, parenthesized
    negatives, and currency symbols" of section 4.3. *)
Definition parse_number (token : string) : option Z :=
  match strip_marks token with
  | String "(" rest => Z.opp <$> (before_close rest ≫= natural)
  | String "-" rest => Z.opp <$> natural rest
  | t => natural t
  end.

(** Modelled from the spec: a label matches when it contains one of the
    metric's patterns, whatever the case. *)
Definition label_matches (patterns : list string) (label : string) : bool :=
  existsb (fun p => contains_ci p label) patterns.

(** Modelled from the spec: the candidate values of a metric: every
    parsable numeric token adjacent to a label that one of the metric's
    patterns matches, the patterns taken in their order. *)
Definition candidates (cfg : Config) (d : Document) (metric : string) : list Z :=
  p ← label_patterns cfg metric;
  omap (fun row => if contains_ci p (fst row) then parse_number (snd row) else None)
       (doc_rows d).

(** Modelled from the spec: the disambiguation rule of section 4.3, the
    maximum by absolute value; the earlier candidate stays on a tie. *)
Definition larger_abs (best c : Z) : Z :=
  if Z.abs best <? Z.abs c then c else best.

(** Modelled from the spec: the candidate the extractor builds on; none when
    no label matched. *)
Definition select_max_abs (cs : list Z) : option Z :=
  match cs with
  | [] => None
  | c :: cs' => Some (fold_left larger_abs cs' c)
  end.

Definition raw_metric_value (cfg : Config) (d : Document) (metric : string) : option Z :=
  select_max_abs (candidates cfg d metric).

(** Modelled from the spec: the Metric Extractor of the missing
    scripts/ingest_filings.py: the chosen raw number times the document's
    scale, or null when no label matches. *)
Definition extract_metric (cfg : Config) (d : Document) (u : ReportingUnit)
    (metric : string) : option Z :=
  (fun raw => raw * scale u) <$> raw_metric_value cfg d metric.

(** Modelled from the spec: the control flow of section 2: the unit is
    detected once per document and handed to the extractor. *)
Definition canonical_value (cfg : Config) (d : Document) (metric : string) : option Z :=
  extract_metric cfg d (fst (detect_unit (doc_header d))) metric.

(** Modelled from the spec: the extractor run for each tracked metric
    (section 4.5). *)
Definition extract_metrics (cfg : Config) (d : Document) : list (string * option Z) :=
  (fun metric => (metric, canonical_value cfg d metric)) <$> TRACKED_METRICS.

(** ** Keyword scanner (section 4.4) *)

(** Modelled from the spec: the bound on a snippet's length. *)
Definition SNIPPET_LENGTH : nat := 300.

(** Modelled from the spec: the text up to the next heading marker. *)
Fixpoint until_term (p : string) (s : string) : string :=
  if String.prefix p s then EmptyString
  else match s with
       | EmptyString => EmptyString
       | String c s' => String c (until_term p s')
       end.

(** Modelled from the spec: the risk-factor section, from the first
    "Item 1A" heading up to the next "Item" heading; [None] when the heading
    is not found. *)
Definition risk_section (text : string) : option string :=
  match from_first ["item 1a"] text with
  | Some (String c rest) => Some (String c (until_term "item " rest))
  | _ => None
  end.

(** Modelled from the spec: what the Keyword Scanner of the missing
    scripts/ingest_filings.py returns for a keyword: the count of its
    occurrences and one snippet. *)
Record KeywordHit := {
  hit_keyword : string;
  hit_frequency : nat;
  hit_snippet : option string
}.

(** Modelled from the spec: the sentences of a text, split at the full
    stops. *)
Fixpoint sentences (s : string) : list string :=
  match s with
  | EmptyString => [EmptyString]
  | String c s' =>
      if Ascii.eqb c "." then EmptyString :: sentences s'
      else match sentences s' with
           | [] => [String c EmptyString]
           | first :: rest => String c first :: rest
           end
  end.

(** Modelled from the spec: one keyword in the section: the positions at
    which the keyword or a variant of it starts are counted, and the first
    sentence with a match is kept, cut to the bound. *)
Definition scan_keyword (cfg : Config) (text : string) (kw : string) : KeywordHit :=
  let terms := lower <$> keyword_terms cfg kw in
  {| hit_keyword := kw;
     hit_frequency := count_positions terms text;
     hit_snippet :=
       truncate SNIPPET_LENGTH
       <$> List.find (fun sentence => occurs_any terms sentence) (sentences text) |}.

(** Modelled from the spec: the Keyword Scanner of the missing
    scripts/ingest_filings.py: the risk-factor section (the whole text as
    the fallback), one hit per tracked keyword, zero-frequency keywords
    omitted. *)
Definition scan_keywords (cfg : Config) (d : Document) : list KeywordHit :=
  let text := lower (doc_narrative d) in
  let scope := default text (risk_section text) in
  filter (fun h => hit_frequency h ≠ 0%nat) (scan_keyword cfg scope <$> TRACKED_KEYWORDS).

End Pipeline.

(* ===================================================================== *)
(** * Storage: the store of sql/schema.sql and the ingestion orchestrator *)
(* ===================================================================== *)

Module Storage.
Import Schema Text Pipeline.

(** The four tables, rows in insertion order, and the source of fresh
    primary keys. *)
Record Store := {
  companies : list Company;
  filings : list Filing;
  financial_metrics : list FinancialMetric;
  risk_keywords : list RiskKeyword;
  next_uuid : uuid
}.

(** ** INSERT ... ON CONFLICT (unique columns) DO UPDATE, on one table *)

Section Table.
Context {R : Type}.
(** [conflict old new]: the table's UNIQUE constraint rejects [new]
    beside [old]. *)
Variable conflict : R -> R -> bool.
(** [merge old new]: [old] after DO UPDATE SET with the columns of
    [new]. *)
Variable merge : R -> R -> R.

(** Modelled from the spec: the row an upsert of [new] falls on, "keyed by
    the uniqueness invariants": the row the constraint sets against it. *)
Definition conflicting (new : R) (rows : list R) : option R :=
  List.find (fun old => conflict old new) rows.

(** Modelled from the spec: the table after the update of that row. *)
Fixpoint update_conflicting (new : R) (rows : list R) : list R :=
  match rows with
  | [] => []
  | old :: rows' =>
      if conflict old new then merge old new :: rows'
      else old :: update_conflicting new rows'
  end.
End Table.

(** Modelled from the spec: what an upsert of the missing
    scripts/ingest_filings.py makes of the row it falls on: the written
    columns replace the old ones; the primary key and [created_at] (a column
    default, used on insertion only) stay. *)
Definition merge_filing (old new : Filing) : Filing :=
  {| filing_pk := filing_pk old;
     company_id := company_id new;
     filing_type := filing_type new;
     filing_date := filing_date new;
     fiscal_year := fiscal_year new;
     fiscal_period := fiscal_period new;
     accession_number := accession_number new;
     source_url := source_url new;
     filing_created_at := filing_created_at old |}.

(** Modelled from the spec: the same for a metric row. *)
Definition merge_metric (old new : FinancialMetric) : FinancialMetric :=
  {| metric_pk := metric_pk old;
     metric_filing_id := metric_filing_id new;
     metric_name := metric_name new;
     metric_value := metric_value new;
     unit := unit new;
     metric_created_at := metric_created_at old |}.

(** Modelled from the spec: the same for a keyword row. *)
Definition merge_keyword (old new : RiskKeyword) : RiskKeyword :=
  {| keyword_pk := keyword_pk old;
     keyword_filing_id := keyword_filing_id new;
     keyword := keyword new;
     frequency := frequency new;
     section := section new;
     context_snippet := context_snippet new;
     keyword_created_at := keyword_created_at old |}.

(** ** Foreign keys: [REFERENCES companies(id)], [REFERENCES filings(id)] *)

Definition company_exists (s : Store) (c : uuid) : bool :=
  existsb (fun r => bool_decide (company_pk r = c)) (companies s).

Definition filing_exists (s : Store) (f : uuid) : bool :=
  existsb (fun r => bool_decide (filing_pk r = f)) (filings s).

(** ** The storage interface (section 6) *)

(** The columns a writer supplies for a filing; [fiscal_period] and
    [accession_number] are nullable as in the table and in the [Filing]
    interface of src/lib/supabase.ts. *)
Record FilingData := {
  data_filing_type : string;
  data_filing_date : string;
  data_fiscal_year : Z;
  data_fiscal_period : option string;
  data_accession_number : option string;
  data_source_url : string
}.

Definition filing_row (pk : uuid) (now : timestamptz) (company : option uuid)
    (d : FilingData) : Filing :=
  {| filing_pk := pk;
     company_id := company;
     filing_type := data_filing_type d;
     filing_date := data_filing_date d;
     fiscal_year := data_fiscal_year d;
     fiscal_period := data_fiscal_period d;
     accession_number := data_accession_number d;
     source_url := data_source_url d;
     filing_created_at := Some now |}.

(** [INSERT INTO filings (...) VALUES (...)]: the row enters the table
    when the foreign key and the UNIQUE constraint accept it, with a fresh
    primary key and [created_at DEFAULT NOW()]; [None] is the statement's
    failure. *)
Definition insert_filing (now : timestamptz) (company : option uuid)
    (d : FilingData) (s : Store) : option Store :=
  let new := filing_row (next_uuid s) now company d in
  if from_option (company_exists s) true company
     && negb (existsb (fun old => filing_conflict old new) (filings s))
  then Some {| companies := companies s;
               filings := filings s ++ [new];
               financial_metrics := financial_metrics s;
               risk_keywords := risk_keywords s;
               next_uuid := S (next_uuid s) |}
  else None.

(** Modelled from the spec: [upsert_filing(Filing) -> filing_id] of the
    missing scripts/ingest_filings.py, "keyed by the uniqueness
    invariants": an insertion that the UNIQUE constraint of the [filings]
    table turns into an update of the conflicting row.  [None] is a
    foreign-key violation. *)
Definition upsert_filing (now : timestamptz) (company : uuid) (d : FilingData)
    (s : Store) : option (uuid * Store) :=
  if company_exists s company then
    let new := filing_row (next_uuid s) now (Some company) d in
    match conflicting filing_conflict new (filings s) with
    | Some old =>
        Some (filing_pk old,
              {| companies := companies s;
                 filings := update_conflicting filing_conflict merge_filing new (filings s);
                 financial_metrics := financial_metrics s;
                 risk_keywords := risk_keywords s;
                 next_uuid := next_uuid s |})
    | None =>
        Some (next_uuid s,
              {| companies := companies s;
                 filings := filings s ++ [new];
                 financial_metrics := financial_metrics s;
                 risk_keywords := risk_keywords s;
                 next_uuid := S (next_uuid s) |})
    end
  else None.

Definition metric_row (pk : uuid) (now : timestamptz) (filing : uuid)
    (name : string) (value : option Z) (u : string) : FinancialMetric :=
  {| metric_pk := pk;
     metric_filing_id := Some filing;
     metric_name := name;
     metric_value := value;
     unit := Some u;
     metric_created_at := Some now |}.

(** Modelled from the spec: [upsert_metric(filing_id, metric_name,
    value_or_null, unit)] of the missing scripts/ingest_filings.py. *)
Definition upsert_metric (now : timestamptz) (filing : uuid) (name : string)
    (value : option Z) (u : string) (s : Store) : option Store :=
  if filing_exists s filing then
    let new := metric_row (next_uuid s) now filing name value u in
    match conflicting metric_conflict new (financial_metrics s) with
    | Some _ =>
        Some {| companies := companies s;
                filings := filings s;
                financial_metrics :=
                  update_conflicting metric_conflict merge_metric new (financial_metrics s);
                risk_keywords := risk_keywords s;
                next_uuid := next_uuid s |}
    | None =>
        Some {| companies := companies s;
                filings := filings s;
                financial_metrics := financial_metrics s ++ [new];
                risk_keywords := risk_keywords s;
                next_uuid := S (next_uuid s) |}
    end
  else None.

Definition keyword_row (pk : uuid) (now : timestamptz) (filing : uuid)
    (kw : string) (freq : Z) (sec : string) (snippet : option string) : RiskKeyword :=
  {| keyword_pk := pk;
     keyword_filing_id := Some filing;
     keyword := kw;
     frequency := Some freq;
     section := Some sec;
     context_snippet := snippet;
     keyword_created_at := Some now |}.

(** Modelled from the spec: [upsert_keyword(filing_id, keyword, frequency,
    section, snippet_or_null)] of the missing scripts/ingest_filings.py. *)
Definition upsert_keyword (now : timestamptz) (filing : uuid) (kw : string)
    (freq : Z) (sec : string) (snippet : option string) (s : Store) : option Store :=
  if filing_exists s filing then
    let new := keyword_row (next_uuid s) now filing kw freq sec snippet in
    match conflicting keyword_conflict new (risk_keywords s) with
    | Some _ =>
        Some {| companies := companies s;
                filings := filings s;
                financial_metrics := financial_metrics s;
                risk_keywords :=
                  update_conflicting keyword_conflict merge_keyword new (risk_keywords s);
                next_uuid := next_uuid s |}
    | None =>
        Some {| companies := companies s;
                filings := filings s;
                financial_metrics := financial_metrics s;
                risk_keywords := risk_keywords s ++ [new];
                next_uuid := S (next_uuid s) |}
    end
  else None.

(** ** The ingestion orchestrator (section 4.5) *)

(** Modelled from the spec: what fetching and parsing one filing's document
    came to in the missing scripts/ingest_filings.py (sections 4.1 and 7). *)
Inductive Outcome :=
| FetchError
| ParseError
| Parsed (d : Document).

(** Modelled from the spec: a filing of the set a run works on: its
    descriptor from the registry and its document. *)
Record Job := {
  job_filing : FilingData;
  job_outcome : Outcome
}.

(** Modelled from the spec: the terminal states of a filing (section 4.5).
    [store_failed] is a constraint violation reported by the database, which
    rolls the filing's writes back; the state machine of the specification
    has no name for it. *)
Inductive Terminal := stored | parse_failed | fetch_failed | store_failed.

(** Modelled from the spec: the writes of one filing, stopped by the first
    failure. *)
Fixpoint write_all {A} (write : A -> Store -> option Store) (xs : list A)
    (s : Store) : option Store :=
  match xs with
  | [] => Some s
  | x :: xs' => write x s ≫= write_all write xs'
  end.

(** Modelled from the spec: an extracted metric written under its filing,
    the unit normalized to USD. *)
Definition write_metric (now : timestamptz) (filing : uuid)
    (m : string * option Z) : Store -> option Store :=
  upsert_metric now filing (fst m) (snd m) DEFAULT_UNIT.

(** Modelled from the spec: a keyword hit written under its filing and the
    risk-factor section. *)
Definition write_keyword (now : timestamptz) (filing : uuid)
    (h : KeywordHit) : Store -> option Store :=
  upsert_keyword now filing (hit_keyword h) (Z.of_nat (hit_frequency h))
    DEFAULT_SECTION (hit_snippet h).

(** Modelled from the spec: the storage step of one filing in the missing
    scripts/ingest_filings.py: the filing row, one metric row per tracked
    metric (null when nothing was found) and one keyword row per hit,
    written together or not at all. *)
Definition store_results (now : timestamptz) (cfg : Config) (company : uuid)
    (data : FilingData) (d : Document) (s : Store) : option (uuid * Store) :=
  '(filing, s1) ← upsert_filing now company data s;
  s2 ← write_all (write_metric now filing) (extract_metrics cfg d) s1;
  s3 ← write_all (write_keyword now filing) (scan_keywords cfg d) s2;
  Some (filing, s3).

(** Modelled from the spec: one filing through the orchestrator of the
    missing scripts/ingest_filings.py; a failed filing leaves the store as
    it was. *)
Definition process_filing (now : timestamptz) (cfg : Config) (company : uuid)
    (job : Job) (s : Store) : Store * Terminal :=
  match job_outcome job with
  | FetchError => (s, fetch_failed)
  | ParseError => (s, parse_failed)
  | Parsed d =>
      match store_results now cfg company (job_filing job) d s with
      | Some (_, s') => (s', stored)
      | None => (s, store_failed)
      end
  end.

(** Modelled from the spec: the filings of one company, one after the
    other; a failed filing does not stop the next. *)
Fixpoint process_filings (now : timestamptz) (cfg : Config) (company : uuid)
    (jobs : list Job) (s : Store) : Store * list Terminal :=
  match jobs with
  | [] => (s, [])
  | job :: jobs' =>
      let '(s1, t) := process_filing now cfg company job s in
      let '(s2, ts) := process_filings now cfg company jobs' s1 in
      (s2, t :: ts)
  end.

(** Modelled from the spec: the per-company loop of the orchestrator. *)
Fixpoint process_companies (now : timestamptz) (cfg : Config)
    (fetch : Company -> list Job) (cs : list Company) (s : Store)
    : Store * list Terminal :=
  match cs with
  | [] => (s, [])
  | c :: cs' =>
      let '(s1, ts1) := process_filings now cfg (company_pk c) (fetch c) s in
      let '(s2, ts2) := process_companies now cfg fetch cs' s1 in
      (s2, (ts1 ++ ts2)%list)
  end.

(** Modelled from the spec: a run of the orchestrator of the missing
    scripts/ingest_filings.py over the tracked companies; [fetch] is what
    the registry and the parser deliver for each company during the run. *)
Definition run_orchestrator (now : timestamptz) (cfg : Config)
    (fetch : Company -> list Job) (s : Store) : Store * list Terminal :=
  process_companies now cfg fetch (companies s) s.

(** The seed data of sql/schema.sql: companies only. *)
Definition seeded (cs : list Company) : Store :=
  {| companies := cs;
     filings := [];
     financial_metrics := [];
     risk_keywords := [];
     next_uuid := 0%nat |}.

(** Modelled from the spec: the storage states the pipeline reaches: the
    seeded store and whatever runs of the orchestrator make of it. *)
Inductive reachable (cfg : Config) : Store -> Prop :=
| reachable_seeded cs : reachable cfg (seeded cs)
| reachable_run now fetch s :
    reachable cfg s -> reachable cfg (fst (run_orchestrator now cfg fetch s)).

(** ** What the constraints are meant to keep *)

(** The key of a row under its table's UNIQUE constraint, when none of the
    constrained columns is NULL. *)
Definition filing_ukey (f : Filing) : option (uuid * string * Z * string) :=
  c ← company_id f; p ← fiscal_period f; Some (c, filing_type f, fiscal_year f, p).

Definition metric_ukey (m : FinancialMetric) : option (uuid * string) :=
  f ← metric_filing_id m; Some (f, metric_name m).

Definition keyword_ukey (k : RiskKeyword) : option (uuid * string * string) :=
  f ← keyword_filing_id k; sec ← section k; Some (f, keyword k, sec).

Definition metric_valid (s : Store) (m : FinancialMetric) : Prop :=
  (∃ f, metric_filing_id m = Some f ∧ filing_exists s f = true)
  ∧ metric_name m ∈ TRACKED_METRICS.

Definition keyword_valid (s : Store) (k : RiskKeyword) : Prop :=
  (∃ f, keyword_filing_id k = Some f ∧ filing_exists s f = true)
  ∧ section k = Some DEFAULT_SECTION
  ∧ (∃ n, frequency k = Some n ∧ 0 <= n)
  ∧ keyword k ∈ TRACKED_KEYWORDS.

Record store_ok (s : Store) : Prop := {
  filing_pks_unique : NoDup (filing_pk <$> filings s);
  filing_pks_fresh : ∀ i, i ∈ filing_pk <$> filings s → (i < next_uuid s)%nat;
  filings_unique : NoDup (omap filing_ukey (filings s));
  metrics_unique : NoDup (omap metric_ukey (financial_metrics s));
  metrics_valid : ∀ m, m ∈ financial_metrics s → metric_valid s m;
  keywords_unique : NoDup (omap keyword_ukey (risk_keywords s));
  keywords_valid : ∀ k, k ∈ risk_keywords s → keyword_valid s k
}.

(** What the writes of a filing's metrics and keywords leave alone. *)
Definition kept (s0 s : Store) : Prop :=
  store_ok s ∧ filings s = filings s0 ∧ companies s = companies s0.

(** ** A filing set, and a store that already holds what a filing writes *)









(** ** The filings of the specification *)








End Storage.

(* ===================================================================== *)
(** * Js: the numbers, their texts and the sort of the language *)
(* ===================================================================== *)

Module Js.

(** ** Numbers *)

(** A Number is an IEEE 754 binary64 value.  [spec_float] and its
    operations are the Standard Library's specification of the format: 53
    bits of precision, exponents up to 1024, every result rounded to the
    nearest value, a tie to the one with an even significand. *)
Definition number : Type := spec_float.

Definition prec : Z := 53.
Definition emax : Z := 1024.

(** [x - y], [x * y], [x / y] and [Math.abs(x)] *)
Definition minus (x y : number) : number := SFsub prec emax x y.
Definition times (x y : number) : number := SFmul prec emax x y.
Definition over (x y : number) : number := SFdiv prec emax x y.
Definition abs (x : number) : number := SFabs x.

(** [x >= y] and [x === 0]: false when a side is NaN; the two zeros are
    equal. *)
Definition geq (x y : number) : bool := SFleb y x.
Definition isZero (x : number) : bool := SFeqb x (S754_zero false).

(** A number as a condition: the zeros and NaN are falsy. *)
Definition truthy (x : number) : bool :=
  match x with
  | S754_zero _ | S754_nan => false
  | _ => true
  end.

(** The Number of an integer, as a literal such as [100] or [1e9] and the
    digits of a JSON text denote it: the nearest one. *)
Definition ofZ (n : Z) : number := binary_normalize prec emax n 0 false.

(** The real number a finite Number stands for; 0 for the others. *)
Definition value (x : number) : Q :=
  match x with
  | S754_finite s m e =>
      ((if s then -1 else 1) * inject_Z (Zpos m) * 2 ^ e)%Q
  | _ => 0%Q
  end.

(** ** Numbers as text *)

(** The decimal digits of a natural number. *)
Definition decimal (n : Z) : string := NilZero.string_of_uint (N.to_uint (Z.to_N n)).

Definition zeros (n : nat) : string := String.concat "" (replicate n "0").

(** [padStart(width, '0')] *)
Definition padStart (width : nat) (s : string) : string :=
  zeros (width - String.length s) +:+ s.

(** The reals that round to a finite Number: the ends of the interval and
    whether they belong to it.  The interval ends halfway to the
    neighbours; the lower neighbour of a power of two is half as far away
    as the upper one. *)
Definition roundsTo (x : number) : Q * Q * bool :=
  match x with
  | S754_finite _ m e =>
      let v := (inject_Z (Zpos m) * 2 ^ e)%Q in
      let above := (2 ^ (e - 1))%Q in
      let below :=
        if Pos.eqb m (2 ^ 52) && (emin prec emax <? e)
        then (2 ^ (e - 2))%Q else (2 ^ (e - 1))%Q in
      ((v - below)%Q, (v + above)%Q, Z.even (Zpos m))
  | _ => (0%Q, 0%Q, true)
  end.

Definition inside (bounds : Q * Q * bool) (r : Q) : bool :=
  let '(low, high, closed) := bounds in
  if closed then Qle_bool low r && Qle_bool r high
  else negb (Qle_bool r low) && negb (Qle_bool high r).

(** The [n] with [10 ^ (n - 1) <= v < 10 ^ n], for a positive [v]. *)
Fixpoint places (fuel : nat) (a b : Z) : Z :=
  match fuel with
  | O => 0
  | S fuel' => if b <=? a then 0 else 1 + places fuel' (10 * a) b
  end.

Definition exponent10 (v : Q) : Z :=
  let a := Qnum v in
  let b := Zpos (Qden v) in
  if b <=? a then Z.of_nat (String.length (decimal (a / b)))
  else 1 - places 400 a b.

(** The multiple of [unit] that is next to [v] among those that round to
    the number: of the two around [v] the nearer one, the even one when
    they are as near. *)
Definition nearest (bounds : Q * Q * bool) (v unit : Q) : option Z :=
  let q := (v / unit)%Q in
  let f := Qfloor q in
  let c := Qceiling q in
  match inside bounds (inject_Z f * unit)%Q, inside bounds (inject_Z c * unit)%Q with
  | true, true =>
      match (q - inject_Z f ?= inject_Z c - q)%Q with
      | Lt => Some f
      | Gt => Some c
      | Eq => Some (if Z.even f then f else c)
      end
  | true, false => Some f
  | false, true => Some c
  | false, false => None
  end.

(** The digits [s] and the exponent [n] of [Number::toString]: the fewest
    digits [k] such that [s * 10 ^ (n - k)] rounds to the number, and with
    them the nearest such [s]. *)
Fixpoint shortest (bounds : Q * Q * bool) (v : Q) (n : Z) (ks : list nat) : option (Z * Z) :=
  match ks with
  | [] => None
  | k :: ks' =>
      match nearest bounds v (10 ^ (n - Z.of_nat k))%Q with
      | Some s => Some (if s =? 10 ^ Z.of_nat k then (1, n + 1) else (s, n))
      | None => shortest bounds v n ks'
      end
  end.

Definition digits (x : number) : Z * Z :=
  let v := Qabs (value x) in
  let n := exponent10 v in
  match shortest (roundsTo x) v n (seq 1 17) with
  | Some sn => sn
  | None => (Qfloor (v / 10 ^ (n - 17) + (1 # 2))%Q, n)
  end.

(** The text of [Number::toString] for the digits [s] and the exponent
    [n]: positional from 1e-6 up to 1e21, with an exponent elsewhere. *)
Definition positional (s n : Z) : string :=
  let ds := decimal s in
  let k := Z.of_nat (String.length ds) in
  if (-6 <? n) && (n <=? 21) then
    if k <=? n then ds +:+ zeros (Z.to_nat (n - k))
    else if 0 <? n
    then substring 0 (Z.to_nat n) ds +:+ "." +:+ substring (Z.to_nat n) (Z.to_nat (k - n)) ds
    else "0." +:+ zeros (Z.to_nat (- n)) +:+ ds
  else
    let e := n - 1 in
    let exponent := "e" +:+ (if e <? 0 then "-" else "+") +:+ decimal (Z.abs e) in
    match ds with
    | String d EmptyString => ds +:+ exponent
    | String d rest => String d "." +:+ rest +:+ exponent
    | EmptyString => exponent
    end.

(** [Number.prototype.toString()], and a number in a template literal. *)
Definition toString (x : number) : string :=
  match x with
  | S754_nan => "NaN"
  | S754_zero _ => "0"
  | S754_infinity s => (if s then "-" else "") +:+ "Infinity"
  | S754_finite s _ _ =>
      let '(ds, n) := digits x in
      (if s then "-" else "") +:+ positional ds n
  end.

(** [Number.prototype.toFixed(digits)] on the real a number stands for,
    below 1e21: the sign, then the nearest multiple of [10 ^ -digits] to
    the magnitude, the larger one on a tie, in positional notation. *)
Definition fixed (fractionDigits : nat) (v : Q) : string :=
  let unit := 10 ^ Z.of_nat fractionDigits in
  let n := Qfloor (Qabs v * inject_Z unit + (1 # 2))%Q in
  (if Qlt_le_dec v 0%Q then "-" else "")
  +:+ decimal (n / unit)
  +:+ match fractionDigits with
      | O => ""
      | S _ => "." +:+ padStart fractionDigits (decimal (n mod unit))
      end.

(** [Number.prototype.toFixed(digits)]: the text of [toString] for NaN, the
    infinities and the magnitudes from 1e21 on. *)
Definition toFixed (fractionDigits : nat) (x : number) : string :=
  match x with
  | S754_nan | S754_infinity _ => toString x
  | _ =>
      if Qle_bool (inject_Z (10 ^ 21)) (Qabs (value x)) then toString x
      else fixed fractionDigits (value x)
  end.

(** ** Division *)

(** What a computation comes to: the value it returns, or a division whose
    divisor is a zero. *)
Inductive Result (A : Type) :=
| Returns (a : A)
| DividesByZero.
Arguments Returns {A} a.
Arguments DividesByZero {A}.

Definition divide (a b : number) : Result number :=
  if isZero b then DividesByZero else Returns (over a b).

(** ** Sorting *)

(** [[...xs].sort((a, b) => key(a) - key(b))]: a sorted copy.  The sort of
    the language is stable, and for such a comparator a stable sort has one
    result, whatever its algorithm: the one of this insertion sort, which
    puts an element before the first one that is not smaller. *)
Fixpoint insertBy {A} (key : A -> Z) (x : A) (xs : list A) : list A :=
  match xs with
  | [] => [x]
  | y :: xs' =>
      if bool_decide (key x - key y <= 0) then x :: xs else y :: insertBy key x xs'
  end.

Definition sortBy {A} (key : A -> Z) (xs : list A) : list A :=
  foldr (insertBy key) [] xs.

(** ** The profit margin *)

(** The profit margin every view computes:
    [revenue && netIncome ? (netIncome / revenue) * 100 : null], where
    null, undefined, the zeros and NaN are falsy. *)
Definition profitMargin (revenue netIncome : option number) : option number :=
  match revenue, netIncome with
  | Some revenue, Some netIncome =>
      if truthy revenue && truthy netIncome
      then Some (times (over netIncome revenue) (ofZ 100))
      else None
  | _, _ => None
  end.

End Js.

(* ===================================================================== *)
(** * Frontend: page assembly and card helpers *)
(* ===================================================================== *)

Module Frontend.
Import Schema Text Js.

(** ** What the database client answers *)

(** The [{ data, error }] pairs of the queries the two pages send; [data]
    is [None] for JavaScript's null.  The client is a library, so the
    pages are modelled for every answer it can give. *)
Record Supabase := {
  (** [from('companies').select('*').order('ticker')] *)
  companies_by_ticker : option (list Company) * bool;
  (** [from('companies').select('*').ilike('ticker', t).single()] *)
  company_like : string -> option Company * bool;
  (** [from('filings').select('*').eq('company_id', c).order('fiscal_year',
      { ascending })] *)
  filings_of : uuid -> bool -> option (list Filing);
  (** [from('financial_metrics').select('*').eq('filing_id', f)] *)
  metrics_of : uuid -> option (list FinancialMetric);
  (** [from('risk_keywords').select('*').eq('filing_id', f)] *)
  keywords_of : uuid -> option (list RiskKeyword)
}.

(** [x || []] *)
Definition or_empty {A} (x : option (list A)) : list A := default [] x.

(** [const metricsMap: Record<string, number | null> = {}] filled by
    [metrics.forEach((m) => { metricsMap[m.metric_name] = m.metric_value })].
    A missing property reads as undefined: the outer [None]. *)
Definition metricsMap (metrics : list FinancialMetric) : gmap string (option Z) :=
  fold_left (fun acc m => <[metric_name m := metric_value m]> acc) metrics ∅.

(** [metricsMap[name] || null]: undefined, null and the number 0 are
    falsy. *)
Definition or_null (v : option (option Z)) : option Z :=
  match v with
  | Some (Some n) => if bool_decide (n = 0) then None else Some n
  | Some None => None
  | None => None
  end.

(** ** src/app/page.tsx *)

(** The object [{ ...filing, total_revenue, net_income, total_assets,
    risk_keywords }]. *)
Record HomeFiling := {
  home_row : Filing;
  home_total_revenue : option Z;
  home_net_income : option Z;
  home_total_assets : option Z;
  home_risk_keywords : list string
}.

Record HomeCompany := {
  home_company : Company;
  home_filings : list HomeFiling
}.

Definition homeFilingWithData (db : Supabase) (filing : Filing) : HomeFiling :=
  let metrics := metrics_of db (filing_pk filing) in
  let keywords := keywords_of db (filing_pk filing) in
  let metricsMap := metricsMap (or_empty metrics) in
  {| home_row := filing;
     home_total_revenue := or_null (metricsMap !! "revenue");
     home_net_income := or_null (metricsMap !! "net_income");
     home_total_assets := or_null (metricsMap !! "total_assets");
     home_risk_keywords := keyword <$> or_empty keywords |}.

Definition getCompaniesWithFilings (db : Supabase) : list HomeCompany :=
  let '(companies, companiesError) := companies_by_ticker db in
  if companiesError then []
  else
    (fun company =>
       let filings := filings_of db (company_pk company) false in
       {| home_company := company;
          home_filings := homeFilingWithData db <$> or_empty filings |})
    <$> or_empty companies.

(** ** src/app/company/[ticker]/page.tsx *)

(** The object [{ ...filing, total_revenue, net_income, total_assets,
    total_liabilities, risk_keywords, filing_url }]. *)
Record PageFiling := {
  page_row : Filing;
  page_total_revenue : option Z;
  page_net_income : option Z;
  page_total_assets : option Z;
  page_total_liabilities : option Z;
  page_risk_keywords : list string;
  page_filing_url : string
}.

Record PageCompany := {
  page_company : Company;
  page_filings : list PageFiling
}.

Definition pageFilingWithData (db : Supabase) (filing : Filing) : PageFiling :=
  let metrics := metrics_of db (filing_pk filing) in
  let keywords := keywords_of db (filing_pk filing) in
  let metricsMap := metricsMap (or_empty metrics) in
  {| page_row := filing;
     page_total_revenue := or_null (metricsMap !! "revenue");
     page_net_income := or_null (metricsMap !! "net_income");
     page_total_assets := or_null (metricsMap !! "total_assets");
     page_total_liabilities := or_null (metricsMap !! "total_liabilities");
     page_risk_keywords := keyword <$> or_empty keywords;
     page_filing_url := source_url filing |}.

Definition getCompanyByTicker (db : Supabase) (ticker : string) : option PageCompany :=
  match company_like db ticker with
  | (Some company, false) =>
      let filings := filings_of db (company_pk company) true in
      Some {| page_company := company;
              page_filings := pageFilingWithData db <$> or_empty filings |}
  | _ => None
  end.

(** The same answers, with every stored metric value 0 read as NULL. *)
Definition zero_as_null (m : FinancialMetric) : FinancialMetric :=
  {| metric_pk := metric_pk m;
     metric_filing_id := metric_filing_id m;
     metric_name := metric_name m;
     metric_value := or_null (Some (metric_value m));
     unit := unit m;
     metric_created_at := metric_created_at m |}.

Definition zeros_as_nulls (db : Supabase) : Supabase :=
  {| companies_by_ticker := companies_by_ticker db;
     company_like := company_like db;
     filings_of := filings_of db;
     metrics_of := fun f => option_map (List.map zero_as_null) (metrics_of db f);
     keywords_of := keywords_of db |}.

(** ** src/components/Dashboard.tsx (and the earlier CompanyCard.tsx) *)

(** [interface Filing] of Dashboard.tsx; the three figures are [number |
    null]. *)
Record CardFiling := {
  id : uuid;
  fiscal_year : Z;
  filing_date : string;
  total_revenue : option number;
  net_income : option number;
  total_assets : option number;
  risk_keywords : list string;
  filing_url : option string
}.

(** [Array.prototype.reduce] without an initial value: the result, and the
    array after the call; [reduce] reads the array and writes nothing.
    On an empty array it throws, here [None]. *)
Definition reduce {A} (f : A -> A -> A) (xs : list A) : option A * list A :=
  (match xs with
   | [] => None
   | x :: xs' => Some (fold_left f xs' x)
   end, xs).

Definition later (latest current : CardFiling) : CardFiling :=
  if bool_decide (fiscal_year latest < fiscal_year current) then current else latest.

(** [getLatestFiling(filings?: Filing[]): Filing | null]; the second
    component is the argument array after the call. *)
Definition getLatestFiling (filings : option (list CardFiling))
    : option CardFiling * option (list CardFiling) :=
  match filings with
  | None => (None, None)
  | Some xs =>
      if bool_decide (length xs = 0%nat) then (None, Some xs)
      else let '(r, xs') := reduce later xs in (r, Some xs')
  end.

(** [interface Company] of Dashboard.tsx. *)
Record CardCompany := {
  card_id : uuid;
  card_ticker : string;
  card_name : string;
  card_sector : option string;
  card_cik : string;
  card_filings : option (list CardFiling)
}.

(** The updater of [handleSelectForComparison]: the next selection from the
    previous one. *)
Definition handleSelectForComparison (company : CardCompany) (prev : list CardCompany)
    : list CardCompany :=
  let isSelected := existsb (fun c => bool_decide (card_id c = card_id company)) prev in
  if isSelected then filter (fun c => card_id c ≠ card_id company) prev
  else prev ++ [company].

(** [companies.reduce((acc, c) => acc + (c.filings?.length || 0), 0)] *)
Definition totalFilings (companies : list CardCompany) : nat :=
  fold_left (fun acc c => (acc + length (or_empty (card_filings c)))%nat) companies 0%nat.

(** [companies.filter((c) => c.filings && c.filings.length > 0).length] *)
Definition companiesWithData (companies : list CardCompany) : nat :=
  length (filter (fun c => or_empty (card_filings c) ≠ []) companies).

(** ** src/components/RiskKeywords.tsx *)

Inductive Severity := high | medium | low.

(** [const severityMap], in the order of its keys. *)
Definition severityMap : list (string * Severity) :=
  [ ("cybersecurity", high);
    ("cyber", high);
    ("litigation", high);
    ("lawsuit", high);
    ("regulatory", high);
    ("compliance", medium);
    ("competition", medium);
    ("market", low);
    ("economic", medium);
    ("supply chain", high);
    ("inflation", medium);
    ("interest rate", medium);
    ("currency", low);
    ("talent", low);
    ("pandemic", high);
    ("climate", medium);
    ("geopolitical", high);
    ("default", low) ].

(** [getSeverity(keyword)]: the severity of the first key, in the order of
    [Object.entries], that the lower-cased keyword includes. *)
Definition getSeverity (keyword : string) : Severity :=
  let lowerKeyword := lower keyword in
  match List.find (fun entry => occurs (fst entry) lowerKeyword) severityMap with
  | Some (_, severity) => severity
  | None => low
  end.

(** ** src/components/CompanyCard.tsx *)

Definition year_le (a b : CardFiling) : Prop := fiscal_year a <= fiscal_year b.

(** [getSortedFilings(filings?: Filing[]): Filing[]]:
    [[...filings].sort((a, b) => a.fiscal_year - b.fiscal_year)], a sorted
    copy. *)
Definition getSortedFilings (filings : option (list CardFiling)) : list CardFiling :=
  match filings with
  | None => []
  | Some xs => if bool_decide (length xs = 0%nat) then [] else sortBy fiscal_year xs
  end.

(** [sortedFilings[sortedFilings.length - 1] || null] *)
Definition latestFiling (filings : option (list CardFiling)) : option CardFiling :=
  last (getSortedFilings filings).

(** [calculateGrowth(current: number | null, previous: number | null):
    string | null]. *)
Definition calculateGrowth (current previous : option number) : Result (option string) :=
  match current, previous with
  | Some current, Some previous =>
      if isZero previous then Returns None
      else
        match divide (minus current previous) (abs previous) with
        | Returns ratio =>
            let growth := times ratio (ofZ 100) in
            Returns (Some (toFixed 1 growth))
        | DividesByZero => DividesByZero
        end
  | _, _ => Returns None
  end.

(** [const revenueGrowth] of the detail views (Dashboard.tsx and
    company/[ticker]/page.tsx): both revenues must be truthy, that is
    neither null nor undefined ([None]) nor a zero nor NaN, and the divisor
    is the previous revenue itself. *)
Definition revenueGrowth (latest previous : option number) : Result (option string) :=
  match latest, previous with
  | Some latest, Some previous =>
      if truthy latest && truthy previous
      then match divide (minus latest previous) previous with
           | Returns ratio => Returns (Some (toFixed 1 (times ratio (ofZ 100))))
           | DividesByZero => DividesByZero
           end
      else Returns None
  | _, _ => Returns None
  end.

End Frontend.

(* ===================================================================== *)
(** * Views: the view controller of src/components/Dashboard.tsx *)
(* ===================================================================== *)

Module Views.
Import Schema Text Frontend Js.

(** ** Search *)

(** The search is modelled on texts of ASCII characters.  On such a text
    [toLowerCase] is [lower], and the white space and line terminators
    that [trim] cuts are tab, line feed, vertical tab, form feed, carriage
    return and space. *)
Fixpoint isAscii (s : string) : bool :=
  match s with
  | EmptyString => true
  | String c s' => (nat_of_ascii c <? 128)%nat && isAscii s'
  end.

(** [String.prototype.trim] on a text of ASCII characters. *)
Fixpoint trimStart (s : string) : string :=
  match s with
  | EmptyString => EmptyString
  | String c s' => if Ascii.is_space c then trimStart s' else s
  end.

Fixpoint trimEnd (s : string) : string :=
  match s with
  | EmptyString => EmptyString
  | String c s' =>
      match trimEnd s' with
      | EmptyString => if Ascii.is_space c then EmptyString else String c EmptyString
      | t => String c t
      end
  end.

Definition trim (s : string) : string := trimEnd (trimStart s).

(** The predicate of [companies.filter(...)] in [filteredCompanies];
    [toLowerCase] is [lower], [text.includes(query)] is [occurs query text],
    and [company.sector && ...] is false for a null or empty sector. *)
Definition matchesQuery (query : string) (company : CardCompany) : bool :=
  occurs query (lower (card_ticker company))
  || occurs query (lower (card_name company))
  || match card_sector company with
     | Some sector =>
         negb (bool_decide (sector = "")) && occurs query (lower sector)
     | None => false
     end.

(** A company whose ticker, name and sector are texts of ASCII
    characters. *)
Definition asciiCompany (company : CardCompany) : bool :=
  isAscii (card_ticker company) && isAscii (card_name company)
  && from_option isAscii true (card_sector company).

(** [const filteredCompanies = useMemo(...)]. *)
Definition filteredCompanies (companies : list CardCompany) (searchQuery : string)
    : list CardCompany :=
  if bool_decide (trim searchQuery = "") then companies
  else
    let query := trim (lower searchQuery) in
    filter (fun company => matchesQuery query company = true) companies.

(** ** State and handlers *)

Inductive View := grid | detail | compare.

#[global] Instance View_eq_dec : EqDecision View.
Proof. solve_decision. Defined.

(** The five [useState] cells of [Dashboard], and the number of
    [setTimeout] callbacks that [handleBack] has scheduled and that have
    not run yet. *)
Record State := {
  selectedCompany : option CardCompany;
  view : View;
  searchQuery : string;
  comparisonMode : bool;
  selectedForComparison : list CardCompany;
  timeouts : nat
}.

Definition initial : State :=
  {| selectedCompany := None;
     view := grid;
     searchQuery := "";
     comparisonMode := false;
     selectedForComparison := [];
     timeouts := 0%nat |}.

(** [setSearchQuery(e.target.value)] and [setSearchQuery('')]. *)
Definition setSearchQuery (q : string) (s : State) : State :=
  {| selectedCompany := selectedCompany s;
     view := view s;
     searchQuery := q;
     comparisonMode := comparisonMode s;
     selectedForComparison := selectedForComparison s;
     timeouts := timeouts s |}.

(** [handleCardClick]; scrolling the window leaves the state alone. *)
Definition handleCardClick (company : CardCompany) (s : State) : State :=
  {| selectedCompany := Some company;
     view := detail;
     searchQuery := searchQuery s;
     comparisonMode := comparisonMode s;
     selectedForComparison := selectedForComparison s;
     timeouts := timeouts s |}.

(** [handleBack]: out of the comparison at once; out of the detail view
    with [setTimeout(() => setSelectedCompany(null), 300)]. *)
Definition handleBack (s : State) : State :=
  if bool_decide (view s = compare) then
    {| selectedCompany := selectedCompany s;
       view := grid;
       searchQuery := searchQuery s;
       comparisonMode := false;
       selectedForComparison := [];
       timeouts := timeouts s |}
  else
    {| selectedCompany := selectedCompany s;
       view := grid;
       searchQuery := searchQuery s;
       comparisonMode := comparisonMode s;
       selectedForComparison := selectedForComparison s;
       timeouts := S (timeouts s) |}.

(** The callback [() => setSelectedCompany(null)] of a scheduled timeout. *)
Definition timeout (s : State) : State :=
  {| selectedCompany := None;
     view := view s;
     searchQuery := searchQuery s;
     comparisonMode := comparisonMode s;
     selectedForComparison := selectedForComparison s;
     timeouts := pred (timeouts s) |}.

(** [handleSelectForComparison] on the state: [setSelectedForComparison]
    with the updater of [Frontend]. *)
Definition onSelect (company : CardCompany) (s : State) : State :=
  {| selectedCompany := selectedCompany s;
     view := view s;
     searchQuery := searchQuery s;
     comparisonMode := comparisonMode s;
     selectedForComparison :=
       handleSelectForComparison company (selectedForComparison s);
     timeouts := timeouts s |}.

Definition handleToggleComparisonMode (s : State) : State :=
  if comparisonMode s then
    {| selectedCompany := selectedCompany s;
       view := view s;
       searchQuery := searchQuery s;
       comparisonMode := false;
       selectedForComparison := [];
       timeouts := timeouts s |}
  else
    {| selectedCompany := selectedCompany s;
       view := view s;
       searchQuery := searchQuery s;
       comparisonMode := true;
       selectedForComparison := selectedForComparison s;
       timeouts := timeouts s |}.

Definition handleStartComparison (s : State) : State :=
  if bool_decide (2 <= length (selectedForComparison s))%nat then
    {| selectedCompany := selectedCompany s;
       view := compare;
       searchQuery := searchQuery s;
       comparisonMode := comparisonMode s;
       selectedForComparison := selectedForComparison s;
       timeouts := timeouts s |}
  else s.

(** [handleRemoveFromComparison]: the length it tests is the one of the
    selection the handler was rendered with, before the removal. *)
Definition handleRemoveFromComparison (companyId : uuid) (s : State) : State :=
  {| selectedCompany := selectedCompany s;
     view := if bool_decide (length (selectedForComparison s) <= 2)%nat
             then grid else view s;
     searchQuery := searchQuery s;
     comparisonMode := comparisonMode s;
     selectedForComparison :=
       filter (fun c => card_id c ≠ companyId) (selectedForComparison s);
     timeouts := timeouts s |}.

(** [handleClick] and [handleCheckboxClick] of CompanyCard.tsx, over the
    props [selectable], [onSelect] and [onClick] of the card. *)
Definition handleClick (selectable : bool)
    (onSelect : option (CardCompany -> State -> State))
    (onClick : CardCompany -> State -> State) (company : CardCompany) (s : State) : State :=
  match selectable, onSelect with
  | true, Some onSelect => onSelect company s
  | _, _ => onClick company s
  end.

Definition handleCheckboxClick (onSelect : option (CardCompany -> State -> State))
    (company : CardCompany) (s : State) : State :=
  match onSelect with
  | Some onSelect => onSelect company s
  | None => s
  end.

(** ** What the page lets the user do *)

(** The handlers the rendered page is wired to.  The two export buttons
    download a file and leave the state alone; they are not listed. *)
Inductive Event :=
| TypeSearch (q : string)      (** the search box, and its two clear buttons with [""] *)
| ToggleCompare                (** the Compare / Cancel button *)
| ClickCard (company : CardCompany)
| ClickCheckbox (company : CardCompany)
| ClickPill (company : CardCompany)     (** a pill of the floating bar *)
| StartComparison              (** the Compare button of the floating bar *)
| Back
| RemovePill (company : CardCompany)    (** a pill of the comparison header *)
| Timeout.

(** When the element of an event is on the page: the grid block carries the
    class [hidden] outside the grid view, the floating bar is rendered for
    [comparisonMode && view === 'grid'], the header of the comparison for
    [view === 'compare'], the header of the detail view for a selected
    company in any other view but the grid, and a card shows its checkbox
    when it is [selectable]. *)
Definition enabled (companies : list CardCompany) (s : State) (e : Event) : Prop :=
  match e with
  | TypeSearch _ | ToggleCompare => view s = grid
  | ClickCard company =>
      view s = grid ∧ company ∈ filteredCompanies companies (searchQuery s)
  | ClickCheckbox company =>
      view s = grid ∧ comparisonMode s = true
      ∧ company ∈ filteredCompanies companies (searchQuery s)
  | ClickPill company =>
      view s = grid ∧ comparisonMode s = true ∧ company ∈ selectedForComparison s
  | StartComparison =>
      view s = grid ∧ comparisonMode s = true
      ∧ (2 <= length (selectedForComparison s))%nat
  | Back => view s = compare ∨ (view s = detail ∧ selectedCompany s ≠ None)
  | RemovePill company => view s = compare ∧ company ∈ selectedForComparison s
  | Timeout => (0 < timeouts s)%nat
  end.

(** The state after the handler of an event; a card is rendered with
    [selectable={comparisonMode}], [onSelect={handleSelectForComparison}]
    and [onClick={handleCardClick}]. *)
Definition handle (e : Event) (s : State) : State :=
  match e with
  | TypeSearch q => setSearchQuery q s
  | ToggleCompare => handleToggleComparisonMode s
  | ClickCard company =>
      handleClick (comparisonMode s) (Some onSelect) handleCardClick company s
  | ClickCheckbox company => handleCheckboxClick (Some onSelect) company s
  | ClickPill company => onSelect company s
  | StartComparison => handleStartComparison s
  | Back => handleBack s
  | RemovePill company => handleRemoveFromComparison (card_id company) s
  | Timeout => timeout s
  end.

(** The states a session reaches from the first render. *)
Inductive reachable (companies : list CardCompany) : State -> Prop :=
| reachable_initial : reachable companies initial
| reachable_handle s e :
    reachable companies s -> enabled companies s e -> reachable companies (handle e s).

(** The same when the user clicks no card while a timeout of [handleBack]
    is pending, that is within 300 ms of a click on Back. *)
Inductive reachable_unhurried (companies : list CardCompany) : State -> Prop :=
| unhurried_initial : reachable_unhurried companies initial
| unhurried_handle s e :
    reachable_unhurried companies s -> enabled companies s e ->
    (∀ company, e = ClickCard company -> timeouts s = 0%nat) ->
    reachable_unhurried companies (handle e s).

(** ** The detail view *)

(** [selectedCompany?.filings?.slice().sort((a, b) => a.fiscal_year -
    b.fiscal_year) || []] *)
Definition sortedFilings (selectedCompany : option CardCompany) : list CardFiling :=
  match selectedCompany ≫= card_filings with
  | Some filings => sortBy fiscal_year filings
  | None => []
  end.

(** [xs[xs.length - k]] for [k] of 1 or 2: undefined, here [None], when
    the index is negative. *)
Definition fromEnd {A} (xs : list A) (k : nat) : option A :=
  if bool_decide (k <= length xs)%nat then xs !! (length xs - k)%nat else None.

(** [const latestFiling], [const previousFiling] and [const revenueGrowth]
    of the detail view. *)
Definition detailLatestFiling (selectedCompany : option CardCompany) : option CardFiling :=
  fromEnd (sortedFilings selectedCompany) 1.

Definition detailPreviousFiling (selectedCompany : option CardCompany) : option CardFiling :=
  fromEnd (sortedFilings selectedCompany) 2.

Definition detailRevenueGrowth (selectedCompany : option CardCompany)
    : Result (option string) :=
  revenueGrowth (detailLatestFiling selectedCompany ≫= total_revenue)
    (detailPreviousFiling selectedCompany ≫= total_revenue).

(** A filing of the greatest fiscal year of a list. *)
Definition latest_in (xs : list CardFiling) (f : CardFiling) : Prop :=
  f ∈ xs ∧ ∀ g, g ∈ xs → fiscal_year g <= fiscal_year f.

(** ** src/components/CompanyCard.tsx *)

(** [sortedFilings[sortedFilings.length - 2] || null] *)
Definition previousFiling (filings : option (list CardFiling)) : option CardFiling :=
  fromEnd (getSortedFilings filings) 2.

(** [const revenueGrowth] and [const incomeGrowth] of the card:
    [calculateGrowth(latestFiling?.field ?? null, previousFiling?.field ??
    null)]. *)
Definition cardGrowth (field : CardFiling -> option number)
    (filings : option (list CardFiling)) : Result (option string) :=
  calculateGrowth (latestFiling filings ≫= field) (previousFiling filings ≫= field).

(** ** Formatting and export *)

(** [const COLORS] of Dashboard.tsx, "matching ComparisonChart". *)
Definition COLORS : list string :=
  [ "#3b82f6"; "#10b981"; "#f59e0b"; "#ef4444";
    "#8b5cf6"; "#ec4899"; "#06b6d4"; "#84cc16" ].

(** [COLORS[idx % COLORS.length]] of a pill and of a table header. *)
Definition backgroundColor (idx : nat) : option string :=
  COLORS !! (idx mod length COLORS)%nat.

Section Locale.
(** [Number.prototype.toLocaleString()] is the host's and depends on its
    locale; the formatter is modelled for any. *)
Variable toLocaleString : number -> string.

(** [formatCurrency] of Dashboard.tsx. *)
Definition formatCurrency (value : option number) : string :=
  match value with
  | None => "N/A"
  | Some value =>
      if geq (abs value) (ofZ (10 ^ 9))
      then "$" +:+ toFixed 2 (over value (ofZ (10 ^ 9))) +:+ "B"
      else if geq (abs value) (ofZ (10 ^ 6))
      then "$" +:+ toFixed 2 (over value (ofZ (10 ^ 6))) +:+ "M"
      else "$" +:+ toLocaleString value
  end.

End Locale.

(** [formatCSVValue] of Dashboard.tsx. *)
Definition formatCSVValue (value : option number) : string :=
  match value with
  | None => ""
  | Some value => toString value
  end.

(** [getLatestFiling(c.filings)] *)
Definition latestOf (c : CardCompany) : option CardFiling :=
  fst (getLatestFiling (card_filings c)).

(** [[headers, ...rows]] of [handleExportComparison]. *)
Definition comparisonTable (selected : list CardCompany) : list (list string) :=
  [ "Metric" :: (card_ticker <$> selected);
    "Company Name" :: (card_name <$> selected);
    "Sector" :: ((fun c => default "" (card_sector c)) <$> selected);
    "Fiscal Year"
      :: ((fun c => match latestOf c with
                    | Some latest => "FY " +:+ toString (ofZ (fiscal_year latest))
                    | None => ""
                    end) <$> selected);
    "Revenue" :: ((fun c => formatCSVValue (latestOf c ≫= total_revenue)) <$> selected);
    "Net Income" :: ((fun c => formatCSVValue (latestOf c ≫= net_income)) <$> selected);
    "Total Assets" :: ((fun c => formatCSVValue (latestOf c ≫= total_assets)) <$> selected);
    "Profit Margin %"
      :: ((fun c => match profitMargin (latestOf c ≫= total_revenue)
                            (latestOf c ≫= net_income) with
                    | Some margin => toFixed 2 margin
                    | None => ""
                    end) <$> selected) ].

(** [[headers, ...rows]] of [handleExportCompanyFilings]. *)
Definition filingsTable (selectedCompany : option CardCompany) : list (list string) :=
  [ "Fiscal Year"; "Filing Date"; "Revenue"; "Net Income"; "Total Assets";
    "Profit Margin %" ]
  :: ((fun filing =>
         [ toString (ofZ (fiscal_year filing));
           filing_date filing;
           formatCSVValue (total_revenue filing);
           formatCSVValue (net_income filing);
           formatCSVValue (total_assets filing);
           match profitMargin (total_revenue filing) (net_income filing) with
           | Some margin => toFixed 2 margin
           | None => ""
           end ]) <$> sortedFilings selectedCompany).

(** [table.map(row => row.map(cell => `"${cell}"`).join(',')).join('\n')] *)
Definition csvContent (table : list (list string)) : string :=
  let quote := String (ascii_of_nat 34) "" in
  let newline := String (ascii_of_nat 10) "" in
  String.concat newline
    ((fun row => String.concat "," ((fun cell => quote +:+ cell +:+ quote) <$> row))
     <$> table).

(** What [handleExportComparison] hands to [downloadCSV]: the file name and
    the content; [today] is [new Date().toISOString().split('T')[0]]. *)
Definition handleExportComparison (today : string) (s : State) : string * string :=
  let tickers := String.concat "_" (card_ticker <$> selectedForComparison s) in
  ("comparison_" +:+ tickers +:+ "_" +:+ today +:+ ".csv",
   csvContent (comparisonTable (selectedForComparison s))).

(** The same for [handleExportCompanyFilings], which returns at once
    without a selected company. *)
Definition handleExportCompanyFilings (today : string) (s : State) : option (string * string) :=
  match selectedCompany s with
  | None => None
  | Some company =>
      Some (card_ticker company +:+ "_filings_" +:+ today +:+ ".csv",
            csvContent (filingsTable (selectedCompany s)))
  end.

End Views.

(* ===================================================================== *)
(** * Charts: src/components/ComparisonChart.tsx and RiskKeywords.tsx *)
(* ===================================================================== *)

Module Charts.
Import Schema Text Frontend Js.

(** ** src/components/ComparisonChart.tsx *)

(** [Set.prototype.add]: a set keeps its elements in the order of their
    first insertion. *)
Definition setAdd (years : list Z) (year : Z) : list Z :=
  if decide (year ∈ years) then years else years ++ [year].

(** [const allYears = new Set<number>()] after the two [forEach] loops,
    as [Array.from(allYears)] lists it. *)
Definition allYears (companies : list CardCompany) : list Z :=
  fold_left
    (fun years company =>
       fold_left (fun years filing => setAdd years (fiscal_year filing))
         (or_empty (card_filings company)) years)
    companies [].

(** [Array.from(allYears).sort((a, b) => a - b)] *)
Definition sortedYears (companies : list CardCompany) : list Z :=
  sortBy (fun year => year) (allYears companies).

(** A value of a [Record<string, number | string | null>]. *)
Inductive Cell :=
| CellText (s : string)
| CellNumber (x : number)
| CellNull.

(** [company.filings?.find((f) => f.fiscal_year === year)] *)
Definition filingOf (company : CardCompany) (year : Z) : option CardFiling :=
  List.find (fun f => bool_decide (fiscal_year f = year)) (or_empty (card_filings company)).

(** A plain object: its own properties, and whether its prototype is
    [Object.prototype], as it is for an object literal. *)
Record Plain := {
  own : gmap string Cell;
  inherits : bool
}.

(** [object[key] = value].  An assignment creates or overwrites an own
    property, except under the one accessor property that
    [Object.prototype] has, [__proto__]: on an object that inherits it the
    assignment calls its setter, which takes null as "no prototype" and
    ignores a number or a string. *)
Definition assign (key : string) (value : Cell) (object : Plain) : Plain :=
  if bool_decide (key = "__proto__") && inherits object then
    match value with
    | CellNull => {| own := own object; inherits := false |}
    | _ => object
    end
  else {| own := <[key := value]> (own object); inherits := inherits object |}.

(** The own properties of the [dataPoint] of one year: it starts as
    [{ year: `FY${year}` }] and is assigned to once per company, under the
    company's ticker; [value] is what the loop body assigns. *)
Definition dataPoint (value : option CardFiling -> Cell) (companies : list CardCompany)
    (year : Z) : gmap string Cell :=
  own
    (fold_left
       (fun dataPoint company =>
          assign (card_ticker company) (value (filingOf company year)) dataPoint)
       companies
       {| own := {[ "year" := CellText ("FY" +:+ toString (ofZ year)) ]};
          inherits := true |}).

(** [filing?.field ?? null] *)
Definition orNull (field : CardFiling -> option number) (filing : option CardFiling) : Cell :=
  match filing ≫= field with
  | Some n => CellNumber n
  | None => CellNull
  end.

(** The body of the loop of [marginData]. *)
Definition marginOf (filing : option CardFiling) : Cell :=
  match profitMargin (filing ≫= total_revenue) (filing ≫= net_income) with
  | Some margin => CellNumber margin
  | None => CellNull
  end.

Definition revenueData (companies : list CardCompany) : list (gmap string Cell) :=
  dataPoint (orNull total_revenue) companies <$> sortedYears companies.

Definition netIncomeData (companies : list CardCompany) : list (gmap string Cell) :=
  dataPoint (orNull net_income) companies <$> sortedYears companies.

Definition assetsData (companies : list CardCompany) : list (gmap string Cell) :=
  dataPoint (orNull total_assets) companies <$> sortedYears companies.

Definition marginData (companies : list CardCompany) : list (gmap string Cell) :=
  dataPoint marginOf companies <$> sortedYears companies.

(** [const tickers = companies.map((c) => c.ticker)] *)
Definition tickers (companies : list CardCompany) : list string :=
  card_ticker <$> companies.

(** [const COLORS] of ComparisonChart.tsx. *)
Definition COLORS : list string :=
  [ "#3b82f6"; "#10b981"; "#f59e0b"; "#ef4444";
    "#8b5cf6"; "#ec4899"; "#06b6d4"; "#84cc16" ].

(** [COLORS[idx % COLORS.length]]; [None] is undefined. *)
Definition stroke (idx : nat) : option string :=
  COLORS !! (idx mod length COLORS)%nat.

(** ** src/components/RiskKeywords.tsx *)

#[global] Instance Severity_eq_dec : EqDecision Severity.
Proof. solve_decision. Defined.

(** [const severityOrder = { high: 0, medium: 1, low: 2 }] *)
Definition severityOrder (severity : Severity) : Z :=
  match severity with
  | high => 0
  | medium => 1
  | low => 2
  end.

(** [[...keywords].sort((a, b) => severityOrder[getSeverity(a)] -
    severityOrder[getSeverity(b)])] *)
Definition sortedKeywords (keywords : list string) : list string :=
  sortBy (fun keyword => severityOrder (getSeverity keyword)) keywords.

Definition highCount (keywords : list string) : nat :=
  length (filter (fun k => getSeverity k = high) keywords).

Definition mediumCount (keywords : list string) : nat :=
  length (filter (fun k => getSeverity k = medium) keywords).

(** ** The tooltips of the comparison charts *)

Section Locale.
(** [Number.prototype.toLocaleString()] is the host's and depends on its
    locale; the formatters are modelled for any. *)
Variable toLocaleString : number -> string.

(** [formatTooltip] of ComparisonChart.tsx. *)
Definition formatTooltip (value : number) : string :=
  if geq (abs value) (ofZ (10 ^ 12))
  then "$" +:+ toFixed 2 (over value (ofZ (10 ^ 12))) +:+ "T"
  else if geq (abs value) (ofZ (10 ^ 9))
  then "$" +:+ toFixed 2 (over value (ofZ (10 ^ 9))) +:+ "B"
  else if geq (abs value) (ofZ (10 ^ 6))
  then "$" +:+ toFixed 2 (over value (ofZ (10 ^ 6))) +:+ "M"
  else "$" +:+ toLocaleString value.

End Locale.

End Charts.

(* ===================================================================== *)
(** * Home: what src/app/page.tsx hands to the dashboard *)
(* ===================================================================== *)

Module Home.
Import Schema Frontend.

(** An object of [getCompaniesWithFilings] read through the [Filing]
    interface of Dashboard.tsx: the properties of the same names; the
    object has no [filing_url].  A figure of the object is the Number of
    the stored amount. *)
Definition cardFiling (filing : HomeFiling) : CardFiling :=
  {| id := filing_pk (home_row filing);
     fiscal_year := Schema.fiscal_year (home_row filing);
     filing_date := Schema.filing_date (home_row filing);
     total_revenue := Js.ofZ <$> home_total_revenue filing;
     net_income := Js.ofZ <$> home_net_income filing;
     total_assets := Js.ofZ <$> home_total_assets filing;
     risk_keywords := home_risk_keywords filing;
     filing_url := None |}.

(** The same for a company and the [Company] interface. *)
Definition cardCompany (company : HomeCompany) : CardCompany :=
  {| card_id := company_pk (home_company company);
     card_ticker := ticker (home_company company);
     card_name := company_name (home_company company);
     card_sector := sector (home_company company);
     card_cik := cik (home_company company);
     card_filings := Some (cardFiling <$> home_filings company) |}.

(** [HomePage]: the [companies] of [<Dashboard companies={companies} />]. *)
Definition HomePage (db : Supabase) : list CardCompany :=
  cardCompany <$> getCompaniesWithFilings db.

(** The name and the value of the metric rows of one of the [names], in
    the order of the rows. *)
Definition named (names : list string) (rows : option (list FinancialMetric))
    : list (string * option Z) :=
  (fun m => (metric_name m, metric_value m))
  <$> filter (fun m => metric_name m ∈ names) (or_empty rows).

End Home.

(* ===================================================================== *)
(** * Seed: the seed data and the views of sql/schema.sql *)
(* ===================================================================== *)

Module Seed.
Import Schema Storage.

(** The rows of [INSERT INTO companies (ticker, name, cik, sector,
    industry) VALUES ...]. *)
Record SeedRow := {
  seed_ticker : string;
  seed_name : string;
  seed_cik : string;
  seed_sector : string;
  seed_industry : string
}.

Definition SEED_COMPANIES : list SeedRow :=
  [ {| seed_ticker := "AAPL"; seed_name := "Apple Inc."; seed_cik := "0000320193";
       seed_sector := "Technology"; seed_industry := "Consumer Electronics" |};
    {| seed_ticker := "MSFT"; seed_name := "Microsoft Corporation"; seed_cik := "0000789019";
       seed_sector := "Technology"; seed_industry := "Software" |};
    {| seed_ticker := "GOOGL"; seed_name := "Alphabet Inc."; seed_cik := "0001652044";
       seed_sector := "Technology"; seed_industry := "Internet Services" |};
    {| seed_ticker := "AMZN"; seed_name := "Amazon.com Inc."; seed_cik := "0001018724";
       seed_sector := "Consumer Cyclical"; seed_industry := "E-Commerce" |};
    {| seed_ticker := "META"; seed_name := "Meta Platforms Inc."; seed_cik := "0001326801";
       seed_sector := "Technology"; seed_industry := "Social Media" |};
    {| seed_ticker := "NVDA"; seed_name := "NVIDIA Corporation"; seed_cik := "0001045810";
       seed_sector := "Technology"; seed_industry := "Semiconductors" |};
    {| seed_ticker := "TSLA"; seed_name := "Tesla Inc."; seed_cik := "0001318605";
       seed_sector := "Consumer Cyclical"; seed_industry := "Auto Manufacturers" |};
    {| seed_ticker := "JPM"; seed_name := "JPMorgan Chase & Co."; seed_cik := "0000019617";
       seed_sector := "Financial Services"; seed_industry := "Banks" |};
    {| seed_ticker := "JNJ"; seed_name := "Johnson & Johnson"; seed_cik := "0000200406";
       seed_sector := "Healthcare"; seed_industry := "Drug Manufacturers" |};
    {| seed_ticker := "WMT"; seed_name := "Walmart Inc."; seed_cik := "0000104169";
       seed_sector := "Consumer Defensive"; seed_industry := "Retail" |} ].

(** [ticker VARCHAR(10) UNIQUE NOT NULL]: a row of the same ticker is in
    the table. *)
Definition ticker_taken (s : Store) (t : string) : bool :=
  existsb (fun c => bool_decide (ticker c = t)) (companies s).

(** One row of the statement.  [ON CONFLICT (ticker) DO NOTHING] skips a
    row whose ticker is taken; any other row enters the table with a fresh
    [id] and [created_at] and [updated_at DEFAULT NOW()]. *)
Definition insert_company (now : timestamptz) (row : SeedRow) (s : Store) : Store :=
  if ticker_taken s (seed_ticker row) then s
  else
    {| companies :=
         companies s
         ++ [ {| company_pk := next_uuid s;
                 ticker := seed_ticker row;
                 company_name := seed_name row;
                 cik := seed_cik row;
                 sector := Some (seed_sector row);
                 industry := Some (seed_industry row);
                 company_created_at := Some now;
                 company_updated_at := Some now |} ];
       filings := filings s;
       financial_metrics := financial_metrics s;
       risk_keywords := risk_keywords s;
       next_uuid := S (next_uuid s) |}.

(** The [INSERT ... ON CONFLICT (ticker) DO NOTHING] of the seed data, run
    at time [now]. *)
Definition seed (now : timestamptz) (s : Store) : Store :=
  fold_left (fun s row => insert_company now row s) SEED_COMPANIES s.

End Seed.

(* ===================================================================== *)
(** * Sql: the statements the tables of sql/schema.sql take *)
(* ===================================================================== *)

Module Sql.
Import Schema Storage.

(** The rows an INSERT or a DELETE on one of the four tables works on.  A
    primary key comes from [DEFAULT gen_random_uuid()] and [created_at]
    from [DEFAULT NOW()]; a nullable column takes NULL as [None]. *)
Inductive Statement :=
| InsertCompany (t name c : string) (sec ind : option string)
| InsertFiling (company : option uuid) (d : FilingData)
| InsertMetric (filing : option uuid) (name : string) (value : option Z) (u : option string)
| InsertKeyword (filing : option uuid) (kw : string) (freq : option Z)
    (sec snippet : option string)
| DeleteCompany (pk : uuid)
| DeleteFiling (pk : uuid)
| DeleteMetric (pk : uuid)
| DeleteKeyword (pk : uuid).

(** A foreign key refers to one of the rows [pks]; NULL refers to none. *)
Definition refers (pks : list uuid) (fk : option uuid) : bool :=
  match fk with
  | Some pk => bool_decide (pk ∈ pks)
  | None => false
  end.

(** The input conversions of the column types are the server's: what a
    column of the type stores for a value, or [None] where the type
    refuses it.  VARCHAR(n) refuses a text with more than n characters
    unless the excess is blanks, which it cuts; DATE and INTEGER refuse
    what is no date or out of range.  The statements are modelled for any
    such conversions. *)
Record Types := {
  varchar : nat -> string -> option string;
  text : string -> option string;
  date : string -> option string;
  integer : Z -> option Z;
  numeric : Z -> option Z
}.

(** A nullable column takes NULL as it is. *)
Definition nullable {A} (convert : A -> option A) (value : option A) : option (option A) :=
  match value with
  | Some v => Some <$> convert v
  | None => Some None
  end.

(** An INSERT with its values as the columns store them; [None] when a
    column refuses its value.  A DELETE by primary key has no value to
    convert. *)
Definition stored (types : Types) (stmt : Statement) : option Statement :=
  match stmt with
  | InsertCompany t name c sec ind =>
      t ← varchar types 10 t;
      name ← varchar types 255 name;
      c ← varchar types 20 c;
      sec ← nullable (varchar types 100) sec;
      ind ← nullable (varchar types 100) ind;
      Some (InsertCompany t name c sec ind)
  | InsertFiling company d =>
      filing_type ← varchar types 10 (data_filing_type d);
      filing_date ← date types (data_filing_date d);
      fiscal_year ← integer types (data_fiscal_year d);
      fiscal_period ← nullable (varchar types 10) (data_fiscal_period d);
      accession_number ← nullable (varchar types 30) (data_accession_number d);
      source_url ← text types (data_source_url d);
      Some (InsertFiling company
              {| data_filing_type := filing_type;
                 data_filing_date := filing_date;
                 data_fiscal_year := fiscal_year;
                 data_fiscal_period := fiscal_period;
                 data_accession_number := accession_number;
                 data_source_url := source_url |})
  | InsertMetric filing name value u =>
      name ← varchar types 100 name;
      value ← nullable (numeric types) value;
      u ← nullable (varchar types 20) u;
      Some (InsertMetric filing name value u)
  | InsertKeyword filing kw freq sec snippet =>
      kw ← varchar types 100 kw;
      freq ← nullable (integer types) freq;
      sec ← nullable (varchar types 50) sec;
      snippet ← nullable (text types) snippet;
      Some (InsertKeyword filing kw freq sec snippet)
  | _ => Some stmt
  end.

(** What a statement makes of the tables at time [now], its values being
    the stored ones; [None] when a constraint refuses it.  [ticker
    VARCHAR(10) UNIQUE NOT NULL] refuses a second company of a ticker;
    [REFERENCES ... (id)] refuses a child whose
    parent is not there and, [ON DELETE CASCADE], takes the children out
    with their parent; the UNIQUE constraints of the three child tables
    compare as [filing_conflict], [metric_conflict] and
    [keyword_conflict]. *)
Definition run (now : timestamptz) (stmt : Statement) (s : Store) : option Store :=
  match stmt with
  | InsertCompany t name c sec ind =>
      if existsb (fun old => bool_decide (ticker old = t)) (companies s) then None
      else Some {| companies :=
                     companies s
                     ++ [ {| company_pk := next_uuid s;
                             ticker := t;
                             company_name := name;
                             cik := c;
                             sector := sec;
                             industry := ind;
                             company_created_at := Some now;
                             company_updated_at := Some now |} ];
                   filings := filings s;
                   financial_metrics := financial_metrics s;
                   risk_keywords := risk_keywords s;
                   next_uuid := S (next_uuid s) |}
  | InsertFiling company d => insert_filing now company d s
  | InsertMetric filing name value u =>
      let new := {| metric_pk := next_uuid s;
                    metric_filing_id := filing;
                    metric_name := name;
                    metric_value := value;
                    unit := u;
                    metric_created_at := Some now |} in
      if from_option (filing_exists s) true filing
         && negb (existsb (fun old => metric_conflict old new) (financial_metrics s))
      then Some {| companies := companies s;
                   filings := filings s;
                   financial_metrics := financial_metrics s ++ [new];
                   risk_keywords := risk_keywords s;
                   next_uuid := S (next_uuid s) |}
      else None
  | InsertKeyword filing kw freq sec snippet =>
      let new := {| keyword_pk := next_uuid s;
                    keyword_filing_id := filing;
                    keyword := kw;
                    frequency := freq;
                    section := sec;
                    context_snippet := snippet;
                    keyword_created_at := Some now |} in
      if from_option (filing_exists s) true filing
         && negb (existsb (fun old => keyword_conflict old new) (risk_keywords s))
      then Some {| companies := companies s;
                   filings := filings s;
                   financial_metrics := financial_metrics s;
                   risk_keywords := risk_keywords s ++ [new];
                   next_uuid := S (next_uuid s) |}
      else None
  | DeleteCompany pk =>
      let gone :=
        filing_pk <$> filter (fun f => company_id f = Some pk) (filings s) in
      Some {| companies := filter (fun c => company_pk c ≠ pk) (companies s);
              filings := filter (fun f => company_id f ≠ Some pk) (filings s);
              financial_metrics :=
                filter (fun m => refers gone (metric_filing_id m) = false)
                  (financial_metrics s);
              risk_keywords :=
                filter (fun k => refers gone (keyword_filing_id k) = false)
                  (risk_keywords s);
              next_uuid := next_uuid s |}
  | DeleteFiling pk =>
      Some {| companies := companies s;
              filings := filter (fun f => filing_pk f ≠ pk) (filings s);
              financial_metrics :=
                filter (fun m => metric_filing_id m ≠ Some pk) (financial_metrics s);
              risk_keywords :=
                filter (fun k => keyword_filing_id k ≠ Some pk) (risk_keywords s);
              next_uuid := next_uuid s |}
  | DeleteMetric pk =>
      Some {| companies := companies s;
              filings := filings s;
              financial_metrics :=
                filter (fun m => metric_pk m ≠ pk) (financial_metrics s);
              risk_keywords := risk_keywords s;
              next_uuid := next_uuid s |}
  | DeleteKeyword pk =>
      Some {| companies := companies s;
              filings := filings s;
              financial_metrics := financial_metrics s;
              risk_keywords := filter (fun k => keyword_pk k ≠ pk) (risk_keywords s);
              next_uuid := next_uuid s |}
  end.

(** A statement: refused when a column refuses a value, and run on the
    stored values otherwise. *)
Definition exec (types : Types) (now : timestamptz) (stmt : Statement) (s : Store)
    : option Store :=
  stored types stmt ≫= fun stmt => run now stmt s.

(** The database after [CREATE TABLE]: four empty tables. *)
Definition created : Store := seeded [].

(** The states of the database under the statements the schema accepts. *)
Inductive reachable (types : Types) : Store -> Prop :=
| reachable_created : reachable types created
| reachable_exec now stmt s s' :
    reachable types s -> exec types now stmt s = Some s' -> reachable types s'.

(** What the constraints of the schema keep: primary keys, tickers and
    complete keys name one row, and a foreign key that is not NULL names a
    row of the parent table. *)
Record integrity (s : Store) : Prop := {
  company_pks : NoDup (company_pk <$> companies s);
  company_tickers : NoDup (ticker <$> companies s);
  filing_pks : NoDup (filing_pk <$> filings s);
  filing_keys : NoDup (omap filing_ukey (filings s));
  filing_parents :
    ∀ f c, f ∈ filings s → company_id f = Some c → c ∈ company_pk <$> companies s;
  metric_pks : NoDup (metric_pk <$> financial_metrics s);
  metric_keys : NoDup (omap metric_ukey (financial_metrics s));
  metric_parents :
    ∀ m f, m ∈ financial_metrics s → metric_filing_id m = Some f →
           f ∈ filing_pk <$> filings s;
  keyword_pks : NoDup (keyword_pk <$> risk_keywords s);
  keyword_keys : NoDup (omap keyword_ukey (risk_keywords s));
  keyword_parents :
    ∀ k f, k ∈ risk_keywords s → keyword_filing_id k = Some f →
           f ∈ filing_pk <$> filings s;
  company_fresh : ∀ pk, pk ∈ company_pk <$> companies s → (pk < next_uuid s)%nat;
  filing_fresh : ∀ pk, pk ∈ filing_pk <$> filings s → (pk < next_uuid s)%nat;
  metric_fresh : ∀ pk, pk ∈ metric_pk <$> financial_metrics s → (pk < next_uuid s)%nat;
  keyword_fresh : ∀ pk, pk ∈ keyword_pk <$> risk_keywords s → (pk < next_uuid s)%nat
}.

End Sql.

(* ===================================================================== *)
(** * Sample data *)
(* ===================================================================== *)

Module Samples.
Import Schema Text Pipeline Storage.

(** The revenue patterns are the ones section 4.3 names; a keyword is
    counted under its own name, "cyber" also under cybersecurity. *)
Definition sample_config : Config :=
  {| label_patterns := fun metric =>
       if bool_decide (metric = "revenue")
       then ["total revenue"; "net sales"; "total net sales"]
       else if bool_decide (metric = "net_income") then ["net income"]
       else [];
     keyword_terms := fun kw =>
       if bool_decide (kw = "cybersecurity") then ["cybersecurity"; "cyber"] else [kw] |}.

(** Segment and consolidated revenue, no unit declaration. *)
Definition segment_document : Document :=
  {| doc_header := "CONSOLIDATED STATEMENTS OF OPERATIONS";
     doc_rows := [("Products net sales", "1,000,000"); ("Total net sales", "50,000,000")];
     doc_narrative := "" |}.

Definition thousands_document : Document :=
  {| doc_header := "(In thousands, except per share data)";
     doc_rows := [("Total revenue", "$ 1,234"); ("Total assets", "9,000")];
     doc_narrative :=
       "Item 1A. Risk Factors. Cybersecurity incidents and litigation may harm us. "
       +:+ "A cybersecurity breach is costly. Item 1B. Unresolved Staff Comments." |}.



Definition apple : Company :=
  {| company_pk := 1%nat;
     ticker := "AAPL";
     company_name := "Apple Inc.";
     cik := "0000320193";
     sector := Some "Technology";
     industry := Some "Consumer Electronics";
     company_created_at := Some 0;
     company_updated_at := Some 0 |}.

Definition annual_report (period : option string) : FilingData :=
  {| data_filing_type := "10-K";
     data_filing_date := "2023-11-03";
     data_fiscal_year := 2023;
     data_fiscal_period := period;
     data_accession_number := Some "0000320193-23-000106";
     data_source_url := "https://www.sec.gov/Archives/edgar/data/320193/aapl-20230930.htm" |}.

Definition one_filing (period : option string) (c : Company) : list Job :=
  [ {| job_filing := annual_report period; job_outcome := Parsed thousands_document |} ].

Definition after_one_run (period : option string) : Store :=
  fst (run_orchestrator 100 sample_config (one_filing period) (seeded [apple])).

Definition after_two_runs (period : option string) : Store :=
  fst (run_orchestrator 200 sample_config (one_filing period) (after_one_run period)).

(** The first keyword row of the store after one run. *)
Definition cybersecurity_row : RiskKeyword :=
  {| keyword_pk := 6%nat;
     keyword_filing_id := Some 0%nat;
     keyword := "cybersecurity";
     frequency := Some 2;
     section := Some "risk_factors";
     context_snippet := Some " cybersecurity incidents and litigation may harm us";
     keyword_created_at := Some 100 |}.



(** A document whose rows carry no net income label. *)
Definition thousands_job : Job :=
  {| job_filing := annual_report (Some "FY"); job_outcome := Parsed thousands_document |}.

End Samples.

(* ===================================================================== *)
(** * Examples: two companies on the dashboard, and a small database *)
(* ===================================================================== *)

Module Examples.
Import Schema Storage Frontend Views Sql.

Definition filing_of (pk : uuid) (year : Z) (revenue netIncome : option Z) : CardFiling :=
  {| id := pk;
     fiscal_year := year;
     filing_date := "2023-11-03";
     total_revenue := Js.ofZ <$> revenue;
     net_income := Js.ofZ <$> netIncome;
     total_assets := None;
     risk_keywords := ["cybersecurity"; "inflation"];
     filing_url := None |}.

Definition aapl : CardCompany :=
  {| card_id := 1%nat;
     card_ticker := "AAPL";
     card_name := "Apple Inc.";
     card_sector := Some "Technology";
     card_cik := "0000320193";
     card_filings :=
       Some [filing_of 11%nat 2023 (Some 383285000000) (Some 96995000000);
             filing_of 12%nat 2022 (Some 394328000000) (Some 99803000000)] |}.

(** A company with three filings of one fiscal year. *)
Definition restated : CardCompany :=
  {| card_id := 4%nat;
     card_ticker := "RSTD";
     card_name := "Restated Inc.";
     card_sector := Some "Industrials";
     card_cik := "0000000002";
     card_filings :=
       Some [filing_of 41%nat 2023 (Some 100) None;
             filing_of 42%nat 2023 (Some 200) None;
             filing_of 43%nat 2023 (Some 300) None] |}.

(** A company without a sector, its total assets at 1e21. *)
Definition acme : CardCompany :=
  {| card_id := 3%nat;
     card_ticker := "ACME";
     card_name := "Acme Corp.";
     card_sector := None;
     card_cik := "0000000001";
     card_filings :=
       Some [ {| id := 31%nat;
                 fiscal_year := 2023;
                 filing_date := "2024-02-01";
                 total_revenue := Some (Js.ofZ 100000);
                 net_income := Some (Js.ofZ 1005);
                 total_assets := Some (Js.ofZ (10 ^ 21));
                 risk_keywords := [];
                 filing_url := None |} ] |}.

Definition msft : CardCompany :=
  {| card_id := 2%nat;
     card_ticker := "MSFT";
     card_name := "Microsoft Corporation";
     card_sector := Some "Technology";
     card_cik := "0000789019";
     card_filings := Some [filing_of 21%nat 2023 (Some 211915000000) None] |}.

(** Compare, a click on each of the two cards, and Compare (2). *)
Definition selecting : State :=
  handle (ClickCard msft) (handle (ClickCard aapl) (handle ToggleCompare initial)).

Definition comparing : State := handle StartComparison selecting.

(** Column types that store the values of the examples as they are given:
    a VARCHAR(n) that cuts the blanks beyond n characters and refuses other
    excess, and an INTEGER of 32 bits. *)
Definition types : Types :=
  {| varchar := fun n v =>
       let excess := substring n (String.length v - n) v in
       if bool_decide (excess = String.concat "" (replicate (String.length excess) " "))
       then Some (substring 0 n v) else None;
     text := Some;
     date := Some;
     integer := fun v => if bool_decide (- 2 ^ 31 <= v < 2 ^ 31) then Some v else None;
     numeric := Some |}.

(** A company, and one filing of it. *)
Definition after_company : Store :=
  default created
    (exec types 1
       (InsertCompany "AAPL" "Apple Inc." "0000320193" (Some "Technology") None)
       created).

Definition after_filing : Store :=
  default after_company
    (exec types 2 (InsertFiling (Some 0%nat) (Samples.annual_report (Some "FY")))
       after_company).

(** What the database client answers over one company, one filing and the
    given metric rows. *)
Definition metric_of (pk : uuid) (name : string) (value : option Z) (u : option string)
    : FinancialMetric :=
  {| metric_pk := pk;
     metric_filing_id := Some 1%nat;
     metric_name := name;
     metric_value := value;
     unit := u;
     metric_created_at := Some 0 |}.

Definition database (metrics : list FinancialMetric) : Supabase :=
  {| companies_by_ticker := (Some [Samples.apple], false);
     company_like := fun _ => (Some Samples.apple, false);
     filings_of := fun _ _ =>
       Some [filing_row 1%nat 0 (Some 1%nat) (Samples.annual_report (Some "FY"))];
     metrics_of := fun _ => Some metrics;
     keywords_of := fun _ => Some [Samples.cybersecurity_row] |}.

Definition in_dollars : Supabase :=
  database [ metric_of 2%nat "revenue" (Some 383285000000) (Some "USD");
             metric_of 3%nat "cash_and_equivalents" (Some 29965000000) (Some "USD") ].

Definition in_euros : Supabase :=
  database [ metric_of 2%nat "revenue" (Some 383285000000) (Some "EUR") ].

End Examples.

(* ===================================================================== *)
(** * Theorems *)
(* ===================================================================== *)

(** ** Metric extractor and unit detector *)

Section PipelineFacts.
Import Schema Text Pipeline.

Lemma larger_abs_fold (cs : list Z) (c : Z) :
  let v := fold_left larger_abs cs c in
  v ∈ c :: cs ∧ ∀ x, x ∈ c :: cs → Z.abs x <= Z.abs v.
Proof.
  revert c. induction cs as [|y cs IH]; intros c; cbn.
  - split; [left|]. intros x Hx. apply list_elem_of_singleton in Hx. subst. lia.
  - specialize (IH (larger_abs c y)). cbn in IH. destruct IH as [Hin Hmax].
    split.
    + apply elem_of_cons in Hin as [Heq|Hin].
      * rewrite Heq. unfold larger_abs. case_match; [right; left | left].
      * right; right; exact Hin.
    + intros x Hx.
      assert (Hc : Z.abs c <= Z.abs (larger_abs c y) ∧ Z.abs y <= Z.abs (larger_abs c y)).
      { unfold larger_abs. case_match eqn:E; [apply Z.ltb_lt in E | apply Z.ltb_ge in E]; lia. }
      apply elem_of_cons in Hx as [->|Hx].
      * etrans; [apply Hc|]. apply Hmax. left.
      * apply elem_of_cons in Hx as [->|Hx].
        -- etrans; [apply Hc|]. apply Hmax. left.
        -- apply Hmax. right. exact Hx.
Qed.

Lemma select_max_abs_spec (cs : list Z) :
  match select_max_abs cs with
  | None => cs = []
  | Some v => v ∈ cs ∧ ∀ x, x ∈ cs → Z.abs x <= Z.abs v
  end.
Proof.
  destruct cs as [|c cs]; cbn; [done|]. apply larger_abs_fold.
Qed.

Lemma elem_of_candidates (cfg : Config) (d : Document) (metric : string) (c : Z) :
  c ∈ candidates cfg d metric ↔
  ∃ p row, p ∈ label_patterns cfg metric ∧ row ∈ doc_rows d
           ∧ contains_ci p (fst row) = true ∧ parse_number (snd row) = Some c.
Proof.
  unfold candidates. rewrite list_elem_of_bind. split.
  - intros (p & Hc & Hp). apply list_elem_of_omap in Hc as (row & Hrow & Hv).
    exists p, row. destruct (contains_ci p (fst row)); naive_solver.
  - intros (p & row & Hp & Hrow & Hm & Hv). exists p. split; [|done].
    apply list_elem_of_omap. exists row. by rewrite Hm.
Qed.

Lemma label_matches_pattern (ps : list string) (label : string) :
  label_matches ps label = true → ∃ p, p ∈ ps ∧ contains_ci p label = true.
Proof.
  unfold label_matches. rewrite existsb_exists. intros (p & Hp & Hm).
  exists p. by rewrite list_elem_of_In.
Qed.

Lemma occurs_prefix (p s : string) : String.prefix p s = true → occurs p s = true.
Proof. intros H. destruct s; cbn in *; rewrite H; done. Qed.


Lemma prefix_trans (p q s : string) :
  String.prefix p q = true → String.prefix q s = true → String.prefix p s = true.
Proof.
  revert q s. induction p as [|a p IH]; intros q s; [by destruct s|].
  destruct q as [|b q]; [done|]. destruct s as [|c s]; [done|]. cbn.
  destruct (ascii_dec a b) as [->|]; [|done].
  destruct (ascii_dec b c) as [->|]; [|done].
  destruct (ascii_dec c c); [|done]. apply IH.
Qed.

(** Where [q] occurs, its prefix [p] occurs. *)
Lemma occurs_shorter (p q s : string) :
  String.prefix p q = true → occurs q s = true → occurs p s = true.
Proof.
  intros Hpq. induction s as [|c s IH]; cbn [occurs].
  - rewrite !orb_false_r. apply prefix_trans, Hpq.
  - intros [H|H]%orb_true_iff.
    + by rewrite (prefix_trans _ _ _ Hpq H).
    + rewrite (IH H). apply orb_true_r.
Qed.

(** Where [String c p] occurs, [p] occurs one position later. *)
Lemma occurs_drop_head (c : ascii) (p s : string) :
  occurs (String c p) s = true → occurs p s = true.
Proof.
  induction s as [|a s IH]; cbn [occurs]; [done|].
  intros [H|H]%orb_true_iff.
  - cbn in H. destruct (ascii_dec c a); [|done].
    rewrite (occurs_prefix _ _ H). apply orb_true_r.
  - rewrite (IH H). apply orb_true_r.
Qed.















End PipelineFacts.

(** C1. Whenever the metric extractor has candidate values for a metric, the
    value it builds on is a candidate of maximal absolute value, and the
    result is that value times the unit's scale; on a document whose two
    revenue-labelled rows read 1,000,000 and 50,000,000 it returns
    50,000,000. *)
Theorem metric_extractor_selects_max_abs
    (cfg : Pipeline.Config) (d : Pipeline.Document) (u : Pipeline.ReportingUnit)
    (metric : string) :
  (Pipeline.candidates cfg d metric ≠ [] →
   ∃ v, v ∈ Pipeline.candidates cfg d metric
        ∧ (∀ c, c ∈ Pipeline.candidates cfg d metric → Z.abs c <= Z.abs v)
        ∧ Pipeline.raw_metric_value cfg d metric = Some v
        ∧ Pipeline.extract_metric cfg d u metric = Some (v * Pipeline.scale u))
  ∧ (∀ label1 label2,
       Pipeline.doc_rows d = [(label1, "1,000,000"); (label2, "50,000,000")] →
       Pipeline.label_matches (Pipeline.label_patterns cfg "revenue") label1 = true →
       Pipeline.label_matches (Pipeline.label_patterns cfg "revenue") label2 = true →
       Pipeline.raw_metric_value cfg d "revenue" = Some 50000000
       ∧ Pipeline.extract_metric cfg d Pipeline.Ones "revenue" = Some 50000000).
Proof.
  assert (Hgen : ∀ m, Pipeline.candidates cfg d m ≠ [] →
    ∃ v, v ∈ Pipeline.candidates cfg d m
         ∧ (∀ c, c ∈ Pipeline.candidates cfg d m → Z.abs c <= Z.abs v)
         ∧ Pipeline.raw_metric_value cfg d m = Some v).
  { intros m Hne. unfold Pipeline.raw_metric_value.
    pose proof (select_max_abs_spec (Pipeline.candidates cfg d m)) as H.
    destruct (Pipeline.select_max_abs _) as [v|]; [|done].
    exists v. destruct H; done. }
  split.
  - intros Hne. destruct (Hgen metric Hne) as (v & Hin & Hmax & Hraw).
    exists v. unfold Pipeline.extract_metric. rewrite Hraw. done.
  - intros l1 l2 Hrows [p1 [Hp1 Hm1]]%label_matches_pattern
      [p2 [Hp2 Hm2]]%label_matches_pattern.
    assert (Hbig : 50000000 ∈ Pipeline.candidates cfg d "revenue").
    { apply elem_of_candidates. exists p2, (l2, "50,000,000"). rewrite Hrows.
      repeat split; [done|set_solver|done]. }
    destruct (Hgen "revenue") as (v & Hin & Hmax & Hraw).
    { intros E. rewrite E in Hbig. by apply elem_of_nil in Hbig. }
    assert (v = 50000000) as ->.
    { specialize (Hmax _ Hbig).
      apply elem_of_candidates in Hin as (p & row & _ & Hrow & _ & Hv).
      rewrite Hrows in Hrow.
      apply elem_of_cons in Hrow as [->|Hrow];
        [|apply list_elem_of_singleton in Hrow as ->];
        vm_compute in Hv; injection Hv as <-; [lia|done]. }
    unfold Pipeline.extract_metric. rewrite Hraw. done.
Qed.

Lemma metric_extractor_selects_max_abs_witness :
  Pipeline.raw_metric_value Samples.sample_config Samples.segment_document "revenue"
    = Some 50000000
  ∧ Pipeline.extract_metric Samples.sample_config Samples.segment_document
      Pipeline.Ones "revenue" = Some 50000000.
Proof.
  apply (proj2 (metric_extractor_selects_max_abs Samples.sample_config
                  Samples.segment_document Pipeline.Ones "revenue")
           "Products net sales" "Total net sales"); reflexivity.
Defined.




(** ** Numbers and their texts *)

Section NumberFacts.
Import Js.

Lemma isZero_true (x : number) : isZero x = true ↔ ∃ sign, x = S754_zero sign.
Proof.
  destruct x as [s|s| |s m e]; cbn.
  - split; [eauto|done].
  - destruct s; split; [done| |done|]; intros [? [=]].
  - split; [done|]. intros [? [=]].
  - destruct s; split; [done| |done|]; intros [? [=]].
Qed.

Lemma isZero_abs (x : number) : isZero (abs x) = isZero x.
Proof. by destruct x as [[]|[]| |[] m e]. Qed.

Lemma truthy_not_zero (x : number) : truthy x = true → isZero x = false.
Proof. by destruct x as [[]|[]| |[] m e]. Qed.

(** The real of a finite number has the sign of its sign bit. *)
Lemma magnitude_positive (m : positive) (e : Z) : (0 < inject_Z (Zpos m) * 2 ^ e)%Q.
Proof.
  apply Qmult_lt_0_compat; [reflexivity|]. by apply Qpower_0_lt.
Qed.

Lemma value_negative (m : positive) (e : Z) : (value (S754_finite true m e) < 0)%Q.
Proof.
  pose proof (magnitude_positive m e) as H. cbn [value].
  set (p := (2 ^ e)%Q) in *. set (q := inject_Z (Z.pos m)) in *. lra.
Qed.

Lemma value_positive (m : positive) (e : Z) : (0 < value (S754_finite false m e))%Q.
Proof.
  pose proof (magnitude_positive m e) as H. cbn [value].
  set (p := (2 ^ e)%Q) in *. set (q := inject_Z (Z.pos m)) in *. lra.
Qed.

Lemma decimal_digit (d : Z) : 0 <= d < 10 → padStart 1 (decimal d) = decimal d.
Proof.
  intros H.
  assert (d = 0 ∨ d = 1 ∨ d = 2 ∨ d = 3 ∨ d = 4 ∨ d = 5 ∨ d = 6 ∨ d = 7 ∨ d = 8 ∨ d = 9)
    as Hd by lia.
  repeat (destruct Hd as [->|Hd]; [reflexivity|]). by subst.
Qed.

(** What [toFixed(1)] returns, case by case. *)
Lemma toFixed_1 (x : number) :
  match x with
  | S754_nan => toFixed 1 x = "NaN"
  | S754_infinity sign => toFixed 1 x = if sign then "-Infinity" else "Infinity"
  | S754_zero _ => toFixed 1 x = "0.0"
  | S754_finite sign _ _ =>
      if Qle_bool (inject_Z (10 ^ 21)) (Qabs (value x)) then toFixed 1 x = toString x
      else ∃ n : Z,
             (inject_Z n - (1 # 2) <= Qabs (value x) * 10
              ∧ Qabs (value x) * 10 < inject_Z n + (1 # 2))%Q
             ∧ toFixed 1 x
               = (if sign then "-" else "")
                 +:+ NilZero.string_of_uint (N.to_uint (Z.to_N (n / 10)))
                 +:+ "."
                 +:+ NilZero.string_of_uint (N.to_uint (Z.to_N (n mod 10)))
  end.
Proof.
  destruct x as [s|s| |s m e]; [reflexivity|by destruct s|reflexivity|].
  unfold toFixed. destruct (Qle_bool _ _) eqn:E; [done|].
  set (v := value (S754_finite s m e)).
  exists (Qfloor (Qabs v * 10 + (1 # 2))%Q). split.
  - pose proof (Qfloor_le (Qabs v * 10 + (1 # 2))) as Hle.
    pose proof (Qlt_floor (Qabs v * 10 + (1 # 2))) as Hlt.
    rewrite inject_Z_plus in Hlt. change (inject_Z 1) with 1%Q in Hlt.
    split; lra.
  - unfold fixed. change (inject_Z (10 ^ Z.of_nat 1)) with 10%Q.
    change (10 ^ Z.of_nat 1) with 10.
    rewrite decimal_digit by (apply Z.mod_pos_bound; lia).
    f_equal.
    destruct (Qlt_le_dec v 0) as [Hn|Hp]; destruct s; try done.
    + pose proof (value_positive m e). subst v. lra.
    + pose proof (value_negative m e). subst v. lra.
Qed.

(** A number is falsy when it is NaN or a zero. *)
Lemma falsy (x : number) : truthy x = false ↔ x = S754_nan ∨ ∃ sign, x = S754_zero sign.
Proof.
  destruct x as [s|s| |s m e]; cbn; split; try done; eauto.
  - intros [|[? [=]]]; done.
  - intros [|[? [=]]]; done.
Qed.

(** The sign of a rounded result is the sign it is given. *)
Lemma binary_round_aux_opp (s : bool) (m e : Z) (l : location) :
  binary_round_aux prec emax (negb s) m e l = SFopp (binary_round_aux prec emax s m e l).
Proof.
  unfold binary_round_aux.
  destruct (shr_fexp prec emax m e l) as [mrs e'].
  destruct (shr_fexp prec emax _ e' loc_Exact) as [mrs' e''].
  destruct (shr_m mrs'); [done| |done]. by destruct (_ <=? _).
Qed.

Lemma SFopp_involutive (x : number) : SFopp (SFopp x) = x.
Proof. destruct x as [s|s| |s m e]; cbn; by rewrite ?negb_involutive. Qed.

Lemma over_opp_r (x y : number) : over x (SFopp y) = SFopp (over x y).
Proof.
  destruct x as [sx|sx| |sx mx ex], y as [sy|sy| |sy my ey]; cbn;
    try done; try (by destruct sx, sy).
  destruct (SFdiv_core_binary prec emax (Z.pos mx) ex (Z.pos my) ey) as [[mz ez] lz].
  rewrite <- binary_round_aux_opp. f_equal. by destruct sx, sy.
Qed.

Lemma times_opp_l (x y : number) : times (SFopp x) y = SFopp (times x y).
Proof.
  destruct x as [sx|sx| |sx mx ex], y as [sy|sy| |sy my ey]; cbn;
    try done; try (by destruct sx, sy).
  rewrite <- binary_round_aux_opp. f_equal. by destruct sx, sy.
Qed.

End NumberFacts.

(** ** Sorting *)

Section SortFacts.
Import Js.
Context {A : Type} (key : A → Z).

Lemma insertBy_Permutation (x : A) (l : list A) : insertBy key x l ≡ₚ x :: l.
Proof.
  induction l as [|y l IH]; [done|]. cbn. case_bool_decide; [done|].
  rewrite IH. apply Permutation_swap.
Qed.

Lemma sortBy_Permutation (l : list A) : sortBy key l ≡ₚ l.
Proof.
  induction l as [|x l IH]; [done|]. cbn. rewrite insertBy_Permutation.
  by constructor.
Qed.

Lemma insertBy_sorted (x : A) (l : list A) :
  StronglySorted (fun a b => key a <= key b) l →
  StronglySorted (fun a b => key a <= key b) (insertBy key x l).
Proof.
  induction l as [|y l IH]; intros Hl; cbn.
  - repeat constructor.
  - apply StronglySorted_inv in Hl as [Hl Hy]. case_bool_decide as Hxy.
    + constructor; [by constructor|]. constructor; [lia|].
      eapply Forall_impl; [exact Hy|]. cbn. intros z Hz. lia.
    + constructor; [by apply IH|]. rewrite insertBy_Permutation.
      constructor; [lia|done].
Qed.

Lemma sortBy_sorted (l : list A) :
  StronglySorted (fun a b => key a <= key b) (sortBy key l).
Proof.
  induction l as [|x l IH]; cbn; [constructor|]. by apply insertBy_sorted.
Qed.

(** The sort is stable: elements of one key stay in their order. *)
Lemma insertBy_filter (k : Z) (x : A) (l : list A) :
  filter (fun a => key a = k) (insertBy key x l) = filter (fun a => key a = k) (x :: l).
Proof.
  induction l as [|y l IH]; [done|]. cbn. case_bool_decide as Hxy; [done|].
  rewrite (filter_cons _ y), IH, !filter_cons.
  destruct (decide (key y = k)), (decide (key x = k)); try done. lia.
Qed.

Lemma sortBy_filter (k : Z) (l : list A) :
  filter (fun a => key a = k) (sortBy key l) = filter (fun a => key a = k) l.
Proof.
  induction l as [|x l IH]; [done|].
  change (sortBy key (x :: l)) with (insertBy key x (sortBy key l)).
  rewrite insertBy_filter, !filter_cons. by rewrite IH.
Qed.

Lemma filter_none (P : A → Prop) `{∀ x, Decision (P x)} (l : list A) :
  Forall (fun x => ¬ P x) l → filter P l = [].
Proof.
  induction 1 as [|x l Hx _ IH]; [done|]. rewrite filter_cons.
  by rewrite decide_False.
Qed.

(** A list sorted by a key of three values is its elements of the first
    value, then those of the second, then those of the third. *)
Lemma sorted_three (l : list A) :
  StronglySorted (fun a b => key a <= key b) l →
  Forall (fun a => key a = 0 ∨ key a = 1 ∨ key a = 2) l →
  l = filter (fun a => key a = 0) l
        ++ filter (fun a => key a = 1) l ++ filter (fun a => key a = 2) l.
Proof.
  induction l as [|a l IH]; [done|].
  intros [Hl Ha]%StronglySorted_inv [Hk Hks]%Forall_cons.
  specialize (IH Hl Hks). rewrite !filter_cons.
  destruct Hk as [Hk|[Hk|Hk]].
  - rewrite decide_True, !decide_False by lia. cbn. by f_equal.
  - rewrite (decide_False (P := key a = 0)), decide_True, decide_False by lia.
    assert (H0 : filter (fun a => key a = 0) l = []).
    { apply filter_none. eapply Forall_impl; [exact Ha|]. cbn. intros; lia. }
    rewrite H0 in *. cbn. by f_equal.
  - rewrite !decide_False, decide_True by lia.
    assert (H0 : filter (fun a => key a = 0) l = []).
    { apply filter_none. eapply Forall_impl; [exact Ha|]. cbn. intros; lia. }
    assert (H1 : filter (fun a => key a = 1) l = []).
    { apply filter_none. eapply Forall_impl; [exact Ha|]. cbn. intros; lia. }
    rewrite H0, H1 in *. cbn. by f_equal.
Qed.

End SortFacts.

(** ** Page assembly and card helpers *)

Section FrontendFacts.
Import Schema Frontend.

Lemma later_fold (ys pre mid : list CardFiling) (cur : CardFiling) :
  (∀ g, g ∈ pre → fiscal_year g < fiscal_year cur) →
  (∀ g, g ∈ mid → fiscal_year g <= fiscal_year cur) →
  ∃ before f after,
    (pre ++ cur :: mid ++ ys)%list = (before ++ f :: after)%list
    ∧ fold_left later ys cur = f
    ∧ (∀ g, g ∈ before → fiscal_year g < fiscal_year f)
    ∧ (∀ g, g ∈ after → fiscal_year g <= fiscal_year f).
Proof.
  revert pre mid cur. induction ys as [|y ys IH]; intros pre mid cur Hpre Hmid.
  - exists pre, cur, mid. rewrite app_nil_r. done.
  - cbn [fold_left]. unfold later at 2. case_bool_decide as Hlt.
    + destruct (IH (pre ++ cur :: mid)%list [] y) as (before & f & after & E & H).
      * intros g [Hg|Hg]%elem_of_app; [specialize (Hpre g Hg); lia|].
        apply elem_of_cons in Hg as [->|Hg]; [done|]. specialize (Hmid g Hg). lia.
      * intros g Hg. by apply elem_of_nil in Hg.
      * exists before, f, after. split; [|exact H].
        rewrite <- E. cbn. rewrite <- app_assoc. done.
    + destruct (IH pre (mid ++ [y])%list cur) as (before & f & after & E & H).
      * exact Hpre.
      * intros g [Hg|Hg]%elem_of_app; [by apply Hmid|].
        apply list_elem_of_singleton in Hg as ->. lia.
      * exists before, f, after. split; [|exact H].
        rewrite <- E. rewrite <- app_assoc. done.
Qed.

Lemma or_null_idem (v : option Z) : or_null (Some (or_null (Some v))) = or_null (Some v).
Proof. destruct v as [n|]; cbn; [|done]. case_bool_decide; cbn; [done|]. by rewrite bool_decide_false. Qed.

Lemma metricsMap_fold_zeros (rows : list FinancialMetric) (acc acc' : gmap string (option Z)) :
  (∀ k, or_null (acc' !! k) = or_null (acc !! k)) →
  ∀ k,
    or_null (fold_left (fun a m => <[metric_name m := metric_value m]> a)
               (List.map zero_as_null rows) acc' !! k)
    = or_null (fold_left (fun a m => <[metric_name m := metric_value m]> a) rows acc !! k).
Proof.
  revert acc acc'. induction rows as [|m rows IH]; intros acc acc' Hacc k; cbn; [done|].
  apply IH. intros k'. rewrite !lookup_insert. case_decide; [|apply Hacc].
  apply or_null_idem.
Qed.

Lemma metricsMap_zeros (rows : option (list FinancialMetric)) (k : string) :
  or_null (metricsMap (or_empty (option_map (List.map zero_as_null) rows)) !! k)
  = or_null (metricsMap (or_empty rows) !! k).
Proof.
  unfold metricsMap. destruct rows as [rows|]; cbn; [|done].
  by apply metricsMap_fold_zeros.
Qed.

Lemma metricsMap_fold_lookup (rows : list FinancialMetric) (acc : gmap string (option Z))
    (name : string) :
  fold_left (fun a m => <[metric_name m := metric_value m]> a) rows acc !! name
  = match last (filter (fun m => metric_name m = name) rows) with
    | Some m => Some (metric_value m)
    | None => acc !! name
    end.
Proof.
  revert acc. induction rows as [|m rows IH]; intros acc; cbn [fold_left]; [done|].
  rewrite IH, filter_cons. case_decide as Hn.
  - rewrite last_cons. destruct (last _); [done|]. subst. by rewrite lookup_insert_eq.
  - destruct (last _); [done|]. by rewrite lookup_insert_ne.
Qed.

(** The row of a name that occurs once among the rows is what the map
    holds under that name. *)
Lemma metricsMap_lookup_unique (rows : list FinancialMetric) (m : FinancialMetric) :
  m ∈ rows →
  (∀ m', m' ∈ rows → metric_name m' = metric_name m → m' = m) →
  metricsMap rows !! metric_name m = Some (metric_value m).
Proof.
  intros Hin Huniq. unfold metricsMap. rewrite metricsMap_fold_lookup.
  destruct (last _) as [m'|] eqn:E.
  - apply last_Some_elem_of, list_elem_of_filter in E as [Hn Hm'].
    by rewrite (Huniq m' Hm' Hn).
  - apply last_None in E.
    assert (m ∈ filter (fun m' => metric_name m' = metric_name m) rows) as Hf
      by (by apply list_elem_of_filter).
    rewrite E in Hf. by apply elem_of_nil in Hf.
Qed.

Lemma homeFilingWithData_zeros (db : Supabase) (filing : Filing) :
  homeFilingWithData (zeros_as_nulls db) filing = homeFilingWithData db filing.
Proof.
  unfold homeFilingWithData. cbn [zeros_as_nulls metrics_of keywords_of].
  by rewrite !metricsMap_zeros.
Qed.

Lemma pageFilingWithData_zeros (db : Supabase) (filing : Filing) :
  pageFilingWithData (zeros_as_nulls db) filing = pageFilingWithData db filing.
Proof.
  unfold pageFilingWithData. cbn [zeros_as_nulls metrics_of keywords_of].
  by rewrite !metricsMap_zeros.
Qed.

End FrontendFacts.

(** C8. A stored metric value of exactly 0 for revenue, net_income or
    total_assets reaches the UI as null from both page-assembly functions,
    and what the two functions return is the same as if every stored 0 were
    a stored NULL: a true zero cannot be told from a metric that was not
    found. *)
Theorem zero_metric_reads_as_null (db : Frontend.Supabase) :
  Frontend.getCompaniesWithFilings (Frontend.zeros_as_nulls db)
    = Frontend.getCompaniesWithFilings db
  ∧ (∀ ticker, Frontend.getCompanyByTicker (Frontend.zeros_as_nulls db) ticker
               = Frontend.getCompanyByTicker db ticker)
  ∧ (∀ rows m,
       m ∈ rows →
       (∀ m', m' ∈ rows → Schema.metric_name m' = Schema.metric_name m → m' = m) →
       Schema.metric_value m = Some 0 →
       (∀ company filing,
          company ∈ Frontend.getCompaniesWithFilings db →
          filing ∈ Frontend.home_filings company →
          Frontend.metrics_of db (Schema.filing_pk (Frontend.home_row filing)) = Some rows →
          (Schema.metric_name m = "revenue" → Frontend.home_total_revenue filing = None)
          ∧ (Schema.metric_name m = "net_income" → Frontend.home_net_income filing = None)
          ∧ (Schema.metric_name m = "total_assets" → Frontend.home_total_assets filing = None))
       ∧ (∀ ticker company filing,
          Frontend.getCompanyByTicker db ticker = Some company →
          filing ∈ Frontend.page_filings company →
          Frontend.metrics_of db (Schema.filing_pk (Frontend.page_row filing)) = Some rows →
          (Schema.metric_name m = "revenue" → Frontend.page_total_revenue filing = None)
          ∧ (Schema.metric_name m = "net_income" → Frontend.page_net_income filing = None)
          ∧ (Schema.metric_name m = "total_assets" → Frontend.page_total_assets filing = None))).
Proof.
  split; [|split].
  - unfold Frontend.getCompaniesWithFilings.
    cbn [Frontend.zeros_as_nulls Frontend.companies_by_ticker Frontend.filings_of].
    destruct (Frontend.companies_by_ticker db) as [companies [|]]; [done|].
    apply list_fmap_ext. intros _ company _. f_equal.
    apply list_fmap_ext. intros _ filing _. apply homeFilingWithData_zeros.
  - intros ticker. unfold Frontend.getCompanyByTicker.
    cbn [Frontend.zeros_as_nulls Frontend.company_like Frontend.filings_of].
    destruct (Frontend.company_like db ticker) as [[company|] [|]]; try done.
    do 2 f_equal. apply list_fmap_ext. intros _ filing _. apply pageFilingWithData_zeros.
  - intros rows m Hin Huniq Hzero.
    pose proof (metricsMap_lookup_unique rows m Hin Huniq) as Hlook.
    rewrite Hzero in Hlook. split.
    + intros company filing Hc Hf Hrows.
      unfold Frontend.getCompaniesWithFilings in Hc.
      destruct (Frontend.companies_by_ticker db) as [companies [|]];
        [by apply elem_of_nil in Hc|].
      apply list_elem_of_fmap in Hc as (c & -> & _). cbn in Hf.
      apply list_elem_of_fmap in Hf as (f & -> & _).
      unfold Frontend.homeFilingWithData in *.
      cbn [Frontend.home_row Frontend.home_total_revenue Frontend.home_net_income
           Frontend.home_total_assets] in *.
      rewrite Hrows. change (Frontend.or_empty (Some rows)) with rows.
      repeat split; intros <-; by rewrite Hlook.
    + intros ticker company filing Hc Hf Hrows.
      unfold Frontend.getCompanyByTicker in Hc.
      destruct (Frontend.company_like db ticker) as [[c|] [|]]; try done.
      injection Hc as <-. cbn in Hf.
      apply list_elem_of_fmap in Hf as (f & -> & _).
      unfold Frontend.pageFilingWithData in *.
      cbn [Frontend.page_row Frontend.page_total_revenue Frontend.page_net_income
           Frontend.page_total_assets] in *.
      rewrite Hrows. change (Frontend.or_empty (Some rows)) with rows.
      repeat split; intros <-; by rewrite Hlook.
Qed.

(** C9. On a non-empty list getLatestFiling returns the first element whose
    fiscal_year is the greatest of the list; on an empty or missing list it
    returns null; the list it was given is left as it was. *)
Theorem getLatestFiling_first_of_latest_year (filings : option (list Frontend.CardFiling)) :
  snd (Frontend.getLatestFiling filings) = filings
  ∧ match filings with
    | None | Some [] => fst (Frontend.getLatestFiling filings) = None
    | Some xs =>
        ∃ before f after,
          xs = (before ++ f :: after)%list
          ∧ fst (Frontend.getLatestFiling filings) = Some f
          ∧ (∀ g, g ∈ before → Frontend.fiscal_year g < Frontend.fiscal_year f)
          ∧ (∀ g, g ∈ after → Frontend.fiscal_year g <= Frontend.fiscal_year f)
    end.
Proof.
  destruct filings as [[|x xs]|]; cbn; [done| |done].
  split; [done|].
  destruct (later_fold xs [] [] x) as (before & f & after & E & Hf & H);
    [intros g Hg; by apply elem_of_nil in Hg ..|].
  exists before, f, after. cbn in E. rewrite Hf. done.
Qed.

(** C10. calculateGrowth never divides by zero: it returns null exactly
    when current is null, previous is null or previous is a zero, and
    otherwise the text of growth.toFixed(1), where growth is the Number
    ((current - previous) / Math.abs(previous)) * 100: the sign and the
    nearest number of tenths to its magnitude, the larger one on a tie,
    with one digit after the point; the text of the Number itself when it
    is NaN, infinite or of a magnitude from 1e21 on.  So 10045 after 10000
    gives 0.4: the Number computed lies below 0.45. *)
Theorem calculateGrowth_guards_zero (current previous : option Js.number) :
  Frontend.calculateGrowth current previous ≠ Js.DividesByZero
  ∧ (Frontend.calculateGrowth current previous = Js.Returns None ↔
     current = None ∨ previous = None ∨ ∃ sign, previous = Some (S754_zero sign))
  ∧ (∀ c p, current = Some c → previous = Some p → (∀ sign, p ≠ S754_zero sign) →
       let growth :=
         SFmul 53 1024 (SFdiv 53 1024 (SFsub 53 1024 c p) (SFabs p)) (Js.ofZ 100) in
       let digits := fun n => NilZero.string_of_uint (N.to_uint (Z.to_N n)) in
       ∃ text,
         Frontend.calculateGrowth current previous = Js.Returns (Some text)
         ∧ match growth with
           | S754_nan => text = "NaN"
           | S754_infinity sign => text = if sign then "-Infinity" else "Infinity"
           | S754_zero _ => text = "0.0"
           | S754_finite sign _ _ =>
               if Qle_bool (inject_Z (10 ^ 21)) (Qabs (Js.value growth))
               then text = Js.toString growth
               else ∃ n : Z,
                      (inject_Z n - (1 # 2) <= Qabs (Js.value growth) * 10
                       ∧ Qabs (Js.value growth) * 10 < inject_Z n + (1 # 2))%Q
                      ∧ text = (if sign then "-" else "")
                               +:+ digits (n / 10) +:+ "." +:+ digits (n mod 10)
           end)
  ∧ (Js.value (Js.ofZ 100) == 100)%Q
  ∧ Frontend.calculateGrowth (Some (Js.ofZ 150)) (Some (Js.ofZ 100))
    = Js.Returns (Some "50.0")
  ∧ Frontend.calculateGrowth (Some (Js.ofZ 10045)) (Some (Js.ofZ 10000))
    = Js.Returns (Some "0.4")
  ∧ Frontend.calculateGrowth (Some (Js.ofZ 1501000)) (Some (Js.ofZ 2000000))
    = Js.Returns (Some "-24.9")
  ∧ Frontend.calculateGrowth (Some (Js.ofZ 50)) (Some (Js.ofZ (-100)))
    = Js.Returns (Some "150.0")
  ∧ Frontend.calculateGrowth (Some (Js.ofZ (10 ^ 19))) (Some (Js.ofZ 1))
    = Js.Returns (Some "1e+21")
  ∧ Frontend.calculateGrowth (Some (S754_infinity false)) (Some (Js.ofZ 1))
    = Js.Returns (Some "Infinity")
  ∧ Frontend.calculateGrowth (Some (S754_infinity false)) (Some (S754_infinity false))
    = Js.Returns (Some "NaN").
Proof.
  assert (Hnz : ∀ p, (∀ sign, p ≠ S754_zero sign) → Js.isZero p = false).
  { intros p Hp. destruct (Js.isZero p) eqn:E; [|done].
    apply isZero_true in E as [sign ->]. by destruct (Hp sign). }
  split; [|split; [|split]].
  - unfold Frontend.calculateGrowth, Js.divide.
    destruct current as [c|], previous as [p|]; try done.
    destruct (Js.isZero p) eqn:E; [done|]. by rewrite isZero_abs, E.
  - unfold Frontend.calculateGrowth, Js.divide.
    destruct current as [c|], previous as [p|]; [|naive_solver..].
    destruct (Js.isZero p) eqn:E.
    + apply isZero_true in E as [sign ->]. split; [eauto|done].
    + rewrite isZero_abs, E. split; [done|].
      intros [|[|[sign [= ->]]]]; done.
  - intros c p -> -> Hp. cbn zeta.
    unfold Frontend.calculateGrowth, Js.divide.
    rewrite isZero_abs, (Hnz p Hp). eexists. split; [reflexivity|].
    apply toFixed_1.
  - repeat split; vm_compute; reflexivity.
Qed.

(** ** The store *)

Section TableFacts.
Import Schema Storage.
Context {R : Type} (conflict : R → R → bool) (merge : R → R → R).

Lemma conflicting_Some (new old : R) (rows : list R) :
  conflicting conflict new rows = Some old → old ∈ rows ∧ conflict old new = true.
Proof.
  unfold conflicting. intros [Hin Hc]%find_some. by rewrite list_elem_of_In.
Qed.

Lemma conflicting_None (new old : R) (rows : list R) :
  conflicting conflict new rows = None → old ∈ rows → conflict old new = false.
Proof.
  unfold conflicting. intros Hnone Hin%list_elem_of_In.
  exact (find_none _ _ Hnone _ Hin).
Qed.

Lemma update_conflicting_fmap {B} (g : R → B) (new : R) (rows : list R) :
  (∀ old, old ∈ rows → conflict old new = true → g (merge old new) = g old) →
  g <$> update_conflicting conflict merge new rows = g <$> rows.
Proof.
  induction rows as [|r rows IH]; intros H; cbn; [done|].
  destruct (conflict r new) eqn:E; cbn; f_equal.
  - apply H; [left|done].
  - apply IH. intros old Hold. apply H. by right.
Qed.

Lemma elem_of_update_conflicting (new x : R) (rows : list R) :
  x ∈ update_conflicting conflict merge new rows →
  x ∈ rows ∨ ∃ old, old ∈ rows ∧ conflict old new = true ∧ x = merge old new.
Proof.
  induction rows as [|r rows IH]; cbn; [by left|].
  destruct (conflict r new) eqn:E.
  - intros [->|Hx]%elem_of_cons.
    + right. exists r. split; [left|done].
    + left. by right.
  - intros [->|Hx]%elem_of_cons; [left; left|].
    destruct (IH Hx) as [Hin|(old & Hold & Hc & ->)]; [left; by right|].
    right. exists old. split; [by right|done].
Qed.

(** A row that conflicts with nothing written stays where it is. *)
Lemma update_conflicting_keeps (new x : R) (rows : list R) :
  x ∈ rows → conflict x new = false → x ∈ update_conflicting conflict merge new rows.
Proof.
  induction rows as [|r rows IH]; cbn; [done|].
  intros [->|Hx]%elem_of_cons Hc.
  - rewrite Hc. left.
  - destruct (conflict r new); right; auto.
Qed.

(** The update puts the written columns in place of the conflicting row. *)
Lemma update_conflicting_merged (new old : R) (rows : list R) :
  conflicting conflict new rows = Some old →
  merge old new ∈ update_conflicting conflict merge new rows.
Proof.
  unfold conflicting. induction rows as [|r rows IH]; cbn; [done|].
  destruct (conflict r new) eqn:E.
  - intros [= ->]. left.
  - intros H. right. auto.
Qed.

Context {K : Type} (ukey : R → option K).
Hypothesis conflict_sound :
  ∀ old new, conflict old new = true → ukey (merge old new) = ukey old.
Hypothesis conflict_complete :
  ∀ old new k, ukey old = Some k → ukey new = Some k → conflict old new = true.

Lemma unique_update (new : R) (rows : list R) :
  NoDup (omap ukey rows) → NoDup (omap ukey (update_conflicting conflict merge new rows)).
Proof.
  intros H. replace (omap ukey (update_conflicting conflict merge new rows))
    with (omap ukey rows); [done|].
  clear H. induction rows as [|r rows IH]; cbn; [done|].
  destruct (conflict r new) eqn:E; cbn.
  - by rewrite (conflict_sound _ _ E).
  - by rewrite IH.
Qed.

Lemma unique_insert (new : R) (rows : list R) :
  NoDup (omap ukey rows) → conflicting conflict new rows = None →
  NoDup (omap ukey (rows ++ [new])).
Proof.
  intros Hnd Hnone. rewrite omap_app. cbn. destruct (ukey new) as [k|] eqn:Ek.
  - apply NoDup_app. split; [done|]. split; [|apply NoDup_singleton].
    intros k' Hk' ->%list_elem_of_singleton.
    apply list_elem_of_omap in Hk' as (old & Hold & Hkold).
    pose proof (conflicting_None _ _ _ Hnone Hold) as Hc.
    rewrite (conflict_complete _ _ _ Hkold Ek) in Hc. done.
  - by rewrite app_nil_r.
Qed.

(** Under the constraint a complete key names one row. *)
Lemma unique_elem (rows : list R) (x y : R) (k : K) :
  NoDup (omap ukey rows) → x ∈ rows → y ∈ rows →
  ukey x = Some k → ukey y = Some k → x = y.
Proof.
  induction rows as [|r rows IH]; [by intros _ ?%elem_of_nil|].
  cbn. intros Hnd Hx Hy Hkx Hky.
  assert (Hrest : NoDup (omap ukey rows)).
  { destruct (ukey r); [by apply NoDup_cons in Hnd as [_ ?]|done]. }
  assert (Hhead : ∀ z, z ∈ rows → ukey z = Some k → ukey r = Some k → False).
  { intros z Hz Hkz Hkr. rewrite Hkr in Hnd. apply NoDup_cons in Hnd as [Hn _].
    apply Hn, list_elem_of_omap. eauto. }
  apply elem_of_cons in Hx as [->|Hx]; apply elem_of_cons in Hy as [->|Hy].
  - done.
  - destruct (Hhead y Hy Hky Hkx).
  - destruct (Hhead x Hx Hkx Hky).
  - by apply IH.
Qed.

End TableFacts.

Section StoreFacts.
Import Schema Text Pipeline Storage.

Lemma sql_eq_true {A} `{EqDecision A} (x y : option A) :
  sql_eq x y = true ↔ ∃ a, x = Some a ∧ y = Some a.
Proof.
  destruct x as [a|], y as [b|]; cbn; try (split; [done|by intros (? & ? & ?)]).
  rewrite bool_decide_eq_true. split; [intros ->; eauto|by intros (? & [= ->] & [= ->])].
Qed.

Lemma filing_exists_elem (s : Store) (f : uuid) :
  filing_exists s f = true ↔ f ∈ filing_pk <$> filings s.
Proof.
  unfold filing_exists. rewrite existsb_exists, list_elem_of_fmap. split.
  - intros (r & Hr%list_elem_of_In & Hpk%bool_decide_eq_true). eauto.
  - intros (r & -> & Hr%list_elem_of_In). exists r. by rewrite bool_decide_eq_true.
Qed.

Lemma filing_conflict_true (old new : Filing) :
  filing_conflict old new = true ↔
  ∃ k, filing_ukey old = Some k ∧ filing_ukey new = Some k.
Proof.
  unfold filing_conflict, filing_ukey.
  rewrite !andb_true_iff, !sql_eq_true, !bool_decide_eq_true. split.
  - intros [[[(c & -> & ->) ->] ->] (p & -> & ->)]. cbn. eauto.
  - intros (k & Ho & Hn).
    destruct (company_id old), (fiscal_period old), (company_id new),
      (fiscal_period new); cbn in *; try done.
    simplify_eq. eauto 10.
Qed.

Lemma metric_conflict_true (old new : FinancialMetric) :
  metric_conflict old new = true ↔
  ∃ k, metric_ukey old = Some k ∧ metric_ukey new = Some k.
Proof.
  unfold metric_conflict, metric_ukey.
  rewrite !andb_true_iff, !sql_eq_true, !bool_decide_eq_true. split.
  - intros [(f & -> & ->) ->]. cbn. eauto.
  - intros (k & Ho & Hn).
    destruct (metric_filing_id old), (metric_filing_id new); cbn in *; try done.
    simplify_eq. eauto 10.
Qed.

Lemma keyword_conflict_true (old new : RiskKeyword) :
  keyword_conflict old new = true ↔
  ∃ k, keyword_ukey old = Some k ∧ keyword_ukey new = Some k.
Proof.
  unfold keyword_conflict, keyword_ukey.
  rewrite !andb_true_iff, !sql_eq_true, !bool_decide_eq_true. split.
  - intros [[(f & -> & ->) ->] (sec & -> & ->)]. cbn. eauto.
  - intros (k & Ho & Hn).
    destruct (keyword_filing_id old), (section old), (keyword_filing_id new),
      (section new); cbn in *; try done.
    simplify_eq. eauto 10.
Qed.

Lemma filing_merge_ukey (old new : Filing) :
  filing_conflict old new = true → filing_ukey (merge_filing old new) = filing_ukey old.
Proof. intros (k & -> & <-)%filing_conflict_true. done. Qed.

Lemma metric_merge_ukey (old new : FinancialMetric) :
  metric_conflict old new = true → metric_ukey (merge_metric old new) = metric_ukey old.
Proof. intros (k & -> & <-)%metric_conflict_true. done. Qed.

Lemma keyword_merge_ukey (old new : RiskKeyword) :
  keyword_conflict old new = true → keyword_ukey (merge_keyword old new) = keyword_ukey old.
Proof. intros (k & -> & <-)%keyword_conflict_true. done. Qed.

Lemma filing_conflict_complete (old new : Filing) k :
  filing_ukey old = Some k → filing_ukey new = Some k → filing_conflict old new = true.
Proof. intros. apply filing_conflict_true. eauto. Qed.

Lemma metric_conflict_complete (old new : FinancialMetric) k :
  metric_ukey old = Some k → metric_ukey new = Some k → metric_conflict old new = true.
Proof. intros. apply metric_conflict_true. eauto. Qed.

Lemma keyword_conflict_complete (old new : RiskKeyword) k :
  keyword_ukey old = Some k → keyword_ukey new = Some k → keyword_conflict old new = true.
Proof. intros. apply keyword_conflict_true. eauto. Qed.

Lemma seeded_ok (cs : list Company) : store_ok (seeded cs).
Proof.
  split; cbn; try apply NoDup_nil_2; intros ? H; by apply elem_of_nil in H.
Qed.

Lemma metric_valid_mono (s s' : Store) (m : FinancialMetric) :
  (∀ f, filing_exists s f = true → filing_exists s' f = true) →
  metric_valid s m → metric_valid s' m.
Proof. intros Hmono [(f & Hf & He) Hn]. split; eauto. Qed.

Lemma keyword_valid_mono (s s' : Store) (k : RiskKeyword) :
  (∀ f, filing_exists s f = true → filing_exists s' f = true) →
  keyword_valid s k → keyword_valid s' k.
Proof. intros Hmono [(f & Hf & He) Hrest]. split; eauto. Qed.

Lemma filing_exists_same (s s' : Store) (f : uuid) :
  filing_pk <$> filings s' = filing_pk <$> filings s →
  filing_exists s' f = filing_exists s f.
Proof.
  intros E. apply eq_true_iff_eq. by rewrite !filing_exists_elem, E.
Qed.

Lemma upsert_filing_ok now company d s fid s' :
  store_ok s → upsert_filing now company d s = Some (fid, s') →
  store_ok s' ∧ filing_exists s' fid = true ∧ companies s' = companies s.
Proof.
  intros [Hpk Hfresh Hfu Hmu Hmv Hku Hkv]. unfold upsert_filing.
  destruct (company_exists s company); [|done].
  set (new := filing_row (next_uuid s) now (Some company) d).
  destruct (conflicting filing_conflict new (filings s)) as [old|] eqn:E;
    intros [= <- <-].
  - assert (Epk : filing_pk <$> update_conflicting filing_conflict merge_filing new (filings s)
                  = filing_pk <$> filings s)
      by (by apply update_conflicting_fmap).
    assert (Hsame : ∀ s0 f, filings s0 = update_conflicting filing_conflict merge_filing new (filings s) →
              filing_exists s0 f = filing_exists s f).
    { intros s0 f E0. apply filing_exists_same. by rewrite E0. }
    apply conflicting_Some in E as [Hold _].
    split; [split; cbn|split; [|done]].
    + by rewrite Epk.
    + by rewrite Epk.
    + apply unique_update; [apply filing_merge_ukey|done].
    + done.
    + intros m Hm. eapply metric_valid_mono; [|by apply Hmv].
      intros f Hf. by rewrite Hsame.
    + done.
    + intros k Hk. eapply keyword_valid_mono; [|by apply Hkv].
      intros f Hf. by rewrite Hsame.
    + rewrite Hsame by done. apply filing_exists_elem, list_elem_of_fmap. eauto.
  - assert (Hmono : ∀ s0 f, filings s0 = filings s ++ [new] →
              filing_exists s f = true → filing_exists s0 f = true).
    { intros s0 f E0. rewrite !filing_exists_elem, E0, fmap_app, elem_of_app. auto. }
    split; [split; cbn|split; [|done]].
    + rewrite fmap_app. apply NoDup_app. split; [done|]. split; [|apply NoDup_singleton].
      intros i Hi ->%list_elem_of_singleton. specialize (Hfresh _ Hi). cbn in Hfresh. lia.
    + intros i. rewrite fmap_app, elem_of_app.
      intros [Hi| ->%list_elem_of_singleton]; [specialize (Hfresh _ Hi)|cbn]; lia.
    + eapply unique_insert; [apply filing_conflict_complete|done|done].
    + done.
    + intros m Hm. eapply metric_valid_mono; [|by apply Hmv]. intros f. by apply Hmono.
    + done.
    + intros k Hk. eapply keyword_valid_mono; [|by apply Hkv]. intros f. by apply Hmono.
    + apply filing_exists_elem. cbn. rewrite fmap_app, elem_of_app. right. cbn. left.
Qed.

Lemma upsert_metric_ok now f name v u s s' :
  store_ok s → name ∈ TRACKED_METRICS →
  upsert_metric now f name v u s = Some s' →
  store_ok s' ∧ filings s' = filings s ∧ companies s' = companies s.
Proof.
  intros [Hpk Hfresh Hfu Hmu Hmv Hku Hkv] Hname. unfold upsert_metric.
  destruct (filing_exists s f) eqn:Hf; [|done].
  set (new := metric_row (next_uuid s) now f name v u).
  assert (Hnew : ∀ s0, filings s0 = filings s → metric_valid s0 new).
  { intros s0 E0. split; [|done]. exists f. split; [done|].
    rewrite <- Hf. apply filing_exists_same. by rewrite E0. }
  assert (Hmono : ∀ s0 f0, filings s0 = filings s →
            filing_exists s f0 = true → filing_exists s0 f0 = true).
  { intros s0 f0 E0. by rewrite (filing_exists_same s s0) by (by rewrite E0). }
  assert (Hmv' : ∀ s0 m, filings s0 = filings s → m ∈ financial_metrics s →
            metric_valid s0 m).
  { intros s0 m E0 Hm. eapply metric_valid_mono; [|by apply Hmv].
    intros f0. by apply Hmono. }
  assert (Hkv' : ∀ s0 k, filings s0 = filings s → k ∈ risk_keywords s →
            keyword_valid s0 k).
  { intros s0 k E0 Hk. eapply keyword_valid_mono; [|by apply Hkv].
    intros f0. by apply Hmono. }
  destruct (conflicting metric_conflict new (financial_metrics s)) as [old|] eqn:E;
    intros [= <-]; (split; [split; cbn|done]).
  - done.
  - done.
  - done.
  - apply unique_update; [apply metric_merge_ukey|done].
  - intros m [Hm|(o & Ho & Hc & ->)]%elem_of_update_conflicting.
    + by apply Hmv'.
    + by apply (Hnew s).
  - done.
  - intros k Hk. by apply Hkv'.
  - done.
  - intros i Hi. specialize (Hfresh _ Hi). lia.
  - done.
  - eapply unique_insert; [apply metric_conflict_complete|done|done].
  - intros m [Hm| ->%list_elem_of_singleton]%elem_of_app.
    + by apply Hmv'.
    + by apply Hnew.
  - done.
  - intros k Hk. by apply Hkv'.
Qed.

Lemma upsert_keyword_ok now f kw freq snippet s s' :
  store_ok s → kw ∈ TRACKED_KEYWORDS → 0 <= freq →
  upsert_keyword now f kw freq DEFAULT_SECTION snippet s = Some s' →
  store_ok s' ∧ filings s' = filings s ∧ companies s' = companies s.
Proof.
  intros [Hpk Hfresh Hfu Hmu Hmv Hku Hkv] Hname Hfreq. unfold upsert_keyword.
  destruct (filing_exists s f) eqn:Hf; [|done].
  set (new := keyword_row (next_uuid s) now f kw freq DEFAULT_SECTION snippet).
  assert (Hnew : ∀ s0, filings s0 = filings s → keyword_valid s0 new).
  { intros s0 E0. split; [|by eauto]. exists f. split; [done|].
    rewrite <- Hf. apply filing_exists_same. by rewrite E0. }
  assert (Hmono : ∀ s0 f0, filings s0 = filings s →
            filing_exists s f0 = true → filing_exists s0 f0 = true).
  { intros s0 f0 E0. by rewrite (filing_exists_same s s0) by (by rewrite E0). }
  assert (Hmv' : ∀ s0 m, filings s0 = filings s → m ∈ financial_metrics s →
            metric_valid s0 m).
  { intros s0 m E0 Hm. eapply metric_valid_mono; [|by apply Hmv].
    intros f0. by apply Hmono. }
  assert (Hkv' : ∀ s0 k, filings s0 = filings s → k ∈ risk_keywords s →
            keyword_valid s0 k).
  { intros s0 k E0 Hk. eapply keyword_valid_mono; [|by apply Hkv].
    intros f0. by apply Hmono. }
  destruct (conflicting keyword_conflict new (risk_keywords s)) as [old|] eqn:E;
    intros [= <-]; (split; [split; cbn|done]).
  - done.
  - done.
  - done.
  - done.
  - intros m Hm. by apply Hmv'.
  - apply unique_update; [apply keyword_merge_ukey|done].
  - intros k [Hk|(o & Ho & Hc & ->)]%elem_of_update_conflicting.
    + by apply Hkv'.
    + by apply (Hnew s).
  - done.
  - intros i Hi. specialize (Hfresh _ Hi). lia.
  - done.
  - done.
  - intros m Hm. by apply Hmv'.
  - eapply unique_insert; [apply keyword_conflict_complete|done|done].
  - intros k [Hk| ->%list_elem_of_singleton]%elem_of_app.
    + by apply Hkv'.
    + by apply Hnew.
Qed.

Lemma write_all_preserves {A} (write : A → Store → option Store) (P : Store → Prop)
    (xs : list A) (s s' : Store) :
  (∀ x s1 s2, x ∈ xs → P s1 → write x s1 = Some s2 → P s2) →
  P s → write_all write xs s = Some s' → P s'.
Proof.
  revert s. induction xs as [|x xs IH]; intros s Hstep Hs; cbn.
  - by intros [= <-].
  - destruct (write x s) as [s1|] eqn:E; [|done]. cbn. apply IH.
    + intros y ? ? Hy. apply Hstep. by right.
    + eapply Hstep; [left|done..].
Qed.

Lemma store_results_ok now cfg company data d s fid s' :
  store_ok s → store_results now cfg company data d s = Some (fid, s') →
  store_ok s' ∧ companies s' = companies s.
Proof.
  intros Hok. unfold store_results.
  destruct (upsert_filing now company data s) as [[f s1]|] eqn:E1; [|done].
  cbn [mbind option_bind].
  destruct (upsert_filing_ok _ _ _ _ _ _ Hok E1) as (Hok1 & _ & Hc1).
  destruct (write_all (write_metric now f) (extract_metrics cfg d) s1) as [s2|] eqn:E2;
    cbn [mbind option_bind]; [|done].
  assert (H2 : kept s1 s2).
  { eapply (write_all_preserves _ (kept s1)); [|done|exact E2].
    intros [name v] sa sb Hx (Hoka & Hfa & Hca) Hw. unfold write_metric in Hw. cbn in Hw.
    assert (Hn : name ∈ TRACKED_METRICS).
    { apply list_elem_of_fmap in Hx as (m & [= -> _] & Hm). done. }
    destruct (upsert_metric_ok _ _ _ _ _ _ _ Hoka Hn Hw) as (? & ? & ?).
    split; [done|]. split; congruence. }
  destruct (write_all (write_keyword now f) (scan_keywords cfg d) s2) as [s3|] eqn:E3;
    cbn [mbind option_bind]; [|done].
  intros [= <- <-].
  assert (H3 : kept s2 s3).
  { eapply (write_all_preserves _ (kept s2)); [|by destruct H2|exact E3].
    intros h sa sb Hx (Hoka & Hfa & Hca) Hw. unfold write_keyword in Hw.
    assert (Hn : hit_keyword h ∈ TRACKED_KEYWORDS).
    { apply list_elem_of_filter in Hx as [_ Hx].
      apply list_elem_of_fmap in Hx as (kw & -> & Hkw). done. }
    destruct (upsert_keyword_ok _ _ _ _ _ _ _ Hoka Hn (Nat2Z.is_nonneg _) Hw)
      as (? & ? & ?).
    split; [done|]. split; congruence. }
  destruct H2 as (_ & _ & ?), H3 as (? & _ & ?). split; [done|]. congruence.
Qed.

Lemma process_filing_ok now cfg company job s :
  store_ok s →
  store_ok (fst (process_filing now cfg company job s))
  ∧ companies (fst (process_filing now cfg company job s)) = companies s.
Proof.
  intros Hok. unfold process_filing. destruct (job_outcome job); cbn; try done.
  destruct (store_results _ _ _ _ _ _) as [[f s']|] eqn:E; cbn; [|done].
  eapply store_results_ok; done.
Qed.

Lemma process_filings_ok now cfg company jobs s :
  store_ok s →
  store_ok (fst (process_filings now cfg company jobs s))
  ∧ companies (fst (process_filings now cfg company jobs s)) = companies s.
Proof.
  revert s. induction jobs as [|job jobs IH]; intros s Hok; cbn; [done|].
  destruct (process_filing_ok now cfg company job s Hok) as [Hok1 Hc1].
  destruct (process_filing now cfg company job s) as [s1 t]. cbn in *.
  destruct (IH s1 Hok1) as [Hok2 Hc2].
  destruct (process_filings now cfg company jobs s1) as [s2 ts]. cbn in *.
  split; [done|congruence].
Qed.

Lemma process_companies_ok now cfg fetch cs s :
  store_ok s →
  store_ok (fst (process_companies now cfg fetch cs s))
  ∧ companies (fst (process_companies now cfg fetch cs s)) = companies s.
Proof.
  revert s. induction cs as [|c cs IH]; intros s Hok; cbn; [done|].
  destruct (process_filings_ok now cfg (company_pk c) (fetch c) s Hok) as [Hok1 Hc1].
  destruct (process_filings now cfg (company_pk c) (fetch c) s) as [s1 ts1]. cbn in *.
  destruct (IH s1 Hok1) as [Hok2 Hc2].
  destruct (process_companies now cfg fetch cs s1) as [s2 ts2]. cbn in *.
  split; [done|congruence].
Qed.

(** Every state the pipeline reaches satisfies the constraints' intent on
    the rows whose constrained columns are all present. *)
Lemma reachable_ok (cfg : Config) (s : Store) : reachable cfg s → store_ok s.
Proof.
  induction 1 as [cs|now fetch s _ IH]; [apply seeded_ok|].
  by apply process_companies_ok.
Qed.

Lemma NoDup_fmap_elem {A B} (g : A → B) (l : list A) (x y : A) :
  NoDup (g <$> l) → x ∈ l → y ∈ l → g x = g y → x = y.
Proof.
  intros Hnd [i Hi]%list_elem_of_lookup [j Hj]%list_elem_of_lookup Hg.
  assert (i = j) as ->; [|congruence].
  eapply NoDup_lookup; [exact Hnd|by rewrite list_lookup_fmap, Hi|].
  by rewrite list_lookup_fmap, Hj, Hg.
Qed.

(** ** Writing one filing *)

Lemma upsert_filing_succeeds now company d s :
  company_exists s company = true →
  ∃ fid s1 f,
    upsert_filing now company d s = Some (fid, s1)
    ∧ f ∈ filings s1 ∧ filing_pk f = fid
    ∧ company_id f = Some company
    ∧ filing_type f = data_filing_type d
    ∧ fiscal_year f = data_fiscal_year d
    ∧ fiscal_period f = data_fiscal_period d.
Proof.
  intros Hc. unfold upsert_filing. rewrite Hc.
  set (new := filing_row (next_uuid s) now (Some company) d).
  destruct (conflicting filing_conflict new (filings s)) as [old|] eqn:E.
  - eexists (filing_pk old), _, (merge_filing old new). split; [done|]. cbn.
    split; [by apply update_conflicting_merged|done].
  - eexists (next_uuid s), _, new. split; [done|]. cbn.
    split; [|done]. apply elem_of_app. right. left.
Qed.

Lemma upsert_metric_frame now f name v u s s' :
  upsert_metric now f name v u s = Some s' →
  filings s' = filings s ∧ risk_keywords s' = risk_keywords s.
Proof.
  unfold upsert_metric. destruct (filing_exists s f); [|done].
  destruct (conflicting _ _ _); by intros [= <-].
Qed.

Lemma upsert_keyword_frame now f kw freq sec snippet s s' :
  upsert_keyword now f kw freq sec snippet s = Some s' →
  filings s' = filings s ∧ financial_metrics s' = financial_metrics s.
Proof.
  unfold upsert_keyword. destruct (filing_exists s f); [|done].
  destruct (conflicting _ _ _); by intros [= <-].
Qed.

Lemma filing_exists_filings (s s' : Store) (f : uuid) :
  filings s' = filings s → filing_exists s' f = filing_exists s f.
Proof. unfold filing_exists. by intros ->. Qed.

Lemma upsert_metric_succeeds now f name v u s :
  filing_exists s f = true → ∃ s', upsert_metric now f name v u s = Some s'.
Proof.
  intros Hf. unfold upsert_metric. rewrite Hf. destruct (conflicting _ _ _); eauto.
Qed.

Lemma upsert_keyword_succeeds now f kw freq sec snippet s :
  filing_exists s f = true → ∃ s', upsert_keyword now f kw freq sec snippet s = Some s'.
Proof.
  intros Hf. unfold upsert_keyword. rewrite Hf. destruct (conflicting _ _ _); eauto.
Qed.

Lemma write_all_succeeds {A} (write : A → Store → option Store) (Q : Store → Prop)
    (xs : list A) (s : Store) :
  (∀ x s1, Q s1 → ∃ s2, write x s1 = Some s2 ∧ Q s2) →
  Q s → ∃ s', write_all write xs s = Some s' ∧ Q s'.
Proof.
  intros Hstep. revert s. induction xs as [|x xs IH]; intros s Hs; cbn; [eauto|].
  destruct (Hstep x s Hs) as (s1 & -> & Hs1). cbn. by apply IH.
Qed.

(** The row a metric write leaves behind. *)
Lemma upsert_metric_row now f name v u s s' :
  upsert_metric now f name v u s = Some s' →
  ∃ row, row ∈ financial_metrics s' ∧ metric_filing_id row = Some f
         ∧ metric_name row = name ∧ metric_value row = v.
Proof.
  unfold upsert_metric. destruct (filing_exists s f); [|done].
  set (new := metric_row (next_uuid s) now f name v u).
  destruct (conflicting metric_conflict new (financial_metrics s)) as [old|] eqn:E;
    intros [= <-]; cbn.
  - exists (merge_metric old new). split; [by apply update_conflicting_merged|done].
  - exists new. split; [|done]. apply elem_of_app. right. left.
Qed.

(** A metric write leaves the rows of other names alone. *)
Lemma upsert_metric_keeps now f name v u s s' row :
  upsert_metric now f name v u s = Some s' →
  row ∈ financial_metrics s → metric_name row ≠ name → row ∈ financial_metrics s'.
Proof.
  unfold upsert_metric. destruct (filing_exists s f); [|done].
  set (new := metric_row (next_uuid s) now f name v u).
  intros Hs' Hrow Hne.
  destruct (conflicting metric_conflict new (financial_metrics s)); injection Hs' as <-; cbn.
  - apply update_conflicting_keeps; [done|]. unfold metric_conflict.
    rewrite (bool_decide_eq_false_2 _ Hne). apply andb_false_r.
  - apply elem_of_app. by left.
Qed.

Lemma write_metrics_row now f (ms : list (string * option Z)) s s' name v :
  NoDup (fst <$> ms) → (name, v) ∈ ms →
  write_all (write_metric now f) ms s = Some s' →
  ∃ row, row ∈ financial_metrics s' ∧ metric_filing_id row = Some f
         ∧ metric_name row = name ∧ metric_value row = v.
Proof.
  revert s. induction ms as [|[n w] ms IH]; intros s Hnd Hin; [by apply elem_of_nil in Hin|].
  cbn [write_all]. destruct (write_metric now f (n, w) s) as [s1|] eqn:E; [|done].
  cbn [mbind option_bind]. intros Hrest.
  apply NoDup_cons in Hnd as [Hfresh Hnd]. cbn in Hfresh.
  apply elem_of_cons in Hin as [[= -> ->]|Hin]; [|by eapply IH].
  unfold write_metric in E. cbn in E.
  destruct (upsert_metric_row _ _ _ _ _ _ _ E) as (row & Hrow & Hf & Hn & Hv).
  exists row. split; [|done]. clear IH E.
  revert s1 Hrest Hrow. induction ms as [|[n' w'] ms IH]; intros s1; cbn [write_all].
  - by intros [= <-].
  - destruct (write_metric now f (n', w') s1) as [s2|] eqn:E; [|done].
    cbn [mbind option_bind]. intros Hrest Hrow.
    apply NoDup_cons in Hnd as [_ Hnd]. cbn in Hfresh.
    apply not_elem_of_cons in Hfresh as [Hne Hfresh].
    eapply IH; [done..|]. eapply upsert_metric_keeps; [exact E|done|].
    cbn. congruence.
Qed.

Lemma extract_metrics_names (cfg : Config) (d : Document) :
  fst <$> extract_metrics cfg d = TRACKED_METRICS ∧ NoDup TRACKED_METRICS.
Proof.
  split; [|compute_done].
  unfold extract_metrics. rewrite <- list_fmap_compose. apply list_fmap_id.
Qed.

Lemma no_label_no_value (cfg : Config) (d : Document) (metric : string) :
  (∀ p row, p ∈ label_patterns cfg metric → row ∈ doc_rows d →
            contains_ci p (fst row) = false) →
  canonical_value cfg d metric = None.
Proof.
  intros Hnone. unfold canonical_value, extract_metric, raw_metric_value.
  destruct (candidates cfg d metric) as [|c cs] eqn:E; [done|].
  assert (Hc : c ∈ candidates cfg d metric) by (rewrite E; left).
  apply elem_of_candidates in Hc as (p & row & Hp & Hrow & Hm & _).
  rewrite (Hnone p row Hp Hrow) in Hm. done.
Qed.

Lemma company_exists_elem (s : Store) (c : Company) :
  c ∈ companies s → company_exists s (company_pk c) = true.
Proof.
  intros Hc%list_elem_of_In. unfold company_exists. apply existsb_exists.
  exists c. by rewrite bool_decide_eq_true.
Qed.

End StoreFacts.

(** C3. When no label pattern of a tracked metric matches any row of a
    filing's document, extraction yields null without failing, the filing
    ends in the state stored, and the store holds a FinancialMetric row for
    that filing and metric whose value is NULL. *)
Theorem absent_metric_is_stored_as_null
    (now : Schema.timestamptz) (cfg : Pipeline.Config) (c : Schema.Company)
    (job : Storage.Job) (d : Pipeline.Document) (s : Storage.Store) (metric : string) :
  c ∈ Storage.companies s →
  Storage.job_outcome job = Storage.Parsed d →
  metric ∈ Schema.TRACKED_METRICS →
  (∀ p row, p ∈ Pipeline.label_patterns cfg metric → row ∈ Pipeline.doc_rows d →
            Text.contains_ci p (fst row) = false) →
  Pipeline.canonical_value cfg d metric = None
  ∧ ∃ s' f row,
      Storage.process_filing now cfg (Schema.company_pk c) job s = (s', Storage.stored)
      ∧ f ∈ Storage.filings s'
      ∧ Schema.company_id f = Some (Schema.company_pk c)
      ∧ Schema.filing_type f = Storage.data_filing_type (Storage.job_filing job)
      ∧ Schema.fiscal_year f = Storage.data_fiscal_year (Storage.job_filing job)
      ∧ Schema.fiscal_period f = Storage.data_fiscal_period (Storage.job_filing job)
      ∧ row ∈ Storage.financial_metrics s'
      ∧ Schema.metric_filing_id row = Some (Schema.filing_pk f)
      ∧ Schema.metric_name row = metric
      ∧ Schema.metric_value row = None.
Proof.
  intros Hc Hjob Hmetric Hnone.
  pose proof (no_label_no_value cfg d metric Hnone) as Hnull. split; [done|].
  destruct (upsert_filing_succeeds now (Schema.company_pk c) (Storage.job_filing job) s)
    as (fid & s1 & f & E1 & Hf & Hpk & Hcols); [by apply company_exists_elem|].
  assert (Hex : ∀ s0, Storage.filings s0 = Storage.filings s1 →
            Storage.filing_exists s0 fid = true).
  { intros s0 E0. rewrite (filing_exists_filings s1 s0) by done.
    apply filing_exists_elem, list_elem_of_fmap. eauto. }
  destruct (write_all_succeeds (Storage.write_metric now fid)
              (fun s0 => Storage.filings s0 = Storage.filings s1)
              (Pipeline.extract_metrics cfg d) s1) as (s2 & E2 & Hf2); [|done|].
  { intros [n v] sa Ha. unfold Storage.write_metric. cbn.
    destruct (upsert_metric_succeeds now fid n v Schema.DEFAULT_UNIT sa (Hex _ Ha))
      as [sb Hb].
    exists sb. split; [done|]. apply upsert_metric_frame in Hb as [-> _]. done. }
  destruct (write_all_succeeds (Storage.write_keyword now fid)
              (fun s0 => Storage.filings s0 = Storage.filings s1
                         ∧ Storage.financial_metrics s0 = Storage.financial_metrics s2)
              (Pipeline.scan_keywords cfg d) s2) as (s3 & E3 & Hf3 & Hm3); [|done|].
  { intros h sa [Ha Hma]. unfold Storage.write_keyword.
    destruct (upsert_keyword_succeeds now fid (Pipeline.hit_keyword h)
                (Z.of_nat (Pipeline.hit_frequency h)) Schema.DEFAULT_SECTION
                (Pipeline.hit_snippet h) sa (Hex _ Ha)) as [sb Hb].
    exists sb. split; [done|]. apply upsert_keyword_frame in Hb as [-> ->]. done. }
  destruct (write_metrics_row now fid (Pipeline.extract_metrics cfg d) s1 s2 metric None)
    as (row & Hrow & Hrf & Hrn & Hrv); [| |done|].
  { destruct (extract_metrics_names cfg d) as [-> Hnd]. exact Hnd. }
  { apply list_elem_of_fmap. exists metric. by rewrite Hnull. }
  exists s3, f, row. unfold Storage.process_filing, Storage.store_results.
  rewrite Hjob, E1. cbn [mbind option_bind]. rewrite E2. cbn [mbind option_bind].
  rewrite E3. cbn [mbind option_bind]. rewrite Hf3, Hm3, Hpk.
  destruct Hcols as (? & ? & ? & ?). done.
Qed.

Lemma absent_metric_is_stored_as_null_witness :
  Pipeline.canonical_value Samples.sample_config Samples.thousands_document "net_income"
    = None
  ∧ ∃ s' f row,
      Storage.process_filing 100 Samples.sample_config 1%nat Samples.thousands_job
        (Storage.seeded [Samples.apple]) = (s', Storage.stored)
      ∧ f ∈ Storage.filings s'
      ∧ Schema.company_id f = Some 1%nat
      ∧ Schema.filing_type f = "10-K"
      ∧ Schema.fiscal_year f = 2023
      ∧ Schema.fiscal_period f = Some "FY"
      ∧ row ∈ Storage.financial_metrics s'
      ∧ Schema.metric_filing_id row = Some (Schema.filing_pk f)
      ∧ Schema.metric_name row = "net_income"
      ∧ Schema.metric_value row = None.
Proof.
  apply (absent_metric_is_stored_as_null 100 Samples.sample_config Samples.apple
           Samples.thousands_job Samples.thousands_document
           (Storage.seeded [Samples.apple]) "net_income").
  - left.
  - reflexivity.
  - right. left.
  - intros p row Hp Hrow. cbn in Hp, Hrow.
    apply list_elem_of_singleton in Hp as ->.
    repeat (apply elem_of_cons in Hrow as [->|Hrow]; [reflexivity|]).
    by apply elem_of_nil in Hrow.
Defined.

(** A filing without fiscal period conflicts with no row: its upsert always
    inserts. *)
Lemma upsert_without_period_inserts now company d s :
  Storage.company_exists s company = true →
  Storage.data_fiscal_period d = None →
  Storage.upsert_filing now company d s
  = Some (Storage.next_uuid s,
          {| Storage.companies := Storage.companies s;
             Storage.filings :=
               Storage.filings s
               ++ [Storage.filing_row (Storage.next_uuid s) now (Some company) d];
             Storage.financial_metrics := Storage.financial_metrics s;
             Storage.risk_keywords := Storage.risk_keywords s;
             Storage.next_uuid := S (Storage.next_uuid s) |}).
Proof.
  intros Hc Hp. unfold Storage.upsert_filing. rewrite Hc.
  destruct (Storage.conflicting _ _ _) as [old|] eqn:E; [|done].
  apply conflicting_Some in E as [_ Hold].
  apply filing_conflict_true in Hold as (k & _ & Hk).
  unfold Storage.filing_ukey in Hk. cbn in Hk. by rewrite Hp in Hk.
Qed.

(** Among the filings whose company and fiscal period are present, the key
    (company, filing_type, fiscal_year, fiscal_period) names one row in every
    state the pipeline reaches. *)
Lemma complete_filing_key_is_unique (cfg : Pipeline.Config) (s : Storage.Store)
    (f g : Schema.Filing) :
  Storage.reachable cfg s →
  f ∈ Storage.filings s → g ∈ Storage.filings s →
  is_Some (Schema.company_id f) → is_Some (Schema.fiscal_period f) →
  Schema.filing_key f = Schema.filing_key g → f = g.
Proof.
  intros Hs%reachable_ok Hf Hg [c Hc] [p Hp] Hkey.
  unfold Schema.filing_key in Hkey. injection Hkey as Hc' Ht Hy Hp'.
  eapply (unique_elem Storage.filing_ukey (Storage.filings s) f g
            (c, Schema.filing_type f, Schema.fiscal_year f, p));
    [by destruct Hs|done|done|..].
  - unfold Storage.filing_ukey. by rewrite Hc, Hp.
  - unfold Storage.filing_ukey. by rewrite <- Hc', <- Hp', <- Ht, <- Hy, Hc, Hp.
Qed.

(** C5, at the failing input.  A 10-K filing whose fiscal_period is NULL:
    the [filings] table takes the same row twice, by two INSERT statements
    and by ingesting it in two runs, and then holds two rows with one key.
    With the period present the second INSERT is refused and the second run
    updates the row. *)
Theorem null_fiscal_period_is_stored_twice :
  let key := (Some 1%nat, "10-K", 2023, None) in
  let store0 := Storage.seeded [Samples.apple] in
  (∃ store1 store2,
     Storage.insert_filing 100 (Some 1%nat) (Samples.annual_report None) store0
       = Some store1
     ∧ Storage.insert_filing 200 (Some 1%nat) (Samples.annual_report None) store1
       = Some store2
     ∧ Schema.filing_key <$> Storage.filings store2 = [key; key])
  ∧ Schema.filing_key <$> Storage.filings (Samples.after_one_run None) = [key]
  ∧ Schema.filing_key <$> Storage.filings (Samples.after_two_runs None) = [key; key]
  ∧ Schema.filing_pk <$> Storage.filings (Samples.after_two_runs None) = [0%nat; 8%nat]
  ∧ (∃ store1,
     Storage.insert_filing 100 (Some 1%nat) (Samples.annual_report (Some "FY")) store0
       = Some store1
     ∧ Storage.insert_filing 200 (Some 1%nat) (Samples.annual_report (Some "FY")) store1
       = None)
  ∧ length (Storage.filings (Samples.after_two_runs (Some "FY"))) = 1%nat.
Proof.
  cbn zeta. split; [|split; [|split; [|split; [|split]]]].
  - eexists _, _. split; [vm_compute; reflexivity|].
    split; vm_compute; reflexivity.
  - vm_compute. reflexivity.
  - vm_compute. reflexivity.
  - vm_compute. reflexivity.
  - eexists. split; vm_compute; reflexivity.
  - vm_compute. reflexivity.
Qed.

(** A writer that leaves the fiscal_period of a 10-K filing NULL, as the
    table lets it: a second run adds a second Filing row and, under its new
    primary key, a second set of metric and keyword rows.  With the period
    present the second run leaves the three tables as the first run left
    them. *)
Lemma rerun_with_null_fiscal_period_adds_rows :
  (length (Storage.filings (Samples.after_one_run None)) = 1%nat
   ∧ length (Storage.financial_metrics (Samples.after_one_run None)) = 5%nat
   ∧ length (Storage.risk_keywords (Samples.after_one_run None)) = 2%nat)
  ∧ (length (Storage.filings (Samples.after_two_runs None)) = 2%nat
     ∧ length (Storage.financial_metrics (Samples.after_two_runs None)) = 10%nat
     ∧ length (Storage.risk_keywords (Samples.after_two_runs None)) = 4%nat)
  ∧ Samples.after_two_runs None ≠ Samples.after_one_run None
  ∧ Samples.after_two_runs (Some "FY") = Samples.after_one_run (Some "FY").
Proof.
  split; [by vm_compute|]. split; [by vm_compute|]. split.
  - intros E. apply (f_equal (fun s => length (Storage.filings s))) in E.
    vm_compute in E. discriminate.
  - vm_compute. reflexivity.
Qed.

(** C7. In every state the pipeline reaches, a RiskKeyword row refers to one
    and only one Filing row, no other row of the table has its
    (filing, keyword, section), and its frequency is a number that is at
    least 0. *)
Theorem risk_keyword_rows_are_well_formed
    (cfg : Pipeline.Config) (s : Storage.Store) (k : Schema.RiskKeyword) :
  Storage.reachable cfg s →
  k ∈ Storage.risk_keywords s →
  (∃ f, f ∈ Storage.filings s
        ∧ Schema.keyword_filing_id k = Some (Schema.filing_pk f)
        ∧ ∀ g, g ∈ Storage.filings s →
               Schema.keyword_filing_id k = Some (Schema.filing_pk g) → g = f)
  ∧ (∀ k', k' ∈ Storage.risk_keywords s →
           Schema.keyword_key k' = Schema.keyword_key k → k' = k)
  ∧ (∃ n, Schema.frequency k = Some n ∧ 0 <= n).
Proof.
  intros Hs%reachable_ok Hk.
  destruct Hs as [Hpk _ _ _ _ Hku Hkv].
  destruct (Hkv k Hk) as ((fid & Hfid & Hex) & Hsec & Hfreq & _).
  apply filing_exists_elem, list_elem_of_fmap in Hex as (f & -> & Hf).
  split; [|split; [|done]].
  - exists f. split; [done|]. split; [done|].
    intros g Hg Hgk. rewrite Hfid in Hgk. injection Hgk as Hgk.
    by apply (NoDup_fmap_elem Schema.filing_pk (Storage.filings s)).
  - intros k' Hk' Hkey. unfold Schema.keyword_key in Hkey.
    injection Hkey as Hf' Hkw' Hsec'.
    eapply (unique_elem Storage.keyword_ukey (Storage.risk_keywords s) k' k
              (Schema.filing_pk f, Schema.keyword k, Schema.DEFAULT_SECTION));
      [done|done|done|..].
    + unfold Storage.keyword_ukey. by rewrite Hf', Hsec', Hkw', Hfid, Hsec.
    + unfold Storage.keyword_ukey. by rewrite Hfid, Hsec.
Qed.

Lemma risk_keyword_rows_are_well_formed_witness :
  (∃ f, f ∈ Storage.filings (Samples.after_one_run (Some "FY"))
        ∧ Schema.keyword_filing_id Samples.cybersecurity_row = Some (Schema.filing_pk f)
        ∧ ∀ g, g ∈ Storage.filings (Samples.after_one_run (Some "FY")) →
               Schema.keyword_filing_id Samples.cybersecurity_row
                 = Some (Schema.filing_pk g) → g = f)
  ∧ (∀ k', k' ∈ Storage.risk_keywords (Samples.after_one_run (Some "FY")) →
           Schema.keyword_key k' = Schema.keyword_key Samples.cybersecurity_row →
           k' = Samples.cybersecurity_row)
  ∧ (∃ n, Schema.frequency Samples.cybersecurity_row = Some n ∧ 0 <= n).
Proof.
  apply (risk_keyword_rows_are_well_formed Samples.sample_config
           (Samples.after_one_run (Some "FY")) Samples.cybersecurity_row).
  - apply Storage.reachable_run, Storage.reachable_seeded.
  - apply list_elem_of_lookup. exists 0%nat. vm_compute. reflexivity.
Defined.

(** C6. The tracked metric names and the tracked keywords are exactly the
    two enumerated sets, and what extraction yields names nothing else: one
    result per tracked metric, and keyword hits on tracked keywords only. *)
Theorem tracked_vocabularies_are_fixed (cfg : Pipeline.Config) (d : Pipeline.Document) :
  (∀ name, name ∈ Schema.TRACKED_METRICS ↔
     name = "revenue" ∨ name = "net_income" ∨ name = "total_assets"
     ∨ name = "total_liabilities" ∨ name = "cash_and_equivalents")
  ∧ (∀ kw, kw ∈ Schema.TRACKED_KEYWORDS ↔
     kw = "supply chain" ∨ kw = "inflation" ∨ kw = "cybersecurity"
     ∨ kw = "litigation" ∨ kw = "regulation" ∨ kw = "competition"
     ∨ kw = "climate" ∨ kw = "pandemic" ∨ kw = "geopolitical"
     ∨ kw = "interest rate")
  ∧ NoDup Schema.TRACKED_METRICS
  ∧ NoDup Schema.TRACKED_KEYWORDS
  ∧ fst <$> Pipeline.extract_metrics cfg d = Schema.TRACKED_METRICS
  ∧ (∀ h, h ∈ Pipeline.scan_keywords cfg d →
       Pipeline.hit_keyword h ∈ Schema.TRACKED_KEYWORDS)
  ∧ (∀ s, Storage.reachable cfg s →
       (∀ m, m ∈ Storage.financial_metrics s →
             Schema.metric_name m ∈ Schema.TRACKED_METRICS)
       ∧ (∀ k, k ∈ Storage.risk_keywords s →
               Schema.keyword k ∈ Schema.TRACKED_KEYWORDS)).
Proof.
  split; [|split; [|split; [|split; [|split; [|split]]]]].
  - intros name. unfold Schema.TRACKED_METRICS.
    rewrite !elem_of_cons, elem_of_nil. tauto.
  - intros kw. unfold Schema.TRACKED_KEYWORDS.
    rewrite !elem_of_cons, elem_of_nil. tauto.
  - compute_done.
  - compute_done.
  - unfold Pipeline.extract_metrics. rewrite <- list_fmap_compose.
    apply list_fmap_id.
  - intros h [_ Hh]%list_elem_of_filter.
    apply list_elem_of_fmap in Hh as (kw & -> & Hkw). exact Hkw.
  - intros s [_ _ _ _ Hmv _ Hkv]%reachable_ok. split.
    + intros m Hm. by destruct (Hmv m Hm).
    + intros k Hk. by destruct (Hkv k Hk) as (_ & _ & _ & ?).
Qed.

(** ** Running the orchestrator again *)

Section AbsorbFacts.
Import Schema Storage.
Context {R K : Type} (conflict : R → R → bool) (merge : R → R → R) (ukey : R → option K).
Hypothesis conflict_iff :
  ∀ old new, conflict old new = true ↔ ∃ k, ukey old = Some k ∧ ukey new = Some k.
Hypothesis merge_ukey : ∀ old new, ukey (merge old new) = ukey new.
Hypothesis merge_idem : ∀ old new, merge (merge old new) new = merge old new.
Hypothesis merge_self : ∀ new, merge new new = new.









End AbsorbFacts.

Section RerunFacts.
Import Schema Text Pipeline Storage.











(** *** A settled filing is written without a change *)





(** *** Writing a filing settles it *)




(** *** Writing under another key leaves a settled row settled *)



















End RerunFacts.



(** ** Dashboard and cards *)

Section DashboardFacts.
Import Schema Text Frontend.

Lemma year_le_trans : Transitive year_le.
Proof. unfold year_le. intros a b c. lia. Qed.

Lemma year_le_total : Total year_le.
Proof. unfold year_le. intros a b. lia. Qed.

Lemma last_of_sorted (l : list CardFiling) (x : CardFiling) :
  StronglySorted year_le l → last l = Some x → ∀ g, g ∈ l → year_le g x.
Proof.
  induction l as [|a l IH]; [done|]. intros [Hl Ha]%StronglySorted_inv Hlast g Hg.
  destruct l as [|b l].
  - injection Hlast as <-. apply list_elem_of_singleton in Hg as ->.
    unfold year_le. lia.
  - rewrite last_cons_cons in Hlast.
    apply elem_of_cons in Hg as [->|Hg]; [|by apply IH].
    assert (Hx : x ∈ b :: l) by (by apply last_Some_elem_of).
    rewrite Forall_forall in Ha. by apply Ha.
Qed.

Lemma getSortedFilings_Permutation (filings : option (list CardFiling)) :
  getSortedFilings filings ≡ₚ or_empty filings.
Proof.
  destruct filings as [xs|]; cbn; [|done]. case_bool_decide as E.
  - by apply nil_length_inv in E as ->.
  - apply sortBy_Permutation.
Qed.

Lemma getSortedFilings_sorted (filings : option (list CardFiling)) :
  StronglySorted year_le (getSortedFilings filings).
Proof.
  destruct filings as [xs|]; cbn; [|constructor]. case_bool_decide; [constructor|].
  apply (sortBy_sorted fiscal_year).
Qed.

(** The filings of one fiscal year keep their order. *)
Lemma getSortedFilings_stable (filings : option (list CardFiling)) (year : Z) :
  filter (fun f => fiscal_year f = year) (getSortedFilings filings)
  = filter (fun f => fiscal_year f = year) (or_empty filings).
Proof.
  destruct filings as [xs|]; cbn; [|done]. case_bool_decide as E.
  - by apply nil_length_inv in E as ->.
  - apply (sortBy_filter fiscal_year).
Qed.

(** The last element is the last one of its fiscal year. *)
Lemma last_of_year (l : list CardFiling) (x : CardFiling) :
  last l = Some x → last (filter (fun f => fiscal_year f = fiscal_year x) l) = Some x.
Proof.
  destruct l as [|y l _] using rev_ind; [done|]. rewrite last_snoc. intros [= ->].
  rewrite filter_app, filter_cons, decide_True, filter_nil by done.
  apply last_snoc.
Qed.

Lemma filter_all {A} (P : A → Prop) `{∀ x, Decision (P x)} (l : list A) :
  (∀ x, x ∈ l → P x) → filter P l = l.
Proof.
  induction l as [|a l IH]; intros Hall; [done|]. rewrite filter_cons.
  rewrite decide_True by (apply Hall; left). f_equal. apply IH.
  intros x Hx. apply Hall. by right.
Qed.

Lemma selected_iff (company : CardCompany) (prev : list CardCompany) :
  existsb (fun c => bool_decide (card_id c = card_id company)) prev = true
  ↔ card_id company ∈ card_id <$> prev.
Proof.
  rewrite existsb_exists, list_elem_of_fmap. split.
  - intros (c & Hc%list_elem_of_In & E%bool_decide_eq_true). eauto.
  - intros (c & E & Hc%list_elem_of_In). exists c. by rewrite bool_decide_eq_true.
Qed.

Lemma totalFilings_from (companies : list CardCompany) (acc : nat) :
  fold_left (fun acc c => (acc + length (or_empty (card_filings c)))%nat) companies acc
  = (acc + totalFilings companies)%nat.
Proof.
  unfold totalFilings. revert acc. induction companies as [|c cs IH]; intros acc; cbn.
  - lia.
  - rewrite IH, (IH (length _)). lia.
Qed.

End DashboardFacts.

(** X1. getSortedFilings returns the filings of its argument, each as often as
    it occurs there, in ascending order of fiscal_year, those of one
    fiscal_year in the order they have in the argument, and nothing for a
    missing list; the card's latest filing, the last of them, is the last
    filing of the greatest fiscal_year in the argument, and is null only
    for a missing or empty list.  Three filings of one year stay as they
    are. *)
Theorem getSortedFilings_sorts (filings : option (list Frontend.CardFiling)) :
  Frontend.getSortedFilings filings ≡ₚ Frontend.or_empty filings
  ∧ StronglySorted Frontend.year_le (Frontend.getSortedFilings filings)
  ∧ (∀ year,
       filter (fun f => Frontend.fiscal_year f = year) (Frontend.getSortedFilings filings)
       = filter (fun f => Frontend.fiscal_year f = year) (Frontend.or_empty filings))
  ∧ (∀ latest, Frontend.latestFiling filings = Some latest →
       (∀ g, g ∈ Frontend.or_empty filings →
             Frontend.fiscal_year g <= Frontend.fiscal_year latest)
       ∧ last (filter (fun f => Frontend.fiscal_year f = Frontend.fiscal_year latest)
                 (Frontend.or_empty filings)) = Some latest)
  ∧ (Frontend.latestFiling filings = None ↔ Frontend.or_empty filings = [])
  ∧ Frontend.id <$> Frontend.getSortedFilings (Frontend.card_filings Examples.restated)
    = [41%nat; 42%nat; 43%nat]
  ∧ Frontend.id <$> Frontend.getSortedFilings (Frontend.card_filings Examples.aapl)
    = [12%nat; 11%nat].
Proof.
  pose proof (getSortedFilings_Permutation filings) as Hperm.
  pose proof (getSortedFilings_sorted filings) as Hsorted.
  split; [done|]. split; [done|]. split; [apply getSortedFilings_stable|].
  split; [|split; [|split; reflexivity]].
  - unfold Frontend.latestFiling. intros latest Hlast. split.
    + intros g Hg. rewrite <- Hperm in Hg. by apply (last_of_sorted _ _ Hsorted Hlast).
    + rewrite <- getSortedFilings_stable. by apply last_of_year.
  - unfold Frontend.latestFiling. rewrite last_None. split.
    + intros E. rewrite E in Hperm. by apply Permutation_nil_l in Hperm.
    + intros E. rewrite E in Hperm. by apply Permutation_nil_r in Hperm.
Qed.

(** X2. Selecting a company for comparison toggles it: afterwards its id is
    among the selected ones exactly when it was not before, every other
    company stays as it was, and selecting a company that was not selected
    twice gives the selection back. *)
Theorem handleSelectForComparison_toggles
    (company : Frontend.CardCompany) (prev : list Frontend.CardCompany) :
  let next := Frontend.handleSelectForComparison company prev in
  (Frontend.card_id company ∈ Frontend.card_id <$> next
   ↔ Frontend.card_id company ∉ Frontend.card_id <$> prev)
  ∧ (∀ c, Frontend.card_id c ≠ Frontend.card_id company → c ∈ next ↔ c ∈ prev)
  ∧ (Frontend.card_id company ∉ Frontend.card_id <$> prev →
     Frontend.handleSelectForComparison company next = prev).
Proof.
  cbn zeta.
  assert (Hnext : Frontend.handleSelectForComparison company prev
                  = if existsb (fun c => bool_decide (Frontend.card_id c = Frontend.card_id company)) prev
                    then filter (fun c => Frontend.card_id c ≠ Frontend.card_id company) prev
                    else prev ++ [company]) by reflexivity.
  rewrite Hnext. clear Hnext.
  destruct (existsb _ prev) eqn:E.
  - apply selected_iff in E. split; [|split].
    + split; [|done]. intros (c & Hid & [Hne _]%list_elem_of_filter)%list_elem_of_fmap.
      by destruct Hne.
    + intros c Hne. rewrite list_elem_of_filter. tauto.
    + done.
  - assert (Hnot : Frontend.card_id company ∉ Frontend.card_id <$> prev).
    { intros H%selected_iff. congruence. }
    split; [|split].
    + split; [done|]. intros _. rewrite fmap_app, elem_of_app. right. cbn. left.
    + intros c Hne. rewrite elem_of_app, list_elem_of_singleton. split; [|tauto].
      intros [?| ->]; [done|]. by destruct Hne.
    + intros _. unfold Frontend.handleSelectForComparison.
      assert (Hsel : existsb (fun c => bool_decide (Frontend.card_id c = Frontend.card_id company))
                       (prev ++ [company]) = true).
      { apply selected_iff. rewrite fmap_app, elem_of_app. right. cbn. left. }
      rewrite Hsel, filter_app, filter_all.
      * rewrite filter_cons, decide_False by (by intros H; apply H).
        rewrite filter_nil. apply app_nil_r.
      * intros c Hc Hid. apply Hnot. rewrite <- Hid. by apply list_elem_of_fmap_2.
Qed.

(** X3. The severities the risk panel gives the ten tracked keywords, in their
    order: "regulation" is low, since the map's key is "regulatory". *)
Theorem getSeverity_of_tracked_keywords :
  Frontend.getSeverity <$> Schema.TRACKED_KEYWORDS
  = [ Frontend.high; Frontend.medium; Frontend.high; Frontend.high; Frontend.low;
      Frontend.medium; Frontend.medium; Frontend.high; Frontend.high; Frontend.medium ]
  ∧ Frontend.getSeverity "regulation" = Frontend.low
  ∧ Frontend.getSeverity "Regulatory" = Frontend.high.
Proof. repeat split; vm_compute; reflexivity. Qed.

(** X4. The dashboard's counters: the companies with data are no more than the
    companies and no more than the filings, and the filing count is 0
    exactly when no company has data. *)
Theorem dashboard_counters (companies : list Frontend.CardCompany) :
  (Frontend.companiesWithData companies <= length companies)%nat
  ∧ (Frontend.companiesWithData companies <= Frontend.totalFilings companies)%nat
  ∧ (Frontend.totalFilings companies = 0%nat
     ↔ Frontend.companiesWithData companies = 0%nat).
Proof.
  induction companies as [|c cs (IH1 & IH2 & IH3)]; [done|].
  unfold Frontend.companiesWithData, Frontend.totalFilings in *. cbn [fold_left].
  rewrite totalFilings_from, filter_cons. unfold Frontend.totalFilings.
  destruct (Frontend.or_empty (Frontend.card_filings c)) as [|f fs] eqn:E.
  - rewrite decide_False by (by intros H; apply H). cbn. split; [lia|]. split; [lia|].
    exact IH3.
  - rewrite decide_True by done. cbn. split; [lia|]. split; [lia|]. lia.
Qed.

(** X5. The revenue growth of the detail views never divides by zero: it is
    null exactly when a revenue is missing, a zero or NaN, and otherwise
    the text of growth.toFixed(1) for the Number
    ((latest - previous) / previous) * 100.  The divisor is the previous
    revenue and not its magnitude: over a positive previous revenue the
    text is the one calculateGrowth returns, over a negative one the Number
    is the opposite of the card's. *)
Theorem revenueGrowth_guards_zero (latest previous : option Js.number) :
  Frontend.revenueGrowth latest previous ≠ Js.DividesByZero
  ∧ (Frontend.revenueGrowth latest previous = Js.Returns None ↔
     latest = None ∨ previous = None
     ∨ (∃ l, latest = Some l ∧ (l = S754_nan ∨ ∃ sign, l = S754_zero sign))
     ∨ (∃ p, previous = Some p ∧ (p = S754_nan ∨ ∃ sign, p = S754_zero sign)))
  ∧ (∀ l p, latest = Some l → previous = Some p →
       Js.truthy l = true → Js.truthy p = true →
       let growth := SFmul 53 1024 (SFdiv 53 1024 (SFsub 53 1024 l p) p) (Js.ofZ 100) in
       let card := SFmul 53 1024 (SFdiv 53 1024 (SFsub 53 1024 l p) (SFabs p)) (Js.ofZ 100) in
       Frontend.revenueGrowth latest previous = Js.Returns (Some (Js.toFixed 1 growth))
       ∧ Frontend.calculateGrowth latest previous = Js.Returns (Some (Js.toFixed 1 card))
       ∧ (SFltb (S754_zero false) p = true → growth = card)
       ∧ (SFltb p (S754_zero false) = true → growth = SFopp card))
  ∧ Frontend.revenueGrowth (Some (Js.ofZ 10045)) (Some (Js.ofZ 10000))
    = Js.Returns (Some "0.4")
  ∧ Frontend.revenueGrowth (Some (Js.ofZ 50)) (Some (Js.ofZ (-100)))
    = Js.Returns (Some "-150.0").
Proof.
  split; [|split; [|split]].
  - unfold Frontend.revenueGrowth, Js.divide.
    destruct latest as [l|], previous as [p|]; try done.
    destruct (Js.truthy l), (Js.truthy p) eqn:E; try done. cbn [andb].
    by rewrite (truthy_not_zero p E).
  - unfold Frontend.revenueGrowth, Js.divide.
    destruct latest as [l|], previous as [p|]; [|naive_solver..].
    destruct (Js.truthy l) eqn:El, (Js.truthy p) eqn:Ep; cbn [andb].
    + rewrite (truthy_not_zero p Ep). split; [done|].
      intros [|[|[(l' & [= <-] & H)|(p' & [= <-] & H)]]]; try done.
      * apply falsy in H. congruence.
      * apply falsy in H. congruence.
    + split; [|done]. intros _. do 3 right. exists p. split; [done|]. by apply falsy.
    + split; [|done]. intros _. right. right. left. exists l. split; [done|]. by apply falsy.
    + split; [|done]. intros _. do 3 right. exists p. split; [done|]. by apply falsy.
  - intros l p -> -> Hl Hp. cbn zeta.
    unfold Frontend.revenueGrowth, Frontend.calculateGrowth, Js.divide.
    rewrite Hl, Hp, isZero_abs, (truthy_not_zero p Hp). cbn [andb].
    split; [done|]. split; [done|]. split.
    + intros Hpos. destruct p as [[]|[]| |[] m e]; done.
    + intros Hneg. destruct p as [[]|[]| |[] m e]; try done.
      * change (SFabs (S754_infinity true)) with (SFopp (S754_infinity true)).
        fold (Js.over (SFsub 53 1024 l (S754_infinity true)) (SFopp (S754_infinity true))).
        rewrite over_opp_r. fold (Js.times (SFopp (Js.over (SFsub 53 1024 l (S754_infinity true))
          (S754_infinity true))) (Js.ofZ 100)).
        by rewrite times_opp_l, SFopp_involutive.
      * change (SFabs (S754_finite true m e)) with (SFopp (S754_finite true m e)).
        fold (Js.over (SFsub 53 1024 l (S754_finite true m e)) (SFopp (S754_finite true m e))).
        rewrite over_opp_r.
        fold (Js.times (SFopp (Js.over (SFsub 53 1024 l (S754_finite true m e))
          (S754_finite true m e))) (Js.ofZ 100)).
        by rewrite times_opp_l, SFopp_involutive.
  - split; vm_compute; reflexivity.
Qed.

(** ** The view controller of the dashboard *)

Section ViewFacts.
Import Schema Text Frontend Views.

Lemma prefix_refl (s : string) : String.prefix s s = true.
Proof. induction s as [|c s IH]; [done|]. cbn. by destruct (ascii_dec c c). Qed.

Lemma prefix_nil (s : string) : String.prefix "" s = true.
Proof. by destruct s. Qed.

Lemma prefix_empty (s : string) : String.prefix s "" = true → s = "".
Proof. by destruct s. Qed.

(** Where [q] occurs, whatever occurs in [q] does. *)
Lemma occurs_trans (p q s : string) :
  occurs p q = true → occurs q s = true → occurs p s = true.
Proof.
  revert s. induction q as [|c q IH]; intros s; cbn [occurs].
  - rewrite orb_false_r. intros ->%prefix_empty _. destruct s; done.
  - intros [H|H]%orb_true_iff Hs.
    + by apply (occurs_shorter _ _ _ H).
    + apply IH; [done|]. by apply occurs_drop_head in Hs.
Qed.

Lemma append_String (c : ascii) (a b : string) :
  String c a +:+ b = String c (a +:+ b).
Proof. reflexivity. Qed.

Lemma lower_app (a b : string) : lower (a +:+ b) = lower a +:+ lower b.
Proof.
  induction a as [|c a IH]; [done|]. cbn [lower]. rewrite !append_String. cbn [lower].
  by rewrite IH.
Qed.

Lemma lower_ascii_space (c : ascii) : Ascii.is_space (lower_ascii c) = Ascii.is_space c.
Proof.
  destruct c as [[] [] [] [] [] [] [] []]; reflexivity.
Qed.

Lemma trimStart_lower (s : string) : trimStart (lower s) = lower (trimStart s).
Proof.
  induction s as [|c s IH]; [done|]. cbn. rewrite lower_ascii_space.
  by destruct (Ascii.is_space c).
Qed.

Lemma trimEnd_lower (s : string) : trimEnd (lower s) = lower (trimEnd s).
Proof.
  induction s as [|c s IH]; [done|]. cbn. rewrite IH, lower_ascii_space.
  destruct (trimEnd s); cbn; [by destruct (Ascii.is_space c)|done].
Qed.

(** Folding the case and trimming commute: the guard of [filteredCompanies]
    and its query agree on what is blank. *)
Lemma trim_lower (s : string) : trim (lower s) = lower (trim s).
Proof. unfold trim. by rewrite trimStart_lower, trimEnd_lower. Qed.

Lemma trimEnd_prefix_app (a b : string) :
  String.prefix (trimEnd a) (trimEnd (a +:+ b)) = true.
Proof.
  induction a as [|c a IH]; [apply prefix_nil|]. rewrite append_String. cbn.
  destruct (trimEnd a) as [|d t] eqn:Ea.
  - destruct (Ascii.is_space c); [apply prefix_nil|].
    destruct (trimEnd (a +:+ b)); cbn; by destruct (ascii_dec c c).
  - destruct (trimEnd (a +:+ b)) as [|e u]; [done|]. cbn.
    by destruct (ascii_dec c c).
Qed.

Lemma trim_prefix_app (a b : string) :
  String.prefix (trim a) (trim (a +:+ b)) = true.
Proof.
  unfold trim. induction a as [|c a IH]; [apply prefix_nil|].
  rewrite append_String. cbn [trimStart].
  destruct (Ascii.is_space c); [done|]. rewrite <- append_String.
  apply (trimEnd_prefix_app (String c a) b).
Qed.

Lemma filter_sublist_impl {A} (P Q : A → Prop) `{∀ x, Decision (P x)} `{∀ x, Decision (Q x)}
    (l : list A) :
  (∀ x, x ∈ l → P x → Q x) → filter P l `sublist_of` filter Q l.
Proof.
  induction l as [|a l IH]; intros Himp; [done|]. rewrite !filter_cons.
  assert (IH' : filter P l `sublist_of` filter Q l).
  { apply IH. intros x Hx. apply Himp. by right. }
  destruct (decide (P a)) as [Hp|Hp].
  - rewrite decide_True by (apply Himp; [left|done]). by apply sublist_skip.
  - destruct (decide (Q a)); [by apply sublist_cons|done].
Qed.

Lemma matchesQuery_narrows (query query' : string) (company : CardCompany) :
  occurs query query' = true →
  matchesQuery query' company = true → matchesQuery query company = true.
Proof.
  intros Hq. unfold matchesQuery. rewrite !orb_true_iff.
  intros [[H|H]|H].
  - left; left. by apply (occurs_trans _ _ _ Hq).
  - left; right. by apply (occurs_trans _ _ _ Hq).
  - right. destruct (card_sector company) as [sector|]; [|done].
    apply andb_true_iff in H as [Hne H]. rewrite Hne. cbn.
    by apply (occurs_trans _ _ _ Hq).
Qed.

Lemma filteredCompanies_sublist (companies : list CardCompany) (q : string) :
  filteredCompanies companies q `sublist_of` companies.
Proof.
  unfold filteredCompanies. case_bool_decide; [done|]. apply sublist_filter.
Qed.

Lemma filteredCompanies_elem (companies : list CardCompany) (q : string) (c : CardCompany) :
  c ∈ filteredCompanies companies q → c ∈ companies.
Proof. intros H. eapply elem_of_sublist; [exact H|apply filteredCompanies_sublist]. Qed.

Lemma filteredCompanies_narrower (companies : list CardCompany) (q q' : string) :
  occurs (trim (lower q)) (trim (lower q')) = true →
  filteredCompanies companies q' `sublist_of` filteredCompanies companies q.
Proof.
  intros Hq. unfold filteredCompanies.
  destruct (decide (trim q' = "")) as [Eq'|Nq'].
  - rewrite (bool_decide_true _ Eq').
    rewrite !trim_lower, Eq' in Hq. cbn in Hq. rewrite orb_false_r in Hq.
    apply prefix_empty in Hq.
    assert (Eq : trim q = "").
    { destruct (trim q); [done|]. discriminate Hq. }
    by rewrite (bool_decide_true _ Eq).
  - rewrite (bool_decide_false _ Nq'). case_bool_decide.
    + apply sublist_filter.
    + apply filter_sublist_impl. intros c _. by apply matchesQuery_narrows.
Qed.

(** The selection keeps its ids distinct. *)
Lemma handleSelectForComparison_NoDup (company : CardCompany) (prev : list CardCompany) :
  NoDup (card_id <$> prev) →
  NoDup (card_id <$> handleSelectForComparison company prev).
Proof.
  intros Hnd. unfold handleSelectForComparison.
  destruct (existsb _ prev) eqn:E.
  - eapply sublist_NoDup; [exact Hnd|]. apply fmap_sublist, sublist_filter.
  - rewrite fmap_app. apply NoDup_app. split; [done|]. split; [|apply NoDup_singleton].
    intros i Hi ->%list_elem_of_singleton.
    apply selected_iff in Hi. congruence.
Qed.

Lemma handleSelectForComparison_elem (company c : CardCompany) (prev : list CardCompany) :
  c ∈ handleSelectForComparison company prev → c ∈ prev ∨ c = company.
Proof.
  unfold handleSelectForComparison. destruct (existsb _ prev).
  - intros [_ H]%list_elem_of_filter. by left.
  - intros [H|H%list_elem_of_singleton]%elem_of_app; [by left|by right].
Qed.

Lemma handleSelectForComparison_nonempty (company : CardCompany) (prev : list CardCompany) :
  handleSelectForComparison company prev ≠ [] ∨ prev ≠ [].
Proof.
  unfold handleSelectForComparison. destruct (existsb _ prev) eqn:E.
  - right. intros ->. done.
  - left. by destruct prev.
Qed.

(** Taking a company whose id occurs once out of a list shortens the list
    by one. *)
Lemma remove_length (c : CardCompany) (l : list CardCompany) :
  NoDup (card_id <$> l) → c ∈ l →
  S (length (filter (fun c' => card_id c' ≠ card_id c) l)) = length l.
Proof.
  induction l as [|a l IH]; intros Hnd Hc; [by apply elem_of_nil in Hc|].
  rewrite fmap_cons in Hnd. apply NoDup_cons in Hnd as [Ha Hnd].
  rewrite filter_cons. destruct (decide (card_id a ≠ card_id c)) as [Hne|He].
  - cbn. f_equal. apply IH; [done|].
    apply elem_of_cons in Hc as [->|Hc]; [done|done].
  - apply dec_stable in He. cbn. f_equal. rewrite filter_all; [done|].
    intros x Hx E. apply Ha. rewrite He, <- E. by apply list_elem_of_fmap_2.
Qed.

End ViewFacts.

(** X6. Whatever the user does on the dashboard, no company is selected for
    comparison twice, the comparison view shows at least two companies and
    is shown in comparison mode only, the selection is empty outside
    comparison mode, and the selected companies and the company of the
    detail view are companies of the page. *)
Theorem comparison_needs_two_companies
    (companies : list Frontend.CardCompany) (s : Views.State) :
  Views.reachable companies s →
  NoDup (Frontend.card_id <$> Views.selectedForComparison s)
  ∧ (Views.view s = Views.compare →
     (2 <= length (Views.selectedForComparison s))%nat ∧ Views.comparisonMode s = true)
  ∧ (Views.comparisonMode s = false → Views.selectedForComparison s = [])
  ∧ (∀ c, c ∈ Views.selectedForComparison s → c ∈ companies)
  ∧ (∀ c, Views.selectedCompany s = Some c → c ∈ companies).
Proof.
  assert (Hsel : ∀ s c,
    NoDup (Frontend.card_id <$> Views.selectedForComparison s)
    ∧ (Views.view s = Views.compare →
       (2 <= length (Views.selectedForComparison s))%nat ∧ Views.comparisonMode s = true)
    ∧ (Views.comparisonMode s = false → Views.selectedForComparison s = [])
    ∧ (∀ c, c ∈ Views.selectedForComparison s → c ∈ companies)
    ∧ (∀ c, Views.selectedCompany s = Some c → c ∈ companies) →
    Views.view s = Views.grid → Views.comparisonMode s = true → c ∈ companies →
    NoDup (Frontend.card_id <$> Views.selectedForComparison (Views.onSelect c s))
    ∧ (Views.view (Views.onSelect c s) = Views.compare →
       (2 <= length (Views.selectedForComparison (Views.onSelect c s)))%nat
       ∧ Views.comparisonMode (Views.onSelect c s) = true)
    ∧ (Views.comparisonMode (Views.onSelect c s) = false →
       Views.selectedForComparison (Views.onSelect c s) = [])
    ∧ (∀ c', c' ∈ Views.selectedForComparison (Views.onSelect c s) → c' ∈ companies)
    ∧ (∀ c', Views.selectedCompany (Views.onSelect c s) = Some c' → c' ∈ companies)).
  { intros s0 c (Hnd & Hcmp & Hmode & Hin & Hone) Hv Hm Hc. cbn.
    split; [by apply handleSelectForComparison_NoDup|].
    split; [by rewrite Hv|]. split; [by rewrite Hm|]. split; [|done].
    intros c' [H| ->]%handleSelectForComparison_elem; [by apply Hin|done]. }
  induction 1 as [|s e Hreach IH Hen].
  - cbn. split; [constructor|]. split; [done|]. split; [done|].
    split; [intros c Hc; by apply elem_of_nil in Hc|done].
  - pose proof IH as (Hnd & Hcmp & Hmode & Hin & Hone).
    destruct e as [q| |c|c|c| | |c|]; cbn in Hen.
    + done.
    + cbn. unfold Views.handleToggleComparisonMode.
      destruct (Views.comparisonMode s) eqn:Em; cbn.
      * split; [constructor|]. split; [by rewrite Hen|]. split; [done|].
        split; [intros c Hc; by apply elem_of_nil in Hc|done].
      * rewrite (Hmode eq_refl). split; [constructor|]. split; [by rewrite Hen|].
        split; [done|]. split; [intros c Hc; by apply elem_of_nil in Hc|done].
    + destruct Hen as [Hv Hc%filteredCompanies_elem].
      cbn [Views.handle]. unfold Views.handleClick.
      pose proof (Hsel s c IH Hv) as Hon.
      destruct (Views.comparisonMode s) eqn:Em.
      * by apply Hon.
      * cbn. rewrite Em. split; [done|]. split; [done|]. split; [done|].
        split; [done|]. by intros c' [= <-].
    + destruct Hen as (Hv & Em & Hc%filteredCompanies_elem).
      cbn [Views.handle Views.handleCheckboxClick]. by apply (Hsel s c IH).
    + destruct Hen as (Hv & Em & Hc). cbn [Views.handle]. apply (Hsel s c IH); auto.
    + destruct Hen as (Hv & Em & Hlen). cbn [Views.handle].
      unfold Views.handleStartComparison. rewrite bool_decide_true by done. cbn.
      done.
    + cbn [Views.handle]. unfold Views.handleBack. case_bool_decide as Ev; cbn.
      * split; [constructor|]. split; [done|]. split; [done|].
        split; [intros c Hc; by apply elem_of_nil in Hc|done].
      * done.
    + destruct Hen as [Hv Hc]. destruct (Hcmp Hv) as [Hlen Em].
      cbn [Views.handle]. unfold Views.handleRemoveFromComparison. cbn.
      pose proof (remove_length c _ Hnd Hc) as Hrm.
      split; [eapply sublist_NoDup; [exact Hnd|apply fmap_sublist, sublist_filter]|].
      split; [|split; [by rewrite Em|split; [|done]]].
      * case_bool_decide as E2; [done|]. intros _. split; [lia|done].
      * intros c' [_ H]%list_elem_of_filter. by apply Hin.
    + cbn. done.
Qed.

Lemma comparison_needs_two_companies_witness :
  NoDup (Frontend.card_id <$> Views.selectedForComparison Examples.comparing)
  ∧ (Views.view Examples.comparing = Views.compare →
     (2 <= length (Views.selectedForComparison Examples.comparing))%nat
     ∧ Views.comparisonMode Examples.comparing = true)
  ∧ (Views.comparisonMode Examples.comparing = false →
     Views.selectedForComparison Examples.comparing = [])
  ∧ (∀ c, c ∈ Views.selectedForComparison Examples.comparing →
          c ∈ [Examples.aapl; Examples.msft])
  ∧ (∀ c, Views.selectedCompany Examples.comparing = Some c →
          c ∈ [Examples.aapl; Examples.msft]).
Proof.
  apply (comparison_needs_two_companies [Examples.aapl; Examples.msft] Examples.comparing).
  apply Views.reachable_handle.
  - apply Views.reachable_handle.
    + apply Views.reachable_handle.
      * apply Views.reachable_handle; [apply Views.reachable_initial|reflexivity].
      * split; [reflexivity|]. left.
    + split; [reflexivity|]. right. left.
  - split; [reflexivity|]. split; [reflexivity|]. vm_compute. lia.
Defined.

(** X7. Back from the detail view, a click on a card before the scheduled
    timeout runs, and then the timeout: the dashboard is in the detail view
    with no company selected, where the page shows neither a company nor a
    Back button and no handler of the dashboard can run any more.  When no
    card is clicked while a timeout is pending, the detail view always has
    its company. *)
Theorem detail_view_can_lose_its_company
    (company : Frontend.CardCompany) (companies : list Frontend.CardCompany) :
  let s := Views.handle Views.Timeout
             (Views.handle (Views.ClickCard company)
                (Views.handle Views.Back
                   (Views.handle (Views.ClickCard company) Views.initial))) in
  (Views.reachable (company :: companies) s
   ∧ Views.view s = Views.detail
   ∧ Views.selectedCompany s = None
   ∧ ∀ e, ¬ Views.enabled (company :: companies) s e)
  ∧ ∀ s', Views.reachable_unhurried (company :: companies) s' →
          Views.view s' = Views.detail → Views.selectedCompany s' ≠ None.
Proof.
  cbn zeta. split; [split; [|split; [done|split; [done|]]]|].
  - assert (Hc : company ∈ Views.filteredCompanies (company :: companies) "") by left.
    apply Views.reachable_handle; [|vm_compute; lia].
    apply Views.reachable_handle; [|by split].
    apply Views.reachable_handle; [|right; by split].
    apply Views.reachable_handle; [|by split].
    apply Views.reachable_initial.
  - change (Views.handle Views.Timeout _)
      with {| Views.selectedCompany := None;
              Views.view := Views.detail;
              Views.searchQuery := "";
              Views.comparisonMode := false;
              Views.selectedForComparison := [];
              Views.timeouts := 0%nat |}.
    intros e. destruct e; cbn; try (intros H; decompose [and or] H; done). lia.
  - intros s' Hs'.
    assert (Hinv : Views.view s' = Views.detail →
                   Views.selectedCompany s' ≠ None ∧ Views.timeouts s' = 0%nat);
      [|intros Hv; by apply Hinv].
    induction Hs' as [|s e _ IH Hen Hcalm]; [done|].
    destruct e as [q| |c|c|c| | |c|]; cbn in Hen; cbn [Views.handle].
    + cbn. intros Hv. rewrite Hv in Hen. done.
    + unfold Views.handleToggleComparisonMode.
      destruct (Views.comparisonMode s); cbn; intros Hv; rewrite Hv in Hen; done.
    + destruct Hen as [Hv _]. unfold Views.handleClick.
      destruct (Views.comparisonMode s); cbn.
      * intros Hv'. rewrite Hv in Hv'. done.
      * intros _. split; [done|]. by apply (Hcalm c).
    + destruct Hen as (Hv & _). cbn. intros Hv'. rewrite Hv in Hv'. done.
    + destruct Hen as (Hv & _). cbn. intros Hv'. rewrite Hv in Hv'. done.
    + destruct Hen as (Hv & _). unfold Views.handleStartComparison.
      case_bool_decide; cbn; [done|]. intros Hv'. rewrite Hv in Hv'. done.
    + unfold Views.handleBack. case_bool_decide; cbn; done.
    + destruct Hen as [Hv _]. cbn. rewrite Hv. case_bool_decide; done.
    + cbn. intros Hv. destruct (IH Hv) as [_ Ht]. lia.
Qed.

(** X8. On texts of ASCII characters, the search keeps the companies in
    their order and shows them all for a blank query; it finds every
    company whose ticker, name or sector contains the query, letter case
    and surrounding blanks apart; and a longer query never brings a company
    back: the companies found for a query that continues another one are
    among those found for the other one. *)
Theorem search_narrows_as_the_query_grows
    (companies : list Frontend.CardCompany) (query more : string) :
  Views.isAscii query = true →
  Views.isAscii more = true →
  Forall (fun c => Views.asciiCompany c = true) companies →
  Views.filteredCompanies companies query `sublist_of` companies
  ∧ (Views.trim query = "" → Views.filteredCompanies companies query = companies)
  ∧ (∀ c, c ∈ companies →
       Text.occurs (Text.lower (Views.trim query)) (Text.lower (Frontend.card_ticker c)) = true
       ∨ Text.occurs (Text.lower (Views.trim query)) (Text.lower (Frontend.card_name c)) = true
       ∨ (∃ sector, Frontend.card_sector c = Some sector ∧ sector ≠ ""
                    ∧ Text.occurs (Text.lower (Views.trim query)) (Text.lower sector) = true) →
       c ∈ Views.filteredCompanies companies query)
  ∧ Views.filteredCompanies companies (query +:+ more)
      `sublist_of` Views.filteredCompanies companies query.
Proof.
  intros _ _ _.
  split; [apply filteredCompanies_sublist|]. split; [|split].
  - intros E. unfold Views.filteredCompanies. by rewrite bool_decide_true.
  - intros c Hc Hmatch. unfold Views.filteredCompanies. case_bool_decide; [done|].
    apply list_elem_of_filter. split; [|done]. cbn zeta. rewrite trim_lower.
    unfold Views.matchesQuery. rewrite !orb_true_iff.
    destruct Hmatch as [H1|[H1|(sector & Es & Hne & H1)]]; [by left; left|by left; right|].
    right. rewrite Es, H1. by rewrite bool_decide_false.
  - apply filteredCompanies_narrower. rewrite lower_app.
    apply occurs_prefix, trim_prefix_app.
Qed.

Lemma search_narrows_as_the_query_grows_witness :
  Views.filteredCompanies [Examples.aapl; Examples.msft] (" App" +:+ "le ")
    `sublist_of` Views.filteredCompanies [Examples.aapl; Examples.msft] " App"
  ∧ Examples.aapl ∈ Views.filteredCompanies [Examples.aapl; Examples.msft] " App".
Proof.
  destruct (search_narrows_as_the_query_grows [Examples.aapl; Examples.msft] " App" "le ")
    as (_ & _ & Hfinds & Hnarrows);
    [reflexivity|reflexivity|repeat constructor|].
  split; [exact Hnarrows|]. apply Hfinds; [left|]. right. left. reflexivity.
Defined.

(** ** The comparison charts and the risk panel *)

Section ChartFacts.
Import Schema Text Frontend Js Charts.

Lemma setAdd_elem (years : list Z) (year y : Z) :
  y ∈ setAdd years year ↔ y ∈ years ∨ y = year.
Proof.
  unfold setAdd. case_decide as Hin.
  - split; [by left|]. intros [?| ->]; done.
  - rewrite elem_of_app, list_elem_of_singleton. done.
Qed.

Lemma setAdd_NoDup (years : list Z) (year : Z) : NoDup years → NoDup (setAdd years year).
Proof.
  intros Hnd. unfold setAdd. case_decide as Hin; [done|].
  apply NoDup_app. split; [done|]. split; [|apply NoDup_singleton].
  by intros y Hy ->%list_elem_of_singleton.
Qed.

Lemma add_filings_elem (filings : list CardFiling) (years : list Z) (y : Z) :
  y ∈ fold_left (fun years filing => setAdd years (fiscal_year filing)) filings years
  ↔ y ∈ years ∨ ∃ f, f ∈ filings ∧ fiscal_year f = y.
Proof.
  revert years. induction filings as [|f filings IH]; intros years; cbn.
  - split; [by left|]. intros [?|(f & Hf & _)]; [done|]. by apply elem_of_nil in Hf.
  - rewrite IH, setAdd_elem. split.
    + intros [[?| ->]|(g & Hg & E)]; [by left| |].
      * right. exists f. split; [left|done].
      * right. exists g. split; [by right|done].
    + intros [?|(g & [->|Hg]%elem_of_cons & E)]; [by left; left| |].
      * left. by right.
      * right. by exists g.
Qed.

Lemma add_filings_NoDup (filings : list CardFiling) (years : list Z) :
  NoDup years →
  NoDup (fold_left (fun years filing => setAdd years (fiscal_year filing)) filings years).
Proof.
  revert years. induction filings as [|f filings IH]; intros years Hnd; cbn; [done|].
  by apply IH, setAdd_NoDup.
Qed.

Lemma add_companies_elem (companies : list CardCompany) (years : list Z) (y : Z) :
  y ∈ fold_left
        (fun years company =>
           fold_left (fun years filing => setAdd years (fiscal_year filing))
             (or_empty (card_filings company)) years)
        companies years
  ↔ y ∈ years
    ∨ ∃ c f, c ∈ companies ∧ f ∈ or_empty (card_filings c) ∧ fiscal_year f = y.
Proof.
  revert years. induction companies as [|c companies IH]; intros years; cbn [fold_left].
  - split; [by left|]. intros [?|(c & f & Hc & _)]; [done|]. by apply elem_of_nil in Hc.
  - rewrite IH, add_filings_elem. split.
    + intros [[?|(f & Hf & E)]|(d & f & Hd & Hf & E)]; [by left| |].
      * right. exists c, f. split; [left|done].
      * right. exists d, f. split; [by right|done].
    + intros [?|(d & f & [->|Hd]%elem_of_cons & Hf & E)]; [by left; left| |].
      * left. right. by exists f.
      * right. by exists d, f.
Qed.

Lemma add_companies_NoDup (companies : list CardCompany) (years : list Z) :
  NoDup years →
  NoDup (fold_left
           (fun years company =>
              fold_left (fun years filing => setAdd years (fiscal_year filing))
                (or_empty (card_filings company)) years)
           companies years).
Proof.
  revert years. induction companies as [|c companies IH]; intros years Hnd; cbn [fold_left];
    [done|].
  by apply IH, add_filings_NoDup.
Qed.

Lemma sorted_NoDup_strict (l : list Z) :
  StronglySorted Z.le l → NoDup l → StronglySorted Z.lt l.
Proof.
  induction l as [|a l IH]; [constructor|].
  intros [Hl Ha]%StronglySorted_inv [Hin Hnd]%NoDup_cons.
  constructor; [by apply IH|]. rewrite Forall_forall in Ha |- *.
  intros x Hx. specialize (Ha x Hx). assert (x ≠ a) by (by intros ->). lia.
Qed.

(** What a loop of property assignments leaves under a key other than
    [__proto__]: the value of the last element that writes there. *)
Lemma assignments_lookup {B} (name : B → string) (val : B → Cell) (l : list B)
    (object : Plain) (k : string) :
  k ≠ "__proto__" →
  own (fold_left (fun acc b => assign (name b) (val b) acc) l object) !! k
  = match last (filter (fun b => name b = k) l) with
    | Some b => Some (val b)
    | None => own object !! k
    end.
Proof.
  intros Hk. revert object. induction l as [|b l IH]; intros object; cbn [fold_left]; [done|].
  rewrite IH, filter_cons. case_decide as Hn.
  - rewrite last_cons. destruct (last _); [done|]. subst k.
    unfold assign. rewrite bool_decide_false by done. cbn. by rewrite lookup_insert_eq.
  - destruct (last _); [done|]. unfold assign. case_bool_decide as Hp; cbn.
    + destruct (inherits object); cbn; [|by rewrite lookup_insert_ne].
      by destruct (val b).
    + by rewrite lookup_insert_ne.
Qed.

(** An object literal that is assigned to under each name once does not
    get [__proto__] as a property. *)
Lemma assignments_proto {B} (name : B → string) (val : B → Cell) (l : list B)
    (object : Plain) :
  inherits object = true ∨ "__proto__" ∉ name <$> l →
  NoDup (name <$> l) →
  own (fold_left (fun acc b => assign (name b) (val b) acc) l object) !! "__proto__"
  = own object !! "__proto__".
Proof.
  revert object. induction l as [|b l IH]; intros object Hin Hnd; cbn [fold_left]; [done|].
  rewrite fmap_cons in Hin, Hnd. apply NoDup_cons in Hnd as [Hb Hnd].
  destruct (decide (name b = "__proto__")) as [Hp|Hp].
  - destruct Hin as [Hin|Hin]; [|destruct Hin; rewrite Hp; left].
    rewrite IH by (done || (right; by rewrite <- Hp)).
    unfold assign. rewrite Hp, Hin. cbn. by destruct (val b).
  - assert (Hown : own (assign (name b) (val b) object) !! "__proto__"
                   = own object !! "__proto__").
    { unfold assign. rewrite bool_decide_false by done. cbn. by rewrite lookup_insert_ne. }
    rewrite <- Hown. apply IH; [|done].
    destruct Hin as [Hin|Hin]; [left|right].
    + unfold assign. by rewrite bool_decide_false by done.
    + intros H. apply Hin. by right.
Qed.

(** A property holds what it had at first or what an assignment gave
    it. *)
Lemma assignments_values {B} (name : B → string) (val : B → Cell) (l : list B)
    (object : Plain) (k : string) (v : Cell) :
  own (fold_left (fun acc b => assign (name b) (val b) acc) l object) !! k = Some v →
  own object !! k = Some v ∨ ∃ b, b ∈ l ∧ v = val b.
Proof.
  revert object. induction l as [|b l IH]; intros object; cbn [fold_left]; [by left|].
  intros [H|(b' & Hb' & ->)]%IH.
  - unfold assign in H. destruct (bool_decide _ && inherits object).
    + destruct (val b); by left.
    + cbn in H. apply lookup_insert_Some in H as [[_ <-]|[_ H]]; [|by left].
      right. exists b. split; [left|done].
  - right. exists b'. split; [by right|done].
Qed.

Lemma last_filter_unique {B} (name : B → string) (l : list B) (b : B) :
  NoDup (name <$> l) → b ∈ l → last (filter (fun b' => name b' = name b) l) = Some b.
Proof.
  intros Hnd Hb.
  destruct (last _) as [b'|] eqn:E.
  - apply last_Some_elem_of, list_elem_of_filter in E as [Hn Hb'].
    f_equal. by apply (NoDup_fmap_elem name l).
  - apply last_None in E.
    assert (b ∈ filter (fun b' => name b' = name b) l) as Hf
      by (by apply list_elem_of_filter).
    rewrite E in Hf. by apply elem_of_nil in Hf.
Qed.

Lemma dataPoint_company (value : option CardFiling → Cell) (companies : list CardCompany)
    (year : Z) (c : CardCompany) :
  NoDup (tickers companies) → c ∈ companies → card_ticker c ≠ "__proto__" →
  dataPoint value companies year !! card_ticker c = Some (value (filingOf c year)).
Proof.
  intros Hnd Hc Hp. unfold dataPoint.
  rewrite (assignments_lookup card_ticker (fun c => value (filingOf c year))) by done.
  by rewrite (last_filter_unique card_ticker companies c Hnd Hc).
Qed.

Lemma dataPoint_year (value : option CardFiling → Cell) (companies : list CardCompany)
    (year : Z) :
  "year" ∉ tickers companies →
  dataPoint value companies year !! "year"
  = Some (CellText ("FY" +:+ toString (ofZ year))).
Proof.
  intros Hy. unfold dataPoint.
  rewrite (assignments_lookup card_ticker (fun c => value (filingOf c year))) by done.
  destruct (last _) as [b|] eqn:E.
  - apply last_Some_elem_of, list_elem_of_filter in E as [Hn Hb].
    destruct Hy. rewrite <- Hn. by apply list_elem_of_fmap_2.
  - cbn. by rewrite lookup_singleton_eq.
Qed.

(** The properties of a data point: its label and the tickers. *)
Lemma dataPoint_keys (value : option CardFiling → Cell) (companies : list CardCompany)
    (year : Z) (key : string) :
  NoDup (tickers companies) →
  is_Some (dataPoint value companies year !! key)
  ↔ key = "year" ∨ (key ∈ tickers companies ∧ key ≠ "__proto__").
Proof.
  intros Hnd. unfold dataPoint. destruct (decide (key = "__proto__")) as [->|Hk].
  - rewrite (assignments_proto card_ticker (fun c => value (filingOf c year)));
      [|by left|done].
    cbn. rewrite lookup_singleton_ne by done. split; [by intros [? [=]]|].
    intros [[=]|[_ H]]. done.
  - rewrite (assignments_lookup card_ticker (fun c => value (filingOf c year))) by done.
    destruct (last _) as [b|] eqn:E.
    + apply last_Some_elem_of, list_elem_of_filter in E as [Hn Hb].
      split; [|by eauto]. intros _. right. split; [|done].
      rewrite <- Hn. by apply list_elem_of_fmap_2.
    + apply last_None in E. cbn. split.
      * intros [x Hx]. apply lookup_singleton_Some in Hx as [<- _]. by left.
      * intros [->|[Hin _]]; [by rewrite lookup_singleton_eq|].
        apply list_elem_of_fmap in Hin as (c & -> & Hc).
        assert (c ∈ filter (fun b => card_ticker b = card_ticker c) companies) as Hf
          by (by apply list_elem_of_filter).
        rewrite E in Hf. by apply elem_of_nil in Hf.
Qed.

(** ** Rounding never gives NaN *)

Lemma shr_1_nonneg (mrs : shr_record) : 0 <= shr_m mrs → 0 <= shr_m (shr_1 mrs).
Proof. destruct mrs as [[|[p|p|]|p] r s]; cbn; lia. Qed.

Lemma iter_shr_1_nonneg (n : positive) (mrs : shr_record) :
  0 <= shr_m mrs → 0 <= shr_m (SpecFloat.iter_pos shr_1 n mrs).
Proof.
  revert mrs. induction n as [n IH|n IH|]; intros mrs H; cbn.
  - by apply IH, IH, shr_1_nonneg.
  - by apply IH, IH.
  - by apply shr_1_nonneg.
Qed.

Lemma shr_fexp_nonneg (m e : Z) (l : location) :
  0 <= m → 0 <= shr_m (fst (shr_fexp prec emax m e l)).
Proof.
  intros Hm. unfold shr_fexp, shr.
  assert (H0 : 0 <= shr_m (shr_record_of_loc m l)) by (by destruct l as [|[]]).
  destruct (_ - e); cbn; [done| |done]. by apply iter_shr_1_nonneg.
Qed.

Lemma binary_round_aux_number (s : bool) (m e : Z) (l : location) :
  0 <= m → binary_round_aux prec emax s m e l ≠ S754_nan.
Proof.
  intros Hm. unfold binary_round_aux.
  pose proof (shr_fexp_nonneg m e l Hm) as H1.
  destruct (shr_fexp prec emax m e l) as [mrs e']. cbn in H1.
  assert (H2 : 0 <= round_nearest_even (shr_m mrs) (loc_of_shr_record mrs)).
  { unfold round_nearest_even. destruct (loc_of_shr_record mrs) as [|[]]; try lia.
    destruct (Z.even _); lia. }
  pose proof (shr_fexp_nonneg _ e' loc_Exact H2) as H3.
  destruct (shr_fexp prec emax _ e' loc_Exact) as [mrs' e'']. cbn in H3.
  destruct (shr_m mrs'); [done| |lia]. by destruct (_ <=? _).
Qed.

(** The quotient of two finite numbers, the divisor not a zero, is not NaN,
    and neither is 100 times a number that is not NaN. *)
Lemma over_number (sx sy : bool) (mx my : positive) (ex ey : Z) :
  over (S754_finite sx mx ex) (S754_finite sy my ey) ≠ S754_nan.
Proof.
  cbn. unfold SFdiv_core_binary.
  set (m' := match _ - _ - _ with Z0 => _ | Z.pos _ => _ | Z.neg _ => _ end).
  assert (Hm' : 0 <= m').
  { subst m'. destruct (_ - _ - _); [lia| |lia]. apply Z.shiftl_nonneg. lia. }
  pose proof (Z.div_pos m' (Z.pos my) Hm' ltac:(lia)) as Hq.
  unfold Z.div in Hq. destruct (Z.div_eucl m' (Z.pos my)) as [q r]. cbn in Hq.
  by apply binary_round_aux_number.
Qed.

Lemma times_hundred_number (x : number) : x ≠ S754_nan → times x (ofZ 100) ≠ S754_nan.
Proof.
  intros Hx. destruct x as [s|s| |s m e]; try done.
  change (ofZ 100) with (S754_finite false 7036874417766400 (-46)).
  cbn. by apply binary_round_aux_number.
Qed.

Lemma profitMargin_Some (revenue netIncome : option number) (x : number) :
  profitMargin revenue netIncome = Some x →
  ∃ r n, revenue = Some r ∧ netIncome = Some n ∧ truthy r = true ∧ truthy n = true
         ∧ x = times (over n r) (ofZ 100).
Proof.
  unfold profitMargin.
  destruct revenue as [r|], netIncome as [n|]; try done.
  destruct (truthy r) eqn:Hr, (truthy n) eqn:Hn; try done.
  intros [= <-]. by exists r, n.
Qed.

End ChartFacts.

(** X9. The years of the comparison charts are the fiscal years of the
    filings of the compared companies, each once, in ascending order. *)
Theorem comparison_years_are_the_fiscal_years (companies : list Frontend.CardCompany) :
  StronglySorted Z.lt (Charts.sortedYears companies)
  ∧ ∀ year,
      year ∈ Charts.sortedYears companies
      ↔ ∃ c f, c ∈ companies ∧ f ∈ Frontend.or_empty (Frontend.card_filings c)
               ∧ Frontend.fiscal_year f = year.
Proof.
  unfold Charts.sortedYears. split.
  - apply sorted_NoDup_strict; [apply (sortBy_sorted (fun year => year))|].
    rewrite sortBy_Permutation. apply add_companies_NoDup. constructor.
  - intros year. rewrite sortBy_Permutation. unfold Charts.allYears.
    rewrite add_companies_elem. split; [|by right].
    intros [H|H]; [by apply elem_of_nil in H|done].
Qed.

(** X10. When the compared companies have distinct tickers, none of them
    "year", each of the four data sets of the comparison has one point per
    chart year, in the order of the years.  The point of a year holds its
    label under "year" and, under the ticker of every company, the figure
    of the company's first filing of that year, or null when the company
    has no such filing or the filing lacks the figure; its properties are
    "year" and the tickers.  The ticker __proto__ is the exception: an
    assignment under it makes no property. *)
Theorem comparison_points_cover_every_company
    (companies : list Frontend.CardCompany) (i : nat) (year : Z) :
  NoDup (Charts.tickers companies) →
  "year" ∉ Charts.tickers companies →
  Charts.sortedYears companies !! i = Some year →
  ∃ revenue netIncome assets margin,
    Charts.revenueData companies !! i = Some revenue
    ∧ Charts.netIncomeData companies !! i = Some netIncome
    ∧ Charts.assetsData companies !! i = Some assets
    ∧ Charts.marginData companies !! i = Some margin
    ∧ (∀ point, point ∈ [revenue; netIncome; assets; margin] →
         point !! "year" = Some (Charts.CellText ("FY" +:+ Js.toString (Js.ofZ year)))
         ∧ ∀ key, is_Some (point !! key)
                  ↔ key = "year" ∨ (key ∈ Charts.tickers companies ∧ key ≠ "__proto__"))
    ∧ ∀ c, c ∈ companies → Frontend.card_ticker c ≠ "__proto__" →
        let filing := Charts.filingOf c year in
        let cell := fun figure : option Js.number =>
          match figure with
          | Some number => Charts.CellNumber number
          | None => Charts.CellNull
          end in
        revenue !! Frontend.card_ticker c = Some (cell (filing ≫= Frontend.total_revenue))
        ∧ netIncome !! Frontend.card_ticker c = Some (cell (filing ≫= Frontend.net_income))
        ∧ assets !! Frontend.card_ticker c = Some (cell (filing ≫= Frontend.total_assets))
        ∧ margin !! Frontend.card_ticker c
          = Some (cell (Js.profitMargin (filing ≫= Frontend.total_revenue)
                          (filing ≫= Frontend.net_income))).
Proof.
  intros Hnd Hy Hi.
  unfold Charts.revenueData, Charts.netIncomeData, Charts.assetsData, Charts.marginData.
  rewrite !list_lookup_fmap, Hi. cbn.
  eexists _, _, _, _. repeat (split; [reflexivity|]). split.
  - intros point Hp.
    assert (∃ value, point = Charts.dataPoint value companies year) as [value ->].
    { repeat (apply elem_of_cons in Hp as [->|Hp]; [by eexists|]).
      by apply elem_of_nil in Hp. }
    split; [by apply dataPoint_year|]. intros key. by apply dataPoint_keys.
  - intros c Hc Hp. cbn zeta. repeat split; by rewrite dataPoint_company.
Qed.

Lemma comparison_points_cover_every_company_witness :
  ∃ revenue netIncome assets margin,
    Charts.revenueData [Examples.aapl; Examples.msft] !! 0%nat = Some revenue
    ∧ Charts.netIncomeData [Examples.aapl; Examples.msft] !! 0%nat = Some netIncome
    ∧ Charts.assetsData [Examples.aapl; Examples.msft] !! 0%nat = Some assets
    ∧ Charts.marginData [Examples.aapl; Examples.msft] !! 0%nat = Some margin
    ∧ revenue !! "year" = Some (Charts.CellText "FY2022")
    ∧ revenue !! "AAPL" = Some (Charts.CellNumber (Js.ofZ 394328000000))
    ∧ revenue !! "MSFT" = Some Charts.CellNull.
Proof.
  destruct (comparison_points_cover_every_company [Examples.aapl; Examples.msft] 0 2022)
    as (revenue & netIncome & assets & margin & Hr & Hn & Ha & Hm & Hpoints & Hcells).
  - apply NoDup_cons. split; [|apply NoDup_singleton].
    intros H%list_elem_of_singleton. discriminate H.
  - intros H. apply elem_of_cons in H as [H|H]; [discriminate H|].
    apply list_elem_of_singleton in H. discriminate H.
  - vm_compute. reflexivity.
  - exists revenue, netIncome, assets, margin. repeat (split; [assumption|]).
    split; [|split].
    + destruct (Hpoints revenue) as [Hyear _]; [left|]. rewrite Hyear.
      vm_compute. reflexivity.
    + destruct (Hcells Examples.aapl) as [Hc _]; [left|discriminate|exact Hc].
    + destruct (Hcells Examples.msft) as [Hc _]; [right; left|discriminate|exact Hc].
Defined.

(** X11. The profit margin that the cards, the detail views, the exports
    and the charts compute never divides by zero: it is null exactly when
    the revenue or the net income is missing, a zero or NaN, and otherwise
    the Number (net income / revenue) * 100.  For finite figures that
    Number is not NaN, so that no figure of the margin chart of companies
    with finite figures is NaN; it can be an infinity, as for a revenue of
    1 and a net income of 1e307. *)
Theorem profit_margin_guards_zero (companies : list Frontend.CardCompany) :
  let finite := fun x : Js.number =>
    match x with S754_finite _ _ _ | S754_zero _ => True | _ => False end in
  (∀ revenue netIncome,
     (Js.profitMargin revenue netIncome = None
      ↔ revenue = None ∨ netIncome = None
        ∨ (∃ r, revenue = Some r ∧ (r = S754_nan ∨ ∃ sign, r = S754_zero sign))
        ∨ (∃ n, netIncome = Some n ∧ (n = S754_nan ∨ ∃ sign, n = S754_zero sign)))
     ∧ ∀ x, Js.profitMargin revenue netIncome = Some x →
         ∃ r n, revenue = Some r ∧ netIncome = Some n
                ∧ (∀ sign, r ≠ S754_zero sign)
                ∧ x = SFmul 53 1024 (SFdiv 53 1024 n r) (Js.ofZ 100)
                ∧ (finite r → finite n → x ≠ S754_nan))
  ∧ ((∀ c f, c ∈ companies → f ∈ Frontend.or_empty (Frontend.card_filings c) →
        from_option finite True (Frontend.total_revenue f)
        ∧ from_option finite True (Frontend.net_income f)) →
     ∀ point ticker,
       point ∈ Charts.marginData companies →
       point !! ticker ≠ Some (Charts.CellNumber S754_nan))
  ∧ Js.profitMargin (Some (Js.ofZ 1)) (Some (Js.ofZ (10 ^ 307)))
    = Some (S754_infinity false).
Proof.
  cbn zeta.
  assert (Hsome : ∀ revenue netIncome x, Js.profitMargin revenue netIncome = Some x →
    ∃ r n, revenue = Some r ∧ netIncome = Some n
           ∧ (∀ sign, r ≠ S754_zero sign)
           ∧ x = SFmul 53 1024 (SFdiv 53 1024 n r) (Js.ofZ 100)
           ∧ (match r with S754_finite _ _ _ | S754_zero _ => True | _ => False end →
              match n with S754_finite _ _ _ | S754_zero _ => True | _ => False end →
              x ≠ S754_nan)).
  { intros revenue netIncome x (r & n & -> & -> & Hr & Hn & ->)%profitMargin_Some.
    exists r, n. split; [done|]. split; [done|]. split; [by intros sign ->|].
    split; [done|]. intros Fr Fn. apply times_hundred_number.
    destruct r as [| | |sr mr er]; try done. destruct n as [| | |sn mn en]; try done.
    apply over_number. }
  split; [|split].
  - intros revenue netIncome. split; [|by apply Hsome].
    unfold Js.profitMargin.
    destruct revenue as [r|]; [|naive_solver].
    destruct netIncome as [n|]; [|naive_solver].
    destruct (Js.truthy r) eqn:Hr, (Js.truthy n) eqn:Hn; cbn [andb].
    + split; [done|]. intros [|[|[(r' & [= <-] & H)|(n' & [= <-] & H)]]]; try done.
      * apply falsy in H. congruence.
      * apply falsy in H. congruence.
    + split; [|done]. intros _. do 3 right. exists n. split; [done|]. by apply falsy.
    + split; [|done]. intros _. right. right. left. exists r. split; [done|]. by apply falsy.
    + split; [|done]. intros _. do 3 right. exists n. split; [done|]. by apply falsy.
  - intros Hfinite point ticker (year & -> & _)%list_elem_of_fmap Hp.
    unfold Charts.dataPoint in Hp.
    apply (assignments_values Frontend.card_ticker
             (fun c => Charts.marginOf (Charts.filingOf c year))) in Hp
      as [Hp|(c & Hc & Hv)].
    + cbn in Hp. by apply lookup_singleton_Some in Hp as [_ [=]].
    + unfold Charts.marginOf in Hv.
      destruct (Js.profitMargin _ _) as [m|] eqn:E; [|done].
      injection Hv as <-. apply Hsome in E as (r & n & Er & En & _ & _ & Hnan).
      apply Hnan; [| |done]; unfold Charts.filingOf in Er, En.
      * destruct (List.find _ _) as [f|] eqn:Ef; [|done]. cbn in Er.
        apply find_some in Ef as [Hf%list_elem_of_In _].
        destruct (Hfinite c f Hc Hf) as [H _]. by rewrite Er in H.
      * destruct (List.find _ _) as [f|] eqn:Ef; [|done]. cbn in En.
        apply find_some in Ef as [Hf%list_elem_of_In _].
        destruct (Hfinite c f Hc Hf) as [_ H]. by rewrite En in H.
  - vm_compute. reflexivity.
Qed.

(** X12. The risk panel lists the keywords of high severity in the order
    they came in, then those of medium severity, then those of low
    severity; so its first highCount badges are the high ones, and the two
    counts of its summary together are no more than the keywords. *)
Theorem risk_badges_are_grouped_by_severity (keywords : list string) :
  Charts.sortedKeywords keywords
  = filter (fun k => Frontend.getSeverity k = Frontend.high) keywords
    ++ filter (fun k => Frontend.getSeverity k = Frontend.medium) keywords
    ++ filter (fun k => Frontend.getSeverity k = Frontend.low) keywords
  ∧ take (Charts.highCount keywords) (Charts.sortedKeywords keywords)
    = filter (fun k => Frontend.getSeverity k = Frontend.high) keywords
  ∧ (Charts.highCount keywords + Charts.mediumCount keywords <= length keywords)%nat.
Proof.
  set (key := fun keyword => Charts.severityOrder (Frontend.getSeverity keyword)).
  assert (Hkey : ∀ (s : Frontend.Severity) (l : list string),
            filter (fun k => key k = Charts.severityOrder s) l
            = filter (fun k => Frontend.getSeverity k = s) l).
  { intros s l. apply list_filter_iff. intros k. unfold key.
    destruct s, (Frontend.getSeverity k); cbn; split; done. }
  assert (Hsorted : Charts.sortedKeywords keywords
    = filter (fun k => Frontend.getSeverity k = Frontend.high) keywords
      ++ filter (fun k => Frontend.getSeverity k = Frontend.medium) keywords
      ++ filter (fun k => Frontend.getSeverity k = Frontend.low) keywords).
  { unfold Charts.sortedKeywords. fold key.
    rewrite (sorted_three key (Js.sortBy key keywords)) at 1.
    - rewrite !sortBy_filter.
      by rewrite (Hkey Frontend.high), (Hkey Frontend.medium), (Hkey Frontend.low).
    - apply sortBy_sorted.
    - apply Forall_forall. intros k _. unfold key.
      destruct (Frontend.getSeverity k); cbn; auto. }
  split; [done|]. split.
  - rewrite Hsorted. unfold Charts.highCount. by rewrite take_app_length.
  - pose proof (f_equal length Hsorted) as Hlen.
    rewrite !length_app in Hlen.
    rewrite <- (Permutation_length (sortBy_Permutation key keywords)).
    fold key in Hlen. unfold Charts.sortedKeywords in Hlen. fold key in Hlen.
    unfold Charts.highCount, Charts.mediumCount. lia.
Qed.

(** ** The latest and the previous filing *)

Section LatestFacts.
Import Schema Text Frontend Js Views.

Lemma fromEnd_last {A} (l : list A) : fromEnd l 1 = last l.
Proof.
  unfold fromEnd. destruct l as [|a l] using rev_ind.
  - done.
  - rewrite last_snoc, length_app. cbn. rewrite bool_decide_true by lia.
    rewrite lookup_app_r by lia. by replace (length l + 1 - 1 - length l)%nat with 0%nat by lia.
Qed.

Lemma fromEnd_two {A} (l : list A) (p : A) :
  fromEnd l 2 = Some p ↔ ∃ rest x, l = rest ++ [p; x].
Proof.
  unfold fromEnd. split.
  - case_bool_decide as Hlen; [|done]. intros Hp.
    destruct l as [|x l _] using rev_ind; [cbn in Hlen; lia|].
    destruct l as [|y l _] using rev_ind; [cbn in Hlen; lia|].
    rewrite !length_app in Hp. cbn in Hp.
    rewrite <- app_assoc in Hp. rewrite lookup_app_r in Hp by lia.
    replace (length l + 1 + 1 - 2 - length l)%nat with 0%nat in Hp by lia.
    injection Hp as <-. exists l, x. by rewrite <- app_assoc.
  - intros (rest & x & ->). rewrite length_app. cbn.
    rewrite bool_decide_true by lia. rewrite lookup_app_r by lia.
    by replace (length rest + 2 - 2 - length rest)%nat with 0%nat by lia.
Qed.

Lemma fromEnd_two_None {A} (l : list A) : fromEnd l 2 = None ↔ (length l < 2)%nat.
Proof.
  unfold fromEnd. case_bool_decide as Hlen.
  - split; [|lia]. intros Hn. apply lookup_ge_None in Hn. lia.
  - split; [lia|done].
Qed.

(** The end of a list in ascending order of fiscal year. *)
Lemma sorted_end (rest : list CardFiling) (p x : CardFiling) :
  StronglySorted year_le (rest ++ [p; x]) →
  fiscal_year p <= fiscal_year x ∧ ∀ g, g ∈ rest → fiscal_year g <= fiscal_year p.
Proof.
  intros Hs. split.
  - apply StronglySorted_app_1_r in Hs.
    apply StronglySorted_inv in Hs as [_ Hp]. by apply Forall_cons in Hp as [Hp _].
  - intros g Hg. apply (StronglySorted_app_1_elem_of _ _ _ g p Hs Hg). left.
Qed.

Lemma sortedFilings_Permutation (company : CardCompany) :
  sortedFilings (Some company) ≡ₚ or_empty (card_filings company).
Proof.
  unfold sortedFilings. cbn. destruct (card_filings company); cbn; [|done].
  apply sortBy_Permutation.
Qed.

Lemma sortedFilings_sorted (selectedCompany : option CardCompany) :
  StronglySorted year_le (sortedFilings selectedCompany).
Proof.
  unfold sortedFilings. destruct (selectedCompany ≫= card_filings); [|constructor].
  apply (sortBy_sorted fiscal_year).
Qed.

Lemma last_sorted_latest (l xs : list CardFiling) (f : CardFiling) :
  l ≡ₚ xs → StronglySorted year_le l → last l = Some f → latest_in xs f.
Proof.
  intros Hp Hs Hl. split.
  - rewrite <- Hp. by apply last_Some_elem_of.
  - intros g Hg. rewrite <- Hp in Hg. by apply (last_of_sorted l f).
Qed.

Lemma getLatestFiling_latest (xs : list CardFiling) (f : CardFiling) :
  fst (getLatestFiling (Some xs)) = Some f → latest_in xs f.
Proof.
  destruct xs as [|x xs]; [done|]. cbn. intros [= <-].
  destruct (later_fold xs [] [] x) as (before & f & after & E & Hf & Hb & Ha);
    [intros g Hg; by apply elem_of_nil in Hg ..|].
  cbn in E. rewrite Hf, E. split.
  - rewrite elem_of_app. right. left.
  - intros g [Hg|[->|Hg]%elem_of_cons]%elem_of_app.
    + specialize (Hb g Hg). lia.
    + lia.
    + by apply Ha.
Qed.

(** The filing getLatestFiling returns is the first one of its fiscal
    year. *)
Lemma getLatestFiling_first (xs : list CardFiling) (f : CardFiling) :
  fst (getLatestFiling (Some xs)) = Some f →
  head (filter (fun g => fiscal_year g = fiscal_year f) xs) = Some f.
Proof.
  destruct xs as [|x xs]; [done|]. intros H.
  change (fst (getLatestFiling (Some (x :: xs)))) with (Some (fold_left later xs x)) in H.
  injection H as <-.
  destruct (later_fold xs [] [] x) as (before & f & after & E & Hf & Hb & Ha);
    [intros g Hg; by apply elem_of_nil in Hg ..|].
  cbn in E. rewrite Hf, E, filter_app, filter_cons, decide_True by done.
  rewrite (filter_none _ before); [done|].
  apply Forall_forall. intros g Hg. specialize (Hb g Hg). lia.
Qed.

(** The card and the detail view sort the same way. *)
Lemma sortedFilings_card (company : CardCompany) :
  sortedFilings (Some company) = getSortedFilings (card_filings company).
Proof.
  unfold sortedFilings, getSortedFilings. cbn.
  destruct (card_filings company) as [xs|]; cbn; [|done].
  case_bool_decide as E; [|done]. by apply nil_length_inv in E as ->.
Qed.

Lemma latest_in_same (xs : list CardFiling) (a b : CardFiling) :
  latest_in xs a → latest_in xs b →
  fiscal_year a = fiscal_year b ∧ (NoDup (fiscal_year <$> xs) → a = b).
Proof.
  intros [Ha Hamax] [Hb Hbmax].
  assert (E : fiscal_year a = fiscal_year b).
  { specialize (Hamax b Hb). specialize (Hbmax a Ha). lia. }
  split; [done|]. intros Hnd. by apply (NoDup_fmap_elem fiscal_year xs).
Qed.

End LatestFacts.

(** X13. For a company with filings, the latest filing of the comparison
    table and of the export (getLatestFiling), the one of the card (the
    last of getSortedFilings) and the one of the detail view (the last of
    sortedFilings) are filings of the greatest fiscal year.  The card and
    the detail view show the same one, the last filing of that year in the
    order of the company's filings; getLatestFiling returns the first one,
    which is another filing when two filings share the greatest year.
    Without filings all three are missing. *)
Theorem the_latest_filing_is_of_the_greatest_year (company : Frontend.CardCompany) :
  let filings := Frontend.or_empty (Frontend.card_filings company) in
  match fst (Frontend.getLatestFiling (Frontend.card_filings company)),
        Frontend.latestFiling (Frontend.card_filings company),
        Views.detailLatestFiling (Some company) with
  | Some a, Some b, Some c =>
      (∀ f, f ∈ [a; b; c] →
         f ∈ filings
         ∧ ∀ g, g ∈ filings → Frontend.fiscal_year g <= Frontend.fiscal_year f)
      ∧ Frontend.fiscal_year a = Frontend.fiscal_year b
      ∧ b = c
      ∧ head (filter (fun f => Frontend.fiscal_year f = Frontend.fiscal_year a) filings)
        = Some a
      ∧ last (filter (fun f => Frontend.fiscal_year f = Frontend.fiscal_year b) filings)
        = Some b
      ∧ (NoDup (Frontend.fiscal_year <$> filings) → a = b)
  | None, None, None => filings = []
  | _, _, _ => False
  end
  ∧ Frontend.id
      <$> fst (Frontend.getLatestFiling (Frontend.card_filings Examples.restated))
    = Some 41%nat
  ∧ Frontend.id <$> Frontend.latestFiling (Frontend.card_filings Examples.restated)
    = Some 43%nat.
Proof.
  split; [|split; reflexivity].
  cbn zeta. unfold Views.detailLatestFiling. rewrite fromEnd_last, sortedFilings_card.
  pose proof (getSortedFilings_Permutation (Frontend.card_filings company)) as Hcp.
  pose proof (getSortedFilings_sorted (Frontend.card_filings company)) as Hcs.
  pose proof (getSortedFilings_stable (Frontend.card_filings company)) as Hst.
  unfold Frontend.latestFiling.
  destruct (Frontend.card_filings company) as [[|x xs]|] eqn:Ef; [done| |done].
  cbn [Frontend.or_empty default] in *.
  destruct (fst (Frontend.getLatestFiling (Some (x :: xs)))) as [a|] eqn:Ea; [|done].
  pose proof (getLatestFiling_first _ _ Ea) as Hfirst.
  apply getLatestFiling_latest in Ea.
  destruct (last (Frontend.getSortedFilings (Some (x :: xs)))) as [b|] eqn:Eb.
  2:{ apply last_None in Eb. rewrite Eb in Hcp. by apply Permutation_nil_l in Hcp. }
  pose proof (last_sorted_latest _ _ _ Hcp Hcs Eb) as Hb.
  destruct (latest_in_same _ _ _ Ea Hb) as [Eab Hab].
  split; [|split; [done|split; [done|split; [done|split; [|done]]]]].
  - intros f Hf. repeat (apply elem_of_cons in Hf as [->|Hf]; [done|]).
    by apply elem_of_nil in Hf.
  - rewrite <- Hst. by apply last_of_year.
Qed.

(** X14. The growth figures of a card and of the detail view compare the
    last two filings in ascending order of fiscal year, the same two in
    both: the previous filing is missing exactly when the company has fewer
    than two filings, and then no growth is shown; otherwise no filing but
    the latest has a greater fiscal year than the previous one. *)
Theorem growth_compares_the_last_two_filings (company : Frontend.CardCompany) :
  let filings := Frontend.card_filings company in
  (Views.previousFiling filings = None ↔ (length (Frontend.or_empty filings) < 2)%nat)
  ∧ (Views.detailPreviousFiling (Some company) = None
     ↔ (length (Frontend.or_empty filings) < 2)%nat)
  ∧ Views.previousFiling filings = Views.detailPreviousFiling (Some company)
  ∧ ((length (Frontend.or_empty filings) < 2)%nat →
     Views.cardGrowth Frontend.total_revenue filings = Js.Returns None
     ∧ Views.cardGrowth Frontend.net_income filings = Js.Returns None
     ∧ Views.detailRevenueGrowth (Some company) = Js.Returns None)
  ∧ (∀ previous, Views.previousFiling filings = Some previous →
       ∃ rest latest,
         Frontend.latestFiling filings = Some latest
         ∧ Frontend.or_empty filings ≡ₚ rest ++ [previous; latest]
         ∧ Frontend.fiscal_year previous <= Frontend.fiscal_year latest
         ∧ ∀ g, g ∈ rest → Frontend.fiscal_year g <= Frontend.fiscal_year previous)
  ∧ (∀ previous, Views.detailPreviousFiling (Some company) = Some previous →
       ∃ rest latest,
         Views.detailLatestFiling (Some company) = Some latest
         ∧ Frontend.or_empty filings ≡ₚ rest ++ [previous; latest]
         ∧ Frontend.fiscal_year previous <= Frontend.fiscal_year latest
         ∧ ∀ g, g ∈ rest → Frontend.fiscal_year g <= Frontend.fiscal_year previous)
  ∧ Views.cardGrowth Frontend.total_revenue (Frontend.card_filings Examples.restated)
    = Js.Returns (Some "50.0")
  ∧ Views.detailRevenueGrowth (Some Examples.restated) = Js.Returns (Some "50.0")
  ∧ Views.cardGrowth Frontend.total_revenue (Frontend.card_filings Examples.aapl)
    = Js.Returns (Some "-2.8").
Proof.
  cbn zeta.
  pose proof (sortedFilings_Permutation company) as Hdp.
  pose proof (sortedFilings_sorted (Some company)) as Hds.
  pose proof (getSortedFilings_Permutation (Frontend.card_filings company)) as Hcp.
  pose proof (getSortedFilings_sorted (Frontend.card_filings company)) as Hcs.
  assert (Hc : Views.previousFiling (Frontend.card_filings company) = None
               ↔ (length (Frontend.or_empty (Frontend.card_filings company)) < 2)%nat).
  { unfold Views.previousFiling. by rewrite fromEnd_two_None, Hcp. }
  assert (Hd : Views.detailPreviousFiling (Some company) = None
               ↔ (length (Frontend.or_empty (Frontend.card_filings company)) < 2)%nat).
  { unfold Views.detailPreviousFiling. by rewrite fromEnd_two_None, Hdp. }
  split; [done|]. split; [done|].
  split; [|split; [|split; [|split; [|repeat split; vm_compute; reflexivity]]]].
  - unfold Views.previousFiling, Views.detailPreviousFiling.
    by rewrite sortedFilings_card.
  - intros Hlen. apply Hc in Hlen as Hcn. apply Hd in Hlen as Hdn.
    unfold Views.cardGrowth, Views.detailRevenueGrowth. rewrite Hcn, Hdn. cbn.
    unfold Frontend.calculateGrowth, Frontend.revenueGrowth.
    repeat split; by repeat case_match.
  - intros previous (rest & latest & E)%fromEnd_two. exists rest, latest.
    unfold Frontend.latestFiling. rewrite E in Hcs, Hcp |- *.
    split; [by rewrite last_app_cons|].
    split; [done|]. by apply sorted_end.
  - intros previous (rest & latest & E)%fromEnd_two. exists rest, latest.
    unfold Views.detailLatestFiling. rewrite fromEnd_last. rewrite E in Hds, Hdp |- *.
    split; [by rewrite last_app_cons|].
    split; [done|]. by apply sorted_end.
Qed.

(** ** From the database to the cards *)

Section HomeFacts.
Import Schema Frontend Home.

Lemma last_fmap {A B} (g : A → B) (l : list A) : last (g <$> l) = g <$> last l.
Proof.
  induction l as [|a l IH] using rev_ind; [done|].
  rewrite fmap_app. cbn [fmap list_fmap]. by rewrite !last_snoc.
Qed.

Lemma filter_filter_name (names : list string) (k : string) (rows : list FinancialMetric) :
  k ∈ names →
  filter (fun m => metric_name m = k) (filter (fun m => metric_name m ∈ names) rows)
  = filter (fun m => metric_name m = k) rows.
Proof.
  intros Hk. induction rows as [|m rows IH]; [done|]. rewrite !filter_cons.
  destruct (decide (metric_name m = k)) as [E|E].
  - rewrite decide_True by (by rewrite E). rewrite filter_cons, decide_True by done.
    by rewrite IH.
  - destruct (decide (metric_name m ∈ names)); [|done].
    by rewrite filter_cons, decide_False.
Qed.

(** What the map of a filing holds under one of the [names] is read off
    the names and values of the rows of those names. *)
Lemma metricsMap_named (names : list string) (k : string)
    (rows : option (list FinancialMetric)) :
  k ∈ names →
  metricsMap (or_empty rows) !! k
  = snd <$> last (filter (fun p => p.1 = k) (named names rows)).
Proof.
  intros Hk. unfold metricsMap, named. rewrite metricsMap_fold_lookup, lookup_empty.
  rewrite <- (filter_filter_name names k) by done.
  generalize (filter (fun m => metric_name m ∈ names) (or_empty rows)). intros l.
  assert (E : filter (fun p : string * option Z => p.1 = k)
                ((fun m => (metric_name m, metric_value m)) <$> l)
              = (fun m => (metric_name m, metric_value m))
                <$> filter (fun m => metric_name m = k) l).
  { induction l as [|m l IH]; [done|]. rewrite fmap_cons, !filter_cons. cbn.
    destruct (decide (metric_name m = k)); [|done]. by rewrite fmap_cons, IH. }
  rewrite E, last_fmap. by destruct (last _).
Qed.

End HomeFacts.

(** X21. The home page gives the dashboard no card when the query for the
    companies fails, and otherwise one card per company row, in the order
    of the rows.  The latest filing of a card is a filing row of the
    company with the greatest fiscal year, whatever the order in which the
    database lists the rows, and is missing only when the company has no
    filing row. *)
Theorem home_page_cards (db : Frontend.Supabase) :
  (snd (Frontend.companies_by_ticker db) = true → Home.HomePage db = [])
  ∧ (snd (Frontend.companies_by_ticker db) = false →
     let rows := Frontend.or_empty (fst (Frontend.companies_by_ticker db)) in
     Frontend.card_id <$> Home.HomePage db = Schema.company_pk <$> rows
     ∧ Frontend.card_ticker <$> Home.HomePage db = Schema.ticker <$> rows
     ∧ ∀ card, card ∈ Home.HomePage db →
         let filings :=
           Frontend.or_empty (Frontend.filings_of db (Frontend.card_id card) false) in
         Frontend.id <$> Frontend.or_empty (Frontend.card_filings card)
         = Schema.filing_pk <$> filings
         ∧ (Frontend.latestFiling (Frontend.card_filings card) = None ↔ filings = [])
         ∧ ∀ latest, Frontend.latestFiling (Frontend.card_filings card) = Some latest →
             ∃ row, row ∈ filings
                    ∧ Schema.filing_pk row = Frontend.id latest
                    ∧ Schema.fiscal_year row = Frontend.fiscal_year latest
                    ∧ ∀ other, other ∈ filings →
                        Schema.fiscal_year other <= Schema.fiscal_year row).
Proof.
  unfold Home.HomePage, Frontend.getCompaniesWithFilings.
  destruct (Frontend.companies_by_ticker db) as [rows [|]]; cbn [fst snd].
  - split; [done|]. intros [=].
  - split; [intros [=]|]. intros _. cbn zeta.
    rewrite <- !list_fmap_compose. split; [done|]. split; [done|].
    intros card (company & -> & _)%list_elem_of_fmap. cbn.
    set (filings := Frontend.or_empty (Frontend.filings_of db (Schema.company_pk company) false)).
    set (cards := Home.cardFiling <$> (Frontend.homeFilingWithData db <$> filings)).
    assert (Hcard : ∀ c, c ∈ cards →
              ∃ row, row ∈ filings ∧ Schema.filing_pk row = Frontend.id c
                     ∧ Schema.fiscal_year row = Frontend.fiscal_year c).
    { intros c (h & -> & (row & -> & Hrow)%list_elem_of_fmap)%list_elem_of_fmap.
      by exists row. }
    assert (Hrow : ∀ row, row ∈ filings →
              ∃ c, c ∈ cards ∧ Frontend.fiscal_year c = Schema.fiscal_year row).
    { intros row Hrow. eexists. split; [by do 2 apply list_elem_of_fmap_2|done]. }
    split; [unfold cards; by rewrite <- !list_fmap_compose|].
    pose proof (getSortedFilings_Permutation (Some cards)) as Hp.
    pose proof (getSortedFilings_sorted (Some cards)) as Hs.
    cbn [Frontend.or_empty default] in Hp. unfold Frontend.latestFiling. split.
    + rewrite last_None. split.
      * intros E. rewrite E in Hp. apply Permutation_nil_l in Hp.
        unfold cards in Hp. cbn in Hp. symmetry in Hp.
        by do 2 apply fmap_nil_inv in Hp.
      * intros E. unfold cards. by rewrite E.
    + intros latest Hlast.
      destruct (last_sorted_latest _ _ _ Hp Hs Hlast) as [Hin Hmax].
      destruct (Hcard latest Hin) as (row & Hr & Hpk & Hy). exists row.
      split; [done|]. split; [done|]. split; [done|].
      intros other (c & Hc & <-)%Hrow. rewrite Hy. by apply Hmax.
Qed.

(** X22. The home page reads a filing's metric rows for revenue,
    net_income and total_assets only, and of those rows the name and the
    value only: databases that agree on them, on the companies, on the
    filings and on the keywords of the keyword rows give the same cards.
    So total_liabilities, cash_and_equivalents and the unit of a metric
    never reach the dashboard. *)
Theorem home_page_reads_three_metrics (db db' : Frontend.Supabase) :
  Frontend.companies_by_ticker db' = Frontend.companies_by_ticker db →
  (∀ company, Frontend.filings_of db' company false = Frontend.filings_of db company false) →
  (∀ filing,
     Schema.keyword <$> Frontend.or_empty (Frontend.keywords_of db' filing)
     = Schema.keyword <$> Frontend.or_empty (Frontend.keywords_of db filing)) →
  (∀ filing,
     Home.named ["revenue"; "net_income"; "total_assets"] (Frontend.metrics_of db' filing)
     = Home.named ["revenue"; "net_income"; "total_assets"] (Frontend.metrics_of db filing)) →
  Frontend.getCompaniesWithFilings db' = Frontend.getCompaniesWithFilings db
  ∧ Home.HomePage db' = Home.HomePage db.
Proof.
  intros Hc Hf Hk Hm.
  assert (E : Frontend.getCompaniesWithFilings db' = Frontend.getCompaniesWithFilings db).
  { unfold Frontend.getCompaniesWithFilings. rewrite Hc.
    destruct (Frontend.companies_by_ticker db) as [rows [|]]; [done|].
    apply list_fmap_ext. intros _ company _. rewrite Hf. f_equal.
    apply list_fmap_ext. intros _ filing _. unfold Frontend.homeFilingWithData.
    rewrite Hk.
    rewrite !(metricsMap_named ["revenue"; "net_income"; "total_assets"])
      by (repeat first [left|right]; done).
    by rewrite Hm. }
  split; [done|]. unfold Home.HomePage. by rewrite E.
Qed.

Lemma home_page_reads_three_metrics_witness :
  Frontend.getCompaniesWithFilings Examples.in_euros
  = Frontend.getCompaniesWithFilings Examples.in_dollars
  ∧ Home.HomePage Examples.in_euros = Home.HomePage Examples.in_dollars.
Proof.
  apply (home_page_reads_three_metrics Examples.in_dollars Examples.in_euros).
  - reflexivity.
  - intros company. reflexivity.
  - intros filing. reflexivity.
  - intros filing. vm_compute. reflexivity.
Defined.

(** ** The seed data *)

Section SeedFacts.
Import Schema Storage Seed.

Lemma ticker_taken_elem (s : Store) (t : string) :
  ticker_taken s t = true ↔ t ∈ ticker <$> companies s.
Proof.
  unfold ticker_taken. rewrite existsb_exists, list_elem_of_fmap. split.
  - intros (c & Hc%list_elem_of_In & E%bool_decide_eq_true). eauto.
  - intros (c & E & Hc%list_elem_of_In). exists c. by rewrite bool_decide_eq_true.
Qed.

Lemma insert_company_tickers (now : timestamptz) (row : SeedRow) (s : Store) :
  ticker <$> companies (insert_company now row s)
  = if ticker_taken s (seed_ticker row) then ticker <$> companies s
    else (ticker <$> companies s) ++ [seed_ticker row].
Proof.
  unfold insert_company. destruct (ticker_taken s (seed_ticker row)); [done|].
  cbn. by rewrite fmap_app.
Qed.

Lemma insert_company_taken (now : timestamptz) (row : SeedRow) (s : Store) (t : string) :
  ticker_taken (insert_company now row s) t = true
  ↔ ticker_taken s t = true ∨ t = seed_ticker row.
Proof.
  rewrite !ticker_taken_elem, insert_company_tickers.
  destruct (ticker_taken s (seed_ticker row)) eqn:E.
  - apply ticker_taken_elem in E. split; [by left|]. by intros [?| ->].
  - rewrite elem_of_app, list_elem_of_singleton. done.
Qed.

Lemma insert_rows_taken (now : timestamptz) (rows : list SeedRow) (s : Store) (t : string) :
  ticker_taken (fold_left (fun s row => insert_company now row s) rows s) t = true
  ↔ ticker_taken s t = true ∨ t ∈ seed_ticker <$> rows.
Proof.
  revert s. induction rows as [|row rows IH]; intros s; cbn [fold_left].
  - split; [by left|]. intros [?|H]; [done|]. by apply elem_of_nil in H.
  - rewrite IH, insert_company_taken, fmap_cons, elem_of_cons. tauto.
Qed.

(** Rows whose tickers are all taken change nothing. *)
Lemma insert_rows_nothing (now : timestamptz) (rows : list SeedRow) (s : Store) :
  (∀ row, row ∈ rows → ticker_taken s (seed_ticker row) = true) →
  fold_left (fun s row => insert_company now row s) rows s = s.
Proof.
  induction rows as [|row rows IH]; intros Hall; cbn [fold_left]; [done|].
  assert (E : insert_company now row s = s).
  { unfold insert_company. by rewrite (Hall row) by left. }
  rewrite E. apply IH. intros r Hr. apply Hall. by right.
Qed.

Lemma insert_rows_kept (now : timestamptz) (rows : list SeedRow) (s : Store) :
  let s' := fold_left (fun s row => insert_company now row s) rows s in
  companies s `prefix_of` companies s'
  ∧ filings s' = filings s
  ∧ financial_metrics s' = financial_metrics s
  ∧ risk_keywords s' = risk_keywords s
  ∧ (NoDup (ticker <$> companies s) → NoDup (ticker <$> companies s')).
Proof.
  cbn zeta. revert s. induction rows as [|row rows IH]; intros s; cbn [fold_left]; [done|].
  destruct (IH (insert_company now row s)) as (Hp & Hf & Hm & Hk & Hnd).
  assert (Hone : companies s `prefix_of` companies (insert_company now row s)
                 ∧ filings (insert_company now row s) = filings s
                 ∧ financial_metrics (insert_company now row s) = financial_metrics s
                 ∧ risk_keywords (insert_company now row s) = risk_keywords s).
  { unfold insert_company. destruct (ticker_taken s (seed_ticker row)); [done|].
    cbn. split; [by apply prefix_app_r|done]. }
  destruct Hone as (Hp1 & Hf1 & Hm1 & Hk1).
  split; [by etrans|]. split; [congruence|]. split; [congruence|]. split; [congruence|].
  intros Hs. apply Hnd. rewrite insert_company_tickers.
  destruct (ticker_taken s (seed_ticker row)) eqn:E; [done|].
  apply NoDup_app. split; [done|]. split; [|apply NoDup_singleton].
  intros t Ht ->%list_elem_of_singleton. apply ticker_taken_elem in Ht. congruence.
Qed.

End SeedFacts.

(** X15. The seed statement of the schema can be run again and again: it
    leaves every company that is in the table as it is, adds a company for
    each of the ten tickers that is not there yet, touches no other table,
    keeps the tickers distinct, and a second run changes nothing; on an
    empty database it leaves the ten companies in the order of the
    statement. *)
Theorem seed_can_be_run_again (now again : Schema.timestamptz) (s : Storage.Store) :
  Seed.seed again (Seed.seed now s) = Seed.seed now s
  ∧ Storage.companies s `prefix_of` Storage.companies (Seed.seed now s)
  ∧ (∀ t, t ∈ Schema.ticker <$> Storage.companies (Seed.seed now s)
          ↔ t ∈ Schema.ticker <$> Storage.companies s
            ∨ t ∈ Seed.seed_ticker <$> Seed.SEED_COMPANIES)
  ∧ Storage.filings (Seed.seed now s) = Storage.filings s
  ∧ Storage.financial_metrics (Seed.seed now s) = Storage.financial_metrics s
  ∧ Storage.risk_keywords (Seed.seed now s) = Storage.risk_keywords s
  ∧ (NoDup (Schema.ticker <$> Storage.companies s) →
     NoDup (Schema.ticker <$> Storage.companies (Seed.seed now s)))
  ∧ Schema.ticker <$> Storage.companies (Seed.seed now (Storage.seeded []))
    = ["AAPL"; "MSFT"; "GOOGL"; "AMZN"; "META"; "NVDA"; "TSLA"; "JPM"; "JNJ"; "WMT"].
Proof.
  destruct (insert_rows_kept now Seed.SEED_COMPANIES s) as (Hp & Hf & Hm & Hk & Hnd).
  split; [|split; [done|split; [|by repeat split]]].
  - apply insert_rows_nothing. intros row Hrow. apply insert_rows_taken. right.
    by apply list_elem_of_fmap_2.
  - intros t. rewrite <- !ticker_taken_elem. apply insert_rows_taken.
Qed.

(** ** Colours, units and exports *)

Section FormatFacts.
Import Schema Text Frontend Js Views.

Lemma append_end_differs (a b : string) : a +:+ "T" ≠ b +:+ "B".
Proof.
  revert b. induction a as [|c a IH]; intros [|d b]; cbn.
  - done.
  - intros [= _ H]. by destruct b.
  - intros [= _ H]. by destruct a.
  - intros [= _ H]. by apply (IH b).
Qed.

(** A magnitude of at least 1e12 is one of at least 1e9. *)
Lemma geq_billion (value : number) :
  geq (abs value) (ofZ (10 ^ 12)) = true → geq (abs value) (ofZ (10 ^ 9)) = true.
Proof.
  change (ofZ (10 ^ 12)) with (S754_finite false 8192000000000000 (-13)).
  change (ofZ (10 ^ 9)) with (S754_finite false 8388608000000000 (-23)).
  destruct value as [s|s| |s m e]; try done.
  unfold geq, abs, SFabs, SFleb, SFcompare.
  destruct (Z.compare_spec (-13) e) as [<-|Hlt|Hgt]; [done| |done].
  intros _. destruct (Z.compare_spec (-23) e) as [<-|?|?]; [lia|done|lia].
Qed.

Lemma cell_lookup {A} (label : string) (cell : A → string) (l : list A) (i : nat) (a : A) :
  l !! i = Some a → (label :: (cell <$> l)) !! S i = Some (cell a).
Proof.
  intros H. change ((label :: (cell <$> l)) !! S i) with ((cell <$> l) !! i).
  by rewrite list_lookup_fmap, H.
Qed.

End FormatFacts.

(** X16. The pills and table headers of the dashboard and the lines of the
    comparison charts take their colours from the same palette by the same
    index, so a company has one colour in all of them; the index never
    leaves the palette, the first eight companies have eight different
    colours, and the ninth has the colour of the first. *)
Theorem a_company_has_one_colour (idx : nat) :
  Views.backgroundColor idx = Charts.stroke idx
  ∧ is_Some (Charts.stroke idx)
  ∧ Charts.stroke (idx + 8) = Charts.stroke idx
  ∧ ∀ other, (idx < 8)%nat → (other < 8)%nat →
      Charts.stroke idx = Charts.stroke other → idx = other.
Proof.
  split; [done|]. unfold Charts.stroke. change (length Charts.COLORS) with 8%nat.
  split; [|split].
  - apply lookup_lt_is_Some. change (length Charts.COLORS) with 8%nat.
    apply Nat.mod_upper_bound. done.
  - f_equal. rewrite <- (Nat.Div0.add_mod_idemp_r idx 8 8). cbn. by rewrite Nat.add_0_r.
  - intros other Hi Ho. rewrite !Nat.mod_small by done.
    do 8 (destruct idx as [|idx]; [do 8 (destruct other as [|other]; [done|]); lia|]). lia.
Qed.

(** X17. The comparison table of the dashboard and the tooltips of the
    comparison charts write an amount the same way when its magnitude is
    not at least 1e12; from 1e12 on the chart writes it in T and the table
    in B, so the two texts differ: 1.5e12 is $1.50T in a tooltip and
    $1500.00B in the table.  The digits are those of toFixed(2) on the
    quotient Number: 1005000 is $1.00M and 2675000000 is $2.67B. *)
Theorem table_and_tooltip_units (toLocaleString : Js.number → string) (value : Js.number) :
  (Js.geq (Js.abs value) (Js.ofZ (10 ^ 12)) = false →
   Charts.formatTooltip toLocaleString value
   = Views.formatCurrency toLocaleString (Some value))
  ∧ (Js.geq (Js.abs value) (Js.ofZ (10 ^ 12)) = true →
     Charts.formatTooltip toLocaleString value
     = "$" +:+ Js.toFixed 2 (SFdiv 53 1024 value (Js.ofZ (10 ^ 12))) +:+ "T"
     ∧ Views.formatCurrency toLocaleString (Some value)
       = "$" +:+ Js.toFixed 2 (SFdiv 53 1024 value (Js.ofZ (10 ^ 9))) +:+ "B"
     ∧ Charts.formatTooltip toLocaleString value
       ≠ Views.formatCurrency toLocaleString (Some value))
  ∧ Charts.formatTooltip toLocaleString (Js.ofZ (15 * 10 ^ 11)) = "$1.50T"
  ∧ Views.formatCurrency toLocaleString (Some (Js.ofZ (15 * 10 ^ 11))) = "$1500.00B"
  ∧ Views.formatCurrency toLocaleString (Some (Js.ofZ 1005000)) = "$1.00M"
  ∧ Views.formatCurrency toLocaleString (Some (Js.ofZ 2675000000)) = "$2.67B"
  ∧ Views.formatCurrency toLocaleString (Some (Js.ofZ (-2675000000))) = "$-2.67B".
Proof.
  unfold Charts.formatTooltip, Views.formatCurrency. split; [|split].
  - intros Hlt. by rewrite Hlt.
  - intros Hle. rewrite Hle, (geq_billion _ Hle). split; [done|]. split; [done|].
    intros H%String.app_inj. by apply append_end_differs in H.
  - repeat split; vm_compute; reflexivity.
Qed.

(** X18. The comparison export is a table of eight rows whose cells line up
    with the selected companies: every row has its label and one cell per
    company, the header names the tickers in the order of the selection, and
    the cells of a company are those of its latest filing: the texts of
    toString for the figures and of toFixed(2) for the margin, empty where
    the filing, the figure or the margin is missing.  So a revenue of
    100000 with a net income of 1005 gives the margin 1.00, and total
    assets of 1e21 are written 1e+21.  The filings export has, after its
    header, one row of six cells per filing of the company. *)
Theorem export_rows_line_up
    (selected : list Frontend.CardCompany) (company : Frontend.CardCompany) :
  length (Views.comparisonTable selected) = 8%nat
  ∧ Forall (fun row => length row = S (length selected)) (Views.comparisonTable selected)
  ∧ (∀ i c, selected !! i = Some c →
       let latest := fst (Frontend.getLatestFiling (Frontend.card_filings c)) in
       (fun row => row !! S i) <$> Views.comparisonTable selected
       = [ Some (Frontend.card_ticker c);
           Some (Frontend.card_name c);
           Some (default "" (Frontend.card_sector c));
           Some (from_option
                   (fun l => "FY " +:+ Js.toString (Js.ofZ (Frontend.fiscal_year l))) ""
                   latest);
           Some (from_option Js.toString "" (latest ≫= Frontend.total_revenue));
           Some (from_option Js.toString "" (latest ≫= Frontend.net_income));
           Some (from_option Js.toString "" (latest ≫= Frontend.total_assets));
           Some (from_option (Js.toFixed 2) ""
                   (Js.profitMargin (latest ≫= Frontend.total_revenue)
                      (latest ≫= Frontend.net_income))) ])
  ∧ length (Views.filingsTable (Some company))
    = S (length (Frontend.or_empty (Frontend.card_filings company)))
  ∧ Forall (fun row => length row = 6%nat) (Views.filingsTable (Some company))
  ∧ Views.comparisonTable [Examples.acme]
    = [ ["Metric"; "ACME"];
        ["Company Name"; "Acme Corp."];
        ["Sector"; ""];
        ["Fiscal Year"; "FY 2023"];
        ["Revenue"; "100000"];
        ["Net Income"; "1005"];
        ["Total Assets"; "1e+21"];
        ["Profit Margin %"; "1.00"] ].
Proof.
  split; [done|]. split; [|split; [|split; [|split]]].
  - unfold Views.comparisonTable.
    repeat (apply Forall_cons; split; [cbn; by rewrite length_fmap|]). constructor.
  - intros i c Hc. cbn zeta. unfold Views.comparisonTable.
    rewrite !fmap_cons, fmap_nil.
    repeat (apply (f_equal2 cons); [by erewrite cell_lookup by exact Hc|]).
    reflexivity.
  - unfold Views.filingsTable. cbn [length]. rewrite length_fmap.
    by rewrite (Permutation_length (sortedFilings_Permutation company)).
  - unfold Views.filingsTable. apply Forall_cons. split; [done|].
    apply Forall_fmap, Forall_forall. by intros f _.
  - vm_compute. reflexivity.
Qed.

(** ** The constraints of the schema *)

Section SqlFacts.
Import Schema Storage Sql.

Lemma NoDup_fmap_filter {A B} (g : A → B) (P : A → Prop) `{∀ x, Decision (P x)}
    (l : list A) :
  NoDup (g <$> l) → NoDup (g <$> filter P l).
Proof.
  intros Hnd. eapply sublist_NoDup; [exact Hnd|]. apply fmap_sublist, sublist_filter.
Qed.

Lemma NoDup_omap_filter {A B} (g : A → option B) (P : A → Prop) `{∀ x, Decision (P x)}
    (l : list A) :
  NoDup (omap g l) → NoDup (omap g (filter P l)).
Proof.
  induction l as [|a l IH]; [done|]. rewrite filter_cons.
  assert (Hrest : NoDup (omap g (a :: l)) → NoDup (omap g l)).
  { cbn. destruct (g a); [by intros [_ ?]%NoDup_cons|done]. }
  intros Hnd. destruct (decide (P a)); [|by apply IH, Hrest].
  cbn in *. destruct (g a) as [b|] eqn:E; [|by apply IH].
  apply NoDup_cons in Hnd as [Hb Hnd]. apply NoDup_cons. split; [|by apply IH].
  intros (x & [_ Hx]%list_elem_of_filter & Hgx)%list_elem_of_omap.
  apply Hb, list_elem_of_omap. eauto.
Qed.

Lemma NoDup_fresh (l : list uuid) (n : uuid) :
  NoDup l → (∀ pk, pk ∈ l → (pk < n)%nat) → NoDup (l ++ [n]).
Proof.
  intros Hnd Hlt. apply NoDup_app. split; [done|]. split; [|apply NoDup_singleton].
  intros pk Hpk ->%list_elem_of_singleton. specialize (Hlt _ Hpk). lia.
Qed.

Lemma fresh_snoc (l : list uuid) (n : uuid) :
  (∀ pk, pk ∈ l → (pk < n)%nat) → ∀ pk, pk ∈ l ++ [n] → (pk < S n)%nat.
Proof.
  intros Hlt pk [Hpk| ->%list_elem_of_singleton]%elem_of_app; [|lia].
  specialize (Hlt _ Hpk). lia.
Qed.

Lemma fresh_more (l : list uuid) (n : uuid) :
  (∀ pk, pk ∈ l → (pk < n)%nat) → ∀ pk, pk ∈ l → (pk < S n)%nat.
Proof. intros Hlt pk Hpk. specialize (Hlt _ Hpk). lia. Qed.

Lemma fresh_filter {A} (g : A → uuid) (P : A → Prop) `{∀ x, Decision (P x)}
    (l : list A) (n : uuid) :
  (∀ pk, pk ∈ g <$> l → (pk < n)%nat) → ∀ pk, pk ∈ g <$> filter P l → (pk < n)%nat.
Proof.
  intros Hlt pk (a & -> & [_ Ha]%list_elem_of_filter)%list_elem_of_fmap.
  apply Hlt. by apply list_elem_of_fmap_2.
Qed.

(** A row that conflicts with no row of the table brings no second row
    under a complete key. *)
Lemma unique_append {R K} (conflict : R → R → bool) (ukey : R → option K)
    (new : R) (rows : list R) :
  (∀ old k, ukey old = Some k → ukey new = Some k → conflict old new = true) →
  NoDup (omap ukey rows) →
  existsb (fun old => conflict old new) rows = false →
  NoDup (omap ukey (rows ++ [new])).
Proof.
  intros Hcomplete Hnd Hnone. rewrite omap_app. cbn.
  destruct (ukey new) as [k|] eqn:Ek; [|by rewrite app_nil_r].
  apply NoDup_app. split; [done|]. split; [|apply NoDup_singleton].
  intros k' (old & Hold & Hk)%list_elem_of_omap ->%list_elem_of_singleton.
  assert (Hex : existsb (fun old => conflict old new) rows = true).
  { apply existsb_exists. exists old. split; [by apply list_elem_of_In|].
    by apply (Hcomplete old k). }
  congruence.
Qed.

Lemma parent_kept {A} (g : A → uuid) (P : A → Prop) `{∀ x, Decision (P x)}
    (l : list A) (pk : uuid) :
  pk ∈ g <$> l → (∀ a, a ∈ l → g a = pk → P a) → pk ∈ g <$> filter P l.
Proof.
  intros (a & -> & Ha)%list_elem_of_fmap HP. apply list_elem_of_fmap.
  exists a. split; [done|]. apply list_elem_of_filter. split; [by apply HP|done].
Qed.

Lemma created_integrity : integrity created.
Proof.
  split; cbn; try constructor; try (intros ? ? H; by apply elem_of_nil in H);
    intros ? H; by apply elem_of_nil in H.
Qed.

Lemma run_integrity (now : timestamptz) (stmt : Statement) (s s' : Store) :
  integrity s → run now stmt s = Some s' → integrity s'.
Proof.
  intros [Hcp Hct Hfp Hfk Hfr Hmp Hmk Hmr Hkp Hkk Hkr Hcf Hff Hmf Hkf] Hexec.
  destruct stmt as [t name c sec ind|company d|filing name value u
                   |filing kw freq sec snippet|pk|pk|pk|pk]; cbn in Hexec.
  - destruct (existsb _ (companies s)) eqn:Et; [done|]. injection Hexec as <-.
    split; cbn; try done.
    + rewrite fmap_app. by apply NoDup_fresh.
    + rewrite fmap_app. apply NoDup_app. split; [done|]. split; [|apply NoDup_singleton].
      intros t' (old & -> & Hold)%list_elem_of_fmap Ht%list_elem_of_singleton.
      assert (existsb (fun old => bool_decide (ticker old = t)) (companies s) = true);
        [|congruence].
      apply existsb_exists. exists old. split; [by apply list_elem_of_In|].
      by apply bool_decide_eq_true.
    + intros f c' Hf Hc. rewrite fmap_app, elem_of_app. left. by apply (Hfr f).
    + rewrite fmap_app. by apply fresh_snoc.
    + by apply fresh_more.
    + by apply fresh_more.
    + by apply fresh_more.
  - unfold insert_filing in Hexec.
    destruct (from_option _ _ company) eqn:Ec; [|done].
    destruct (existsb _ (filings s)) eqn:Eu; [done|]. injection Hexec as <-.
    split; cbn; try done.
    + rewrite fmap_app. by apply NoDup_fresh.
    + apply (unique_append filing_conflict); [intros old k'; apply filing_conflict_complete|done|done].
    + intros f c Hf Hc. apply elem_of_app in Hf as [Hf| ->%list_elem_of_singleton];
        [by apply (Hfr f)|].
      cbn in Hc. subst company. cbn in Ec. unfold company_exists in Ec.
      apply existsb_exists in Ec as (r & Hr%list_elem_of_In & E%bool_decide_eq_true).
      subst c. by apply list_elem_of_fmap_2.
    + intros m f Hm Hf. rewrite fmap_app, elem_of_app. left. by apply (Hmr m).
    + intros k f Hk Hf. rewrite fmap_app, elem_of_app. left. by apply (Hkr k).
    + by apply fresh_more.
    + rewrite fmap_app. by apply fresh_snoc.
    + by apply fresh_more.
    + by apply fresh_more.
  - destruct (from_option _ _ filing) eqn:Ef; [|done].
    destruct (existsb _ (financial_metrics s)) eqn:Eu; [done|]. injection Hexec as <-.
    split; cbn; try done.
    + rewrite fmap_app. by apply NoDup_fresh.
    + apply (unique_append metric_conflict); [intros old k'; apply metric_conflict_complete|done|done].
    + intros m f Hm Hf. apply elem_of_app in Hm as [Hm| ->%list_elem_of_singleton];
        [by apply (Hmr m)|].
      cbn in Hf. subst filing. cbn in Ef. by apply filing_exists_elem.
    + by apply fresh_more.
    + by apply fresh_more.
    + rewrite fmap_app. by apply fresh_snoc.
    + by apply fresh_more.
  - destruct (from_option _ _ filing) eqn:Ef; [|done].
    destruct (existsb _ (risk_keywords s)) eqn:Eu; [done|]. injection Hexec as <-.
    split; cbn; try done.
    + rewrite fmap_app. by apply NoDup_fresh.
    + apply (unique_append keyword_conflict); [intros old k'; apply keyword_conflict_complete|done|done].
    + intros k f Hk Hf. apply elem_of_app in Hk as [Hk| ->%list_elem_of_singleton];
        [by apply (Hkr k)|].
      cbn in Hf. subst filing. cbn in Ef. by apply filing_exists_elem.
    + by apply fresh_more.
    + by apply fresh_more.
    + by apply fresh_more.
    + rewrite fmap_app. by apply fresh_snoc.
  - injection Hexec as <-.
    split; cbn; try (by apply NoDup_fmap_filter); try (by apply NoDup_omap_filter);
      try (by apply fresh_filter).
    + intros f c [Hne Hf]%list_elem_of_filter Hc.
      apply parent_kept; [by apply (Hfr f)|]. intros r _ Hr E. apply Hne.
      rewrite Hc. congruence.
    + intros m f [Hno Hm]%list_elem_of_filter Hf.
      apply parent_kept; [by apply (Hmr m)|]. intros g Hg Hgf Hgone.
      rewrite Hf in Hno. cbn in Hno. apply bool_decide_eq_false in Hno. apply Hno.
      apply list_elem_of_fmap. exists g. split; [done|].
      by apply list_elem_of_filter.
    + intros k f [Hno Hk]%list_elem_of_filter Hf.
      apply parent_kept; [by apply (Hkr k)|]. intros g Hg Hgf Hgone.
      rewrite Hf in Hno. cbn in Hno. apply bool_decide_eq_false in Hno. apply Hno.
      apply list_elem_of_fmap. exists g. split; [done|].
      by apply list_elem_of_filter.
  - injection Hexec as <-.
    split; cbn; try done; try (by apply NoDup_fmap_filter);
      try (by apply NoDup_omap_filter); try (by apply fresh_filter).
    + intros f c [_ Hf]%list_elem_of_filter Hc. by apply (Hfr f).
    + intros m f [Hne Hm]%list_elem_of_filter Hf.
      apply parent_kept; [by apply (Hmr m)|]. intros g _ Hg E. apply Hne.
      rewrite Hf. congruence.
    + intros k f [Hne Hk]%list_elem_of_filter Hf.
      apply parent_kept; [by apply (Hkr k)|]. intros g _ Hg E. apply Hne.
      rewrite Hf. congruence.
  - injection Hexec as <-.
    split; cbn; try done; try (by apply NoDup_fmap_filter);
      try (by apply NoDup_omap_filter); try (by apply fresh_filter).
    intros m f [_ Hm]%list_elem_of_filter Hf. by apply (Hmr m).
  - injection Hexec as <-.
    split; cbn; try done; try (by apply NoDup_fmap_filter);
      try (by apply NoDup_omap_filter); try (by apply fresh_filter).
    intros k f [_ Hk]%list_elem_of_filter Hf. by apply (Hkr k).
Qed.

Lemma exec_integrity (types : Types) (now : timestamptz) (stmt : Statement)
    (s s' : Store) :
  integrity s → exec types now stmt s = Some s' → integrity s'.
Proof.
  unfold exec. destruct (stored types stmt) as [stmt'|]; [|done]. cbn.
  apply run_integrity.
Qed.

Lemma reachable_integrity (types : Types) (s : Store) :
  reachable types s → integrity s.
Proof.
  induction 1 as [|now stmt s s' _ IH Hexec]; [apply created_integrity|].
  by apply (exec_integrity types now stmt s).
Qed.

(** The stored form of an INSERT is an INSERT into the same table, under
    the same parent. *)
Lemma stored_filing (types : Types) (company : option uuid) (d : FilingData)
    (stmt : Statement) :
  stored types (InsertFiling company d) = Some stmt →
  ∃ d', stmt = InsertFiling company d'.
Proof.
  cbn. intros H. repeat (apply bind_Some in H as (? & _ & H)).
  injection H as <-. by eexists.
Qed.

Lemma stored_company (types : Types) (t name c : string) (sec ind : option string)
    (stmt : Statement) :
  stored types (InsertCompany t name c sec ind) = Some stmt →
  ∃ t' name' c' sec' ind', stmt = InsertCompany t' name' c' sec' ind'.
Proof.
  cbn. intros H. repeat (apply bind_Some in H as (? & _ & H)).
  injection H as <-. by eexists _, _, _, _, _.
Qed.

End SqlFacts.

(** X19. Whatever rows are inserted and deleted, and whatever the column
    types make of the values, the constraints of the schema keep the four
    tables consistent: a primary key, a ticker and a complete key (one
    without NULL) name one row, and a foreign key that is not NULL names a
    row of its parent table, also after a deletion has cascaded to the
    children. *)
Theorem the_schema_keeps_the_tables_consistent (types : Sql.Types) (s : Storage.Store) :
  Sql.reachable types s → Sql.integrity s.
Proof. apply reachable_integrity. Qed.

Lemma the_schema_keeps_the_tables_consistent_witness :
  Sql.integrity Examples.after_filing.
Proof.
  apply (the_schema_keeps_the_tables_consistent Examples.types Examples.after_filing).
  apply (Sql.reachable_exec Examples.types 2
           (Sql.InsertFiling (Some 0%nat) (Samples.annual_report (Some "FY")))
           Examples.after_company); [|vm_compute; reflexivity].
  apply (Sql.reachable_exec Examples.types 1
           (Sql.InsertCompany "AAPL" "Apple Inc." "0000320193" (Some "Technology") None)
           Sql.created); [apply Sql.reachable_created|vm_compute; reflexivity].
Defined.

(** X20. Deleting the row that an INSERT has just added gives the tables
    back as they were before the INSERT, for a filing and for a company:
    the cascade of the deletion finds no other row to take. *)
Theorem delete_undoes_insert (types : Sql.Types) (s : Storage.Store) :
  Sql.reachable types s →
  (∀ now later company d s1,
     Sql.exec types now (Sql.InsertFiling company d) s = Some s1 →
     ∃ s2, Sql.exec types later (Sql.DeleteFiling (Storage.next_uuid s)) s1 = Some s2
           ∧ Storage.companies s2 = Storage.companies s
           ∧ Storage.filings s2 = Storage.filings s
           ∧ Storage.financial_metrics s2 = Storage.financial_metrics s
           ∧ Storage.risk_keywords s2 = Storage.risk_keywords s)
  ∧ (∀ now later t name c sec ind s1,
       Sql.exec types now (Sql.InsertCompany t name c sec ind) s = Some s1 →
       ∃ s2, Sql.exec types later (Sql.DeleteCompany (Storage.next_uuid s)) s1 = Some s2
             ∧ Storage.companies s2 = Storage.companies s
             ∧ Storage.filings s2 = Storage.filings s
             ∧ Storage.financial_metrics s2 = Storage.financial_metrics s
             ∧ Storage.risk_keywords s2 = Storage.risk_keywords s).
Proof.
  intros [Hcp Hct Hfp Hfk Hfr Hmp Hmk Hmr Hkp Hkk Hkr Hcf Hff Hmf Hkf]%reachable_integrity.
  split.
  - intros now later company d s1 Hins. unfold Sql.exec in Hins.
    destruct (Sql.stored types _) as [stmt|] eqn:Es; [|done].
    apply stored_filing in Es as [d' ->]. cbn in Hins.
    unfold Storage.insert_filing in Hins.
    destruct (_ && _); [|done]. injection Hins as <-. eexists. split; [reflexivity|].
    cbn. split; [done|]. split; [|split].
    + rewrite filter_app, filter_all.
      * rewrite filter_cons, decide_False by (by intros H; apply H). apply app_nil_r.
      * intros f Hf E. specialize (Hff (Schema.filing_pk f)).
        rewrite E in Hff. assert (Storage.next_uuid s < Storage.next_uuid s)%nat; [|lia].
        apply Hff. rewrite <- E. by apply list_elem_of_fmap_2.
    + apply filter_all. intros m Hm E. specialize (Hmr m _ Hm E).
      specialize (Hff _ Hmr). lia.
    + apply filter_all. intros k Hk E. specialize (Hkr k _ Hk E).
      specialize (Hff _ Hkr). lia.
  - intros now later t name c sec ind s1 Hins. unfold Sql.exec in Hins.
    destruct (Sql.stored types _) as [stmt|] eqn:Es; [|done].
    apply stored_company in Es as (t' & name' & c' & sec' & ind' & ->). cbn in Hins.
    destruct (existsb _ _); [done|]. injection Hins as <-. eexists. split; [reflexivity|].
    cbn.
    assert (Hnone : filter (fun f => Schema.company_id f = Some (Storage.next_uuid s))
                      (Storage.filings s) = []).
    { apply filter_none, Forall_forall. intros f Hf E. specialize (Hfr f _ Hf E).
      specialize (Hcf _ Hfr). lia. }
    rewrite Hnone. cbn. split; [|split; [|split]].
    + rewrite filter_app, filter_all.
      * rewrite filter_cons, decide_False by (by intros H; apply H). apply app_nil_r.
      * intros r Hr E. specialize (Hcf (Schema.company_pk r)).
        rewrite E in Hcf. assert (Storage.next_uuid s < Storage.next_uuid s)%nat; [|lia].
        apply Hcf. rewrite <- E. by apply list_elem_of_fmap_2.
    + apply filter_all. intros f Hf E. specialize (Hfr f _ Hf E).
      specialize (Hcf _ Hfr). lia.
    + apply filter_all. intros m _. by destruct (Schema.metric_filing_id m).
    + apply filter_all. intros k _. by destruct (Schema.keyword_filing_id k).
Qed.

Lemma delete_undoes_insert_witness :
  ∃ s1 s2,
    Sql.exec Examples.types 2
      (Sql.InsertFiling (Some 0%nat) (Samples.annual_report (Some "FY")))
      Examples.after_company = Some s1
    ∧ Sql.exec Examples.types 3
        (Sql.DeleteFiling (Storage.next_uuid Examples.after_company)) s1 = Some s2
    ∧ Storage.companies s2 = Storage.companies Examples.after_company
    ∧ Storage.filings s2 = Storage.filings Examples.after_company
    ∧ Storage.financial_metrics s2 = Storage.financial_metrics Examples.after_company
    ∧ Storage.risk_keywords s2 = Storage.risk_keywords Examples.after_company.
Proof.
  exists Examples.after_filing.
  destruct (delete_undoes_insert Examples.types Examples.after_company) as [Hfiling _].
  - apply (Sql.reachable_exec Examples.types 1
             (Sql.InsertCompany "AAPL" "Apple Inc." "0000320193" (Some "Technology") None)
             Sql.created); [apply Sql.reachable_created|vm_compute; reflexivity].
  - destruct (Hfiling 2 3 (Some 0%nat) (Samples.annual_report (Some "FY"))
                Examples.after_filing) as (s2 & H); [vm_compute; reflexivity|].
    exists s2. split; [vm_compute; reflexivity|exact H].
Defined.
